(** * TaskFlow: ordered task store, real-time fan-out and notifications

    A shallow embedding of the parts of the TaskFlow sources that
    maintain task order inside a column and push changes to connected
    clients:

    - [Server]         the unified Express/SQLite/WebSocket server
                       (server.js): the [tasks] table, the task routes
                       (list, create, move, delete) and [broadcast];
    - [Realtime]       Agent 8's [RealtimeServer] (websocket.js);
    - [Notifications]  Agent 8's event bus and [NotificationService]
                       (eventBus.js, notificationService.js);
    - [Client]         Agent 8's [useNotifications] hook.

    Modelling conventions.  SQL tables are lists of rows in rowid order
    and statements are list functions.  JavaScript [undefined]/[null]
    are [None].  A string holds the UTF-8 bytes of the JavaScript
    string.  Request fields are strings, or an integer literal
    for [position]; fractional numbers and other JSON types are outside
    the model.  Clock reads and random identifiers are inputs of the
    operation that performs them.  [JSON.stringify]ed frames are kept
    as structured values.

    Numbers.  A position is the integer that the row holds.  SQLite
    keeps it as a 64-bit INTEGER when it fits and as a REAL (a double)
    when it does not; JavaScript sees every number as a double.  The
    integer [n] stands for itself in both worlds, and the places where
    the code rounds are written out: [Js.to_number] where a value
    becomes a JavaScript number (parsing the request, reading a row
    through sql.js, adding in JavaScript) and [Server.sql_succ] for
    SQL's [position + 1]. *)

From Stdlib Require Import ZArith List String Ascii Bool Arith Lia Permutation Sorted.
From Stdlib Require Import DecimalString DecimalNat SpecFloat.
Import ListNotations.

Local Open Scope string_scope.

(** ** JavaScript helpers *)

Module Js.

(** Truthiness of a string-or-undefined value: [undefined], [null]
    and the empty string are falsy. *)
Definition truthy (v : option string) : bool :=
  match v with
  | Some s => negb (s =? EmptyString)
  | None => false
  end.

(** [v || d] on a string-or-undefined value. *)
Definition or_else (v : option string) (d : string) : string :=
  match v with
  | Some s => if s =? EmptyString then d else s
  | None => d
  end.

(** [v || null]: a truthy string or nothing. *)
Definition or_null (v : option string) : option string :=
  if truthy v then v else None.

(** [v ?? d]. *)
Definition nullish {A : Type} (v : option A) (d : A) : A :=
  match v with
  | Some a => a
  | None => d
  end.

(** The double nearest to the integer [n], ties to even: integers up
    to 2^53 in magnitude are doubles; a larger one keeps its 53 leading
    bits.  (Beyond 2^1024 the double is [Infinity], which is outside
    the model.) *)
Definition to_number (n : Z) : Z :=
  let a := Z.abs n in
  if (a <=? 2 ^ 53)%Z then n
  else
    let k := (Z.log2 a - 52)%Z in
    let q := Z.shiftr a k in
    let r := (a - Z.shiftl q k)%Z in
    let half := Z.shiftl 1 (k - 1) in
    let q' := if (r <? half)%Z then q
              else if (half <? r)%Z then (q + 1)%Z
              else if Z.even q then q else (q + 1)%Z in
    (Z.sgn n * Z.shiftl q' k)%Z.

(** The integers that are JavaScript numbers: the finite doubles that
    hold an integer. *)
Definition is_number (n : Z) : bool :=
  (to_number n =? n)%Z && (Z.abs n <? 2 ^ 1024)%Z.

(** The same rounding as the Standard Library's IEEE 754 model does it,
    for comparison: the binary64 value of an integer, and the integer
    that a binary64 value holds. *)
Definition binary64_of_Z (n : Z) : spec_float :=
  binary_normalize 53 1024 n 0 false.

Definition Z_of_binary64 (f : spec_float) : option Z :=
  match f with
  | S754_zero _ => Some 0%Z
  | S754_finite s m e =>
      let v := if (0 <=? e)%Z then Z.shiftl (Z.pos m) e else Z.shiftr (Z.pos m) (- e) in
      if (0 <=? e)%Z || (Z.shiftl v (- e) =? Z.pos m)%Z
      then Some (if s then (- v)%Z else v)
      else None
  | _ => None
  end.

(** [x + y] on two numbers that hold integers. *)
Definition plus (x y : Z) : Z := to_number (x + y).

(** [xs.includes(x)] on an array of strings. *)
Definition includes (xs : list string) (x : string) : bool :=
  existsb (String.eqb x) xs.

(** A template-literal hole [${v}]. *)
Definition interp (v : option string) : string :=
  match v with
  | Some s => s
  | None => "undefined"
  end.

(** [String(n)] for a non-negative integer. *)
Definition String_of_nat (n : nat) : string :=
  NilEmpty.string_of_uint (Nat.to_uint n).

(** The white space that [String.prototype.trim] strips, in UTF-8:
    the characters U+0009 to U+000D and U+0020 take one byte, U+00A0
    takes two, and U+1680, U+2000 to U+200A, U+2028, U+2029, U+202F,
    U+205F, U+3000 and U+FEFF take three. *)
Definition is_space (c : ascii) : bool :=
  let n := nat_of_ascii c in
  (n =? 32)%nat || ((9 <=? n)%nat && (n <=? 13)%nat).

Definition is_space2 (a b : ascii) : bool :=
  (nat_of_ascii a =? 194)%nat && (nat_of_ascii b =? 160)%nat.

Definition is_space3 (a b c : ascii) : bool :=
  let x := nat_of_ascii a in
  let y := nat_of_ascii b in
  let z := nat_of_ascii c in
  ((x =? 225) && (y =? 154) && (z =? 128))%nat
  || ((x =? 226) && (y =? 128)
      && (((128 <=? z) && (z <=? 138)) || (z =? 168) || (z =? 169) || (z =? 175)))%nat
  || ((x =? 226) && (y =? 129) && (z =? 159))%nat
  || ((x =? 227) && (y =? 128) && (z =? 128))%nat
  || ((x =? 239) && (y =? 187) && (z =? 191))%nat.

(** White space dropped from the front of the bytes. *)
Fixpoint drop_spaces (cs : list ascii) : list ascii :=
  match cs with
  | [] => []
  | a :: rest =>
      if is_space a then drop_spaces rest
      else
        match rest with
        | [] => cs
        | b :: rest2 =>
            if is_space2 a b then drop_spaces rest2
            else
              match rest2 with
              | [] => cs
              | c :: rest3 => if is_space3 a b c then drop_spaces rest3 else cs
              end
        end
  end.

(** The same from the back, on the reversed bytes. *)
Fixpoint drop_spaces_back (cs : list ascii) : list ascii :=
  match cs with
  | [] => []
  | c :: rest =>
      if is_space c then drop_spaces_back rest
      else
        match rest with
        | [] => cs
        | b :: rest2 =>
            if is_space2 b c then drop_spaces_back rest2
            else
              match rest2 with
              | [] => cs
              | a :: rest3 => if is_space3 a b c then drop_spaces_back rest3 else cs
              end
        end
  end.

(** [s.trim()] *)
Definition trim (s : string) : string :=
  string_of_list_ascii
    (rev (drop_spaces_back (rev (drop_spaces (list_ascii_of_string s))))).

(** [s.length], the number of UTF-16 code units: one for a character
    of one to three bytes, two for a character of four. *)
Definition code_units (c : ascii) : nat :=
  let n := nat_of_ascii c in
  if (n <? 128)%nat then 1
  else if (n <? 192)%nat then 0
  else if (n <? 240)%nat then 1
  else 2.

Definition length (s : string) : nat :=
  fold_right (fun c n => code_units c + n) 0 (list_ascii_of_string s).

(** Stable sorting.  [before x y] says that [x] sorts strictly before
    [y]; elements that are not ordered keep their relative order, as
    with [Array.prototype.sort] and with SQLite's sorter reading rows
    in rowid order. *)
Section Sort.
Context {A : Type} (before : A -> A -> bool).

Fixpoint insert_sorted (x : A) (l : list A) : list A :=
  match l with
  | [] => [x]
  | y :: l' => if before y x then y :: insert_sorted x l' else x :: l
  end.

Definition stable_sort (l : list A) : list A :=
  fold_right insert_sorted [] l.

End Sort.

(** [xs.slice(offset, offset + limit)] for non-negative bounds. *)
Definition slice {A : Type} (offset limit : nat) (xs : list A) : list A :=
  firstn limit (skipn offset xs).

End Js.

(** ** The [ws] library's sockets *)

Module Ws.

Definition CONNECTING : nat := 0.
Definition OPEN : nat := 1.
Definition CLOSING : nat := 2.
Definition CLOSED : nat := 3.

(** A server-side socket.  [ws_id] stands for the object's identity,
    [ws_sent] collects the frames written so far, and [ws_throws]
    says whether [ws.send] raises (a write failure). *)
Record WebSocket (F : Type) : Type := mkWebSocket {
  ws_id : nat;
  ws_userId : string;
  ws_userName : string;
  ws_readyState : nat;
  ws_throws : bool;
  ws_sent : list F
}.
Arguments mkWebSocket {F}.
Arguments ws_id {F}.
Arguments ws_userId {F}.
Arguments ws_userName {F}.
Arguments ws_readyState {F}.
Arguments ws_throws {F}.
Arguments ws_sent {F}.

Definition push_frame {F : Type} (ws : WebSocket F) (frame : F) : WebSocket F :=
  mkWebSocket (ws_id ws) (ws_userId ws) (ws_userName ws)
              (ws_readyState ws) (ws_throws ws) (ws_sent ws ++ [frame])%list.

(** [ws.send(frame)]: [None] when the call throws. *)
Definition send {F : Type} (ws : WebSocket F) (frame : F) : option (WebSocket F) :=
  if ws_throws ws then None else Some (push_frame ws frame).

(** A [Map<userId, Set<ws>>], in insertion order. *)
Definition Registry (F : Type) : Type := list (string * list (WebSocket F)).

Section Registry.
Context {F : Type}.

Fixpoint get (uid : string) (m : Registry F) : option (list (WebSocket F)) :=
  match m with
  | [] => None
  | (k, v) :: rest => if k =? uid then Some v else get uid rest
  end.

Definition has (uid : string) (m : Registry F) : bool :=
  match get uid m with Some _ => true | None => false end.

(** [m.set(uid, v)]: replaces in place, or appends a new entry. *)
Fixpoint set (uid : string) (v : list (WebSocket F)) (m : Registry F) : Registry F :=
  match m with
  | [] => [(uid, v)]
  | (k, v0) :: rest =>
      if k =? uid then (k, v) :: rest else (k, v0) :: set uid v rest
  end.

Fixpoint delete (uid : string) (m : Registry F) : Registry F :=
  match m with
  | [] => []
  | (k, v) :: rest => if k =? uid then rest else (k, v) :: delete uid rest
  end.

(** [set.add(ws)] and [set.delete(ws)], by object identity. *)
Definition set_add (ws : WebSocket F) (s : list (WebSocket F)) : list (WebSocket F) :=
  if existsb (fun w => (ws_id w =? ws_id ws)%nat) s then s else (s ++ [ws])%list.

Definition set_delete (ws : WebSocket F) (s : list (WebSocket F)) : list (WebSocket F) :=
  filter (fun w => negb (ws_id w =? ws_id ws)%nat) s.

(** Who is registered, and with which sockets. *)
Definition members (m : Registry F) : list (string * list nat) :=
  map (fun e => (fst e, map ws_id (snd e))) m.

End Registry.

End Ws.

(** ** The unified server (server.js) *)

Module Server.

(** *** Tables (Agent 2's schema, as created in [main]) *)

Record Board : Type := mkBoard {
  board_id : string;
  board_name : string;
  board_description : string;
  board_owner_id : string;
  board_created_at : string;
  board_updated_at : string
}.

Record Column : Type := mkColumn {
  column_id : string;
  column_board_id : string;
  column_name : string;
  column_position : Z;
  column_color : string;
  column_created_at : string;
  column_updated_at : string
}.

(** A row of [tasks].  [task_labels] is the array whose JSON text the
    [labels] column holds. *)
Record Task : Type := mkTask {
  task_id : string;
  task_column_id : string;
  task_board_id : string;
  task_title : string;
  task_description : string;
  task_assignee_id : option string;
  task_priority : string;
  task_labels : list string;
  task_position : Z;
  task_due_date : option string;
  task_created_at : string;
  task_updated_at : string
}.

(** The tables the task routes read and write. *)
Record Database : Type := mkDatabase {
  boards : list Board;
  columns : list Column;
  tasks : list Task
}.

Definition with_tasks (db : Database) (ts : list Task) : Database :=
  mkDatabase (boards db) (columns db) ts.

Definition VALID_PRIORITIES : list string :=
  ["none"; "low"; "medium"; "high"; "urgent"].

(** *** Error classes (Agent 5) *)

(** [Thrown] stands for any exception that is not an [AppError] (a
    sql.js constraint failure, a failing [ws.send]); it has no
    [status]. *)
Inductive AppError : Type :=
| NotFoundError (message : string)
| ValidationError (message : string)
| Thrown (message : string).

Definition class_name (e : AppError) : string :=
  match e with
  | NotFoundError _ => "NotFoundError"
  | ValidationError _ => "ValidationError"
  | Thrown _ => "Error"
  end.

Definition err_message (e : AppError) : string :=
  match e with
  | NotFoundError m | ValidationError m | Thrown m => m
  end.

Definition err_status (e : AppError) : option Z :=
  match e with
  | NotFoundError _ => Some 404%Z
  | ValidationError _ => Some 400%Z
  | Thrown _ => None
  end.

(** *** WebSocket fan-out *)

Inductive Payload : Type :=
| PTask (t : option Task)
| PDeleted (id boardId : string).

(** The object that [broadcast] serialises. *)
Record Frame : Type := mkFrame {
  frame_type : string;
  frame_payload : Payload;
  frame_timestamp : string
}.

Definition Socket : Type := Ws.WebSocket Frame.
Definition Clients : Type := Ws.Registry Frame.

(** The inner loop of [broadcast] over one user's sockets; the flag
    says that a [ws.send] threw, which ends the loop. *)
Fixpoint send_each (msg : Frame) (sockets : list Socket) : list Socket * bool :=
  match sockets with
  | [] => ([], false)
  | ws :: rest =>
      if (Ws.ws_readyState ws =? 1)%nat then
        match Ws.send ws msg with
        | None => (ws :: rest, true)
        | Some ws' =>
            let (rest', threw) := send_each msg rest in (ws' :: rest', threw)
        end
      else
        let (rest', threw) := send_each msg rest in (ws :: rest', threw)
  end.

Fixpoint broadcast_loop (excludeUserId : string) (msg : Frame) (cl : Clients)
  : Clients * bool :=
  match cl with
  | [] => ([], false)
  | (userId, sockets) :: rest =>
      if userId =? excludeUserId then
        let (rest', threw) := broadcast_loop excludeUserId msg rest in
        ((userId, sockets) :: rest', threw)
      else
        let (sockets', threw) := send_each msg sockets in
        if threw then ((userId, sockets') :: rest, true)
        else
          let (rest', threw') := broadcast_loop excludeUserId msg rest in
          ((userId, sockets') :: rest', threw')
  end.

(** *** Requests, responses and the handler monad *)

Inductive Body : Type :=
| JsonTask (t : option Task)
| JsonTasks (ts : list Task)
| JsonError (error : string)
| NoContent.

Record Response : Type := mkResponse {
  res_status : Z;
  res_body : Body
}.

(** What a route reads from outside the request: [uid()], the SQL
    time stamp and the ISO time stamp of the broadcast frame. *)
Record Env : Type := mkEnv {
  env_uid : string;
  env_now : string;
  env_iso : string
}.

Record State : Type := mkState {
  database : Database;
  clients : Clients
}.

(** A route body: it may change the state and then either throws or
    returns. *)
Definition Handler (A : Type) : Type := State -> State * (AppError + A).

Definition ret {A : Type} (a : A) : Handler A := fun s => (s, inr a).

Definition throw {A : Type} (e : AppError) : Handler A := fun s => (s, inl e).

Definition bind {A B : Type} (m : Handler A) (k : A -> Handler B) : Handler B :=
  fun s =>
    match m s with
    | (s', inl e) => (s', inl e)
    | (s', inr a) => k a s'
    end.

Notation "x <- m ;; k" := (bind m (fun x => k))
  (at level 61, m at next level, right associativity).
Notation "m ;;; k" := (bind m (fun _ => k))
  (at level 61, right associativity).

(** [db.prepare(sql).get(...)] / [.all(...)]: a read. *)
Definition query {A : Type} (q : Database -> A) : Handler A :=
  fun s => (s, inr (q (database s))).

(** [db.prepare(sql).run(...)] with a statement that cannot fail. *)
Definition run (u : Database -> Database) : Handler unit :=
  fun s => (mkState (u (database s)) (clients s), inr tt).

(** [if (c) throw e]. *)
Definition throw_if (c : bool) (e : AppError) : Handler unit :=
  if c then throw e else ret tt.

(** [broadcast(excludeUserId, event, payload)]. *)
Definition broadcast (excludeUserId event : string) (payload : Payload)
  (iso : string) : Handler unit :=
  fun s =>
    let (cl, threw) :=
      broadcast_loop excludeUserId (mkFrame event payload iso) (clients s) in
    (mkState (database s) cl,
     if threw then inl (Thrown "WebSocket send failed") else inr tt).

(** [try { ... } catch (e) { res.status(e.status || 500).json({ error:
    e.message }) }]; the Express error middleware answers an uncaught
    exception the same way. *)
Definition respond (h : Handler Response) (s : State) : State * Response :=
  match h s with
  | (s', inr r) => (s', r)
  | (s', inl e) =>
      (s', mkResponse (Js.nullish (err_status e) 500%Z) (JsonError (err_message e)))
  end.

(** *** SQL statements of the task routes *)

(** [SELECT * FROM boards WHERE id = ? AND owner_id = ?] *)
Definition select_board (boardId owner : string) (db : Database) : option Board :=
  find (fun b => (board_id b =? boardId) && (board_owner_id b =? owner)) (boards db).

(** [SELECT t.* FROM tasks t, boards b WHERE t.board_id = b.id AND
    t.id = ? AND b.owner_id = ?]: the stored row; the routes only test
    whether there is one. *)
Definition select_owned_task (taskId owner : string) (db : Database) : option Task :=
  find (fun t =>
          (task_id t =? taskId) &&
          existsb (fun b => (task_board_id t =? board_id b) &&
                            (board_owner_id b =? owner)) (boards db))
       (tasks db).

(** [SELECT id FROM columns WHERE id = ? AND board_id = ?] *)
Definition select_column (columnId boardId : string) (db : Database) : option Column :=
  find (fun c => (column_id c =? columnId) && (column_board_id c =? boardId))
       (columns db).

(** [SELECT id FROM columns WHERE board_id = ? ORDER BY position LIMIT 1] *)
Definition select_first_column (boardId : string) (db : Database) : option Column :=
  hd_error
    (Js.stable_sort (fun a b => (column_position a <? column_position b)%Z)
       (filter (fun c => column_board_id c =? boardId) (columns db))).

(** SQL [MAX(position)] over the rows of a column; [None] is SQL
    [NULL], the maximum of no rows. *)
Definition max_position (columnId : string) (db : Database) : option Z :=
  fold_left
    (fun m t =>
       if task_column_id t =? columnId then
         match m with
         | None => Some (task_position t)
         | Some p => Some (Z.max p (task_position t))
         end
       else m)
    (tasks db) None.

(** [SELECT MAX(position) as m FROM tasks WHERE column_id = ?], as
    [.get()] returns it: sql.js reads a numeric column as a
    JavaScript number. *)
Definition select_max_position (columnId : string) (db : Database) : option Z :=
  option_map Js.to_number (max_position columnId db).

(** [INSERT INTO tasks (...) VALUES (...)]; [id] is the primary key. *)
Definition insert_task (t : Task) : Handler unit :=
  fun s =>
    if existsb (fun t0 => task_id t0 =? task_id t) (tasks (database s)) then
      (s, inl (Thrown "UNIQUE constraint failed: tasks.id"))
    else
      (mkState (with_tasks (database s) (tasks (database s) ++ [t])%list) (clients s),
       inr tt).

Definition set_position (t : Task) (p : Z) : Task :=
  mkTask (task_id t) (task_column_id t) (task_board_id t) (task_title t)
         (task_description t) (task_assignee_id t) (task_priority t)
         (task_labels t) p (task_due_date t) (task_created_at t)
         (task_updated_at t).

(** A row of [tasks] as [.get()] and [.all()] return it: sql.js reads
    [position] as a JavaScript number. *)
Definition read_task (t : Task) : Task :=
  set_position t (Js.to_number (task_position t)).

(** [SELECT * FROM tasks WHERE id = ?] *)
Definition select_task (taskId : string) (db : Database) : option Task :=
  option_map read_task (find (fun t => task_id t =? taskId) (tasks db)).

(** SQL [position + 1].  The column has INTEGER affinity: it holds a
    number as a 64-bit INTEGER if that is exact and the number lies
    strictly between the smallest and the largest 64-bit integer (the
    largest itself arises only from [+ 1]), and as a REAL otherwise.
    On an INTEGER the sum is a 64-bit integer addition; when it
    overflows, and on a REAL, the addition is done in doubles. *)
Definition sql_succ (p : Z) : Z :=
  if ((- 2 ^ 63 <? p) && (p <? 2 ^ 63 - 1))%Z then (p + 1)%Z
  else Js.plus (Js.to_number p) 1.

Definition set_placement (t : Task) (columnId : string) (p : Z) (now : string) : Task :=
  mkTask (task_id t) columnId (task_board_id t) (task_title t)
         (task_description t) (task_assignee_id t) (task_priority t)
         (task_labels t) p (task_due_date t) (task_created_at t) now.

(** [UPDATE tasks SET position = position + 1 WHERE column_id = ? AND
    position >= ?] *)
Definition shift_positions (columnId : string) (pos : Z) (db : Database) : Database :=
  with_tasks db
    (map (fun t =>
            if (task_column_id t =? columnId) && (pos <=? task_position t)%Z
            then set_position t (sql_succ (task_position t))
            else t)
         (tasks db)).

(** [UPDATE tasks SET column_id = ?, position = ?, updated_at = ? WHERE
    id = ?] *)
Definition place_task (columnId : string) (pos : Z) (now taskId : string)
  (db : Database) : Database :=
  with_tasks db
    (map (fun t =>
            if task_id t =? taskId then set_placement t columnId pos now else t)
         (tasks db)).

(** [DELETE FROM tasks WHERE id = ?] *)
Definition delete_task (taskId : string) (db : Database) : Database :=
  with_tasks db (filter (fun t => negb (task_id t =? taskId)) (tasks db)).

(** *** Task routes *)

Definition is_none {A : Type} (v : option A) : bool :=
  match v with Some _ => false | None => true end.

(** The query string of [GET /api/boards/:boardId/tasks], without the
    [search] filter. *)
Record TaskQuery : Type := mkTaskQuery {
  q_columnId : option string;
  q_priority : option string
}.

(** [ORDER BY position ASC, created_at DESC] *)
Definition listed_before (a b : Task) : bool :=
  (task_position a <? task_position b)%Z
  || ((task_position a =? task_position b)%Z
      && String.ltb (task_created_at b) (task_created_at a)).

(** The statement that the list route assembles. *)
Definition select_tasks (boardId : string) (q : TaskQuery) (db : Database) : list Task :=
  map read_task
    (Js.stable_sort listed_before
       (filter (fun t =>
                  (task_board_id t =? boardId)
                  && (if Js.truthy (q_columnId q)
                      then task_column_id t =? Js.interp (q_columnId q) else true)
                  && (if Js.truthy (q_priority q)
                         && Js.includes VALID_PRIORITIES (Js.interp (q_priority q))
                      then task_priority t =? Js.interp (q_priority q) else true))
               (tasks db))).

(** [GET /api/boards/:boardId/tasks] *)
Definition listTasks (user boardId : string) (q : TaskQuery) : State -> State * Response :=
  respond (
    board <- query (select_board boardId user) ;;
    match board with
    | None => ret (mkResponse 404 (JsonError "Board not found"))
    | Some _ =>
        found <- query (select_tasks boardId q) ;;
        ret (mkResponse 200 (JsonTasks found))
    end).

Record CreateBody : Type := mkCreateBody {
  cb_title : option string;
  cb_description : option string;
  cb_columnId : option string;
  cb_priority : option string;
  cb_labels : option (list string);
  cb_dueDate : option string
}.

(** The column a new task goes to: the requested one if it is on the
    board, the board's first column if none is requested. *)
Definition target_column (boardId : string) (columnId : option string) : Handler string :=
  if Js.truthy columnId then
    col <- query (select_column (Js.interp columnId) boardId) ;;
    throw_if (is_none col) (ValidationError "Column not found on this board") ;;;
    ret (Js.interp columnId)
  else
    firstCol <- query (select_first_column boardId) ;;
    match firstCol with
    | None => throw (ValidationError "Board has no columns")
    | Some c => ret (column_id c)
    end.

(** The [try] block of [POST /api/boards/:boardId/tasks]. *)
Definition createTaskBody (user boardId : string) (body : CreateBody) (env : Env)
  : Handler Response :=
    board <- query (select_board boardId user) ;;
    throw_if (is_none board) (NotFoundError "Board not found") ;;;
    match cb_title body with
    | None => throw (ValidationError "Task title is required")
    | Some title =>
        throw_if ((title =? EmptyString) || (Js.trim title =? EmptyString))
                 (ValidationError "Task title is required") ;;;
        throw_if (255 <? Js.length title)%nat
                 (ValidationError "Title must be 255 characters or less") ;;;
        throw_if (Js.truthy (cb_priority body)
                  && negb (Js.includes VALID_PRIORITIES (Js.interp (cb_priority body))))
                 (ValidationError "Invalid priority") ;;;
        targetCol <- target_column boardId (cb_columnId body) ;;
        maxPos <- query (select_max_position targetCol) ;;
        insert_task
          (mkTask (env_uid env) targetCol boardId (Js.trim title)
                  (Js.or_else (cb_description body) EmptyString) None
                  (Js.or_else (cb_priority body) "none")
                  (Js.nullish (cb_labels body) [])
                  (Js.plus (Js.nullish maxPos (-1)%Z) 1)
                  (Js.or_null (cb_dueDate body))
                  (env_now env) (env_now env)) ;;;
        task <- query (select_task (env_uid env)) ;;
        broadcast user "task:created" (PTask task) (env_iso env) ;;;
        ret (mkResponse 201 (JsonTask task))
    end.

(** [POST /api/boards/:boardId/tasks] *)
Definition createTask (user boardId : string) (body : CreateBody) (env : Env)
  : State -> State * Response :=
  respond (createTaskBody user boardId body env).

(** The body of a move request as it is sent: [mb_position] is the
    integer literal of the [position] field, if there is one. *)
Record MoveBody : Type := mkMoveBody {
  mb_columnId : option string;
  mb_position : option Z
}.

(** [req.body.position] after [express.json()]: the literal has become
    a JavaScript number. *)
Definition parsed_position (body : MoveBody) : option Z :=
  option_map Js.to_number (mb_position body).

(** The [try] block of [PATCH /api/boards/:boardId/tasks/:taskId/move]. *)
Definition moveTaskBody (user boardId taskId : string) (body : MoveBody) (env : Env)
  : Handler Response :=
    task <- query (select_owned_task taskId user) ;;
    throw_if (is_none task) (NotFoundError "Task not found") ;;;
    throw_if (negb (Js.truthy (mb_columnId body)))
             (ValidationError "columnId is required") ;;;
    let columnId := Js.interp (mb_columnId body) in
    col <- query (select_column columnId boardId) ;;
    throw_if (is_none col) (ValidationError "Target column not found") ;;;
    let pos := Js.nullish (parsed_position body) 0%Z in
    run (shift_positions columnId pos) ;;;
    run (place_task columnId pos (env_now env) taskId) ;;;
    updated <- query (select_task taskId) ;;
    broadcast user "task:moved" (PTask updated) (env_iso env) ;;;
    ret (mkResponse 200 (JsonTask updated)).

(** [PATCH /api/boards/:boardId/tasks/:taskId/move] *)
Definition moveTask (user boardId taskId : string) (body : MoveBody) (env : Env)
  : State -> State * Response :=
  respond (moveTaskBody user boardId taskId body env).

(** [DELETE /api/boards/:boardId/tasks/:taskId] *)
Definition deleteTask (user boardId taskId : string) (env : Env)
  : State -> State * Response :=
  respond (
    task <- query (select_owned_task taskId user) ;;
    match task with
    | None => ret (mkResponse 404 (JsonError "Task not found"))
    | Some _ =>
        run (delete_task taskId) ;;;
        broadcast user "task:deleted" (PDeleted taskId boardId) (env_iso env) ;;;
        ret (mkResponse 204 NoContent)
    end).

(** *** Sequences of mutations *)

Inductive Op : Type :=
| Create (user boardId : string) (body : CreateBody) (env : Env)
| Move (user boardId taskId : string) (body : MoveBody) (env : Env)
| Delete (user boardId taskId : string) (env : Env).

Definition perform (op : Op) : State -> State * Response :=
  match op with
  | Create user boardId body env => createTask user boardId body env
  | Move user boardId taskId body env => moveTask user boardId taskId body env
  | Delete user boardId taskId env => deleteTask user boardId taskId env
  end.

(** The states after each operation of [ops], run in order from [s]. *)
Fixpoint states_after (s : State) (ops : list Op) : list State :=
  match ops with
  | [] => []
  | op :: rest => let s' := fst (perform op s) in s' :: states_after s' rest
  end.

(** The tasks of one column, as the list route shows them. *)
Definition column_listing (s : State) (user boardId columnId : string) : list Task :=
  match res_body (snd (listTasks user boardId (mkTaskQuery (Some columnId) None) s)) with
  | JsonTasks ts => ts
  | _ => []
  end.

(** *** Deleting a column *)

(** [SELECT c.id FROM columns c, boards b WHERE c.board_id = b.id AND
    c.id = ? AND b.owner_id = ?] *)
Definition select_owned_column (colId owner : string) (db : Database) : option Column :=
  find (fun c =>
          (column_id c =? colId) &&
          existsb (fun b => (column_board_id c =? board_id b) &&
                            (board_owner_id b =? owner)) (boards db))
       (columns db).

(** [DELETE FROM tasks WHERE column_id = ?] *)
Definition delete_column_tasks (colId : string) (db : Database) : Database :=
  with_tasks db (filter (fun t => negb (task_column_id t =? colId)) (tasks db)).

(** [DELETE FROM columns WHERE id = ?] *)
Definition delete_column (colId : string) (db : Database) : Database :=
  mkDatabase (boards db)
             (filter (fun c => negb (column_id c =? colId)) (columns db))
             (tasks db).

(** [DELETE /api/boards/:boardId/columns/:colId] *)
Definition deleteColumn (user boardId colId : string) (env : Env)
  : State -> State * Response :=
  respond (
    col <- query (select_owned_column colId user) ;;
    match col with
    | None => ret (mkResponse 404 (JsonError "Column not found"))
    | Some _ =>
        run (delete_column_tasks colId) ;;;
        run (delete_column colId) ;;;
        broadcast user "column:deleted" (PDeleted colId boardId) (env_iso env) ;;;
        ret (mkResponse 204 NoContent)
    end).

(** Task mutations and column deletions, in any order. *)
Inductive Request : Type :=
| OnTask (op : Op)
| DeleteColumn (user boardId colId : string) (env : Env).

Definition serve (r : Request) : State -> State * Response :=
  match r with
  | OnTask op => perform op
  | DeleteColumn user boardId colId env => deleteColumn user boardId colId env
  end.

Definition serve_all (rs : list Request) (s : State) : State :=
  fold_left (fun acc r => fst (serve r acc)) rs s.

(** The user a request comes from. *)
Definition requester (r : Request) : string :=
  match r with
  | OnTask (Create user _ _ _) => user
  | OnTask (Move user _ _ _ _) => user
  | OnTask (Delete user _ _ _) => user
  | DeleteColumn user _ _ _ => user
  end.

(** *** Response keys *)

Definition is_lower (c : ascii) : bool :=
  let n := nat_of_ascii c in (97 <=? n)%nat && (n <=? 122)%nat.

(** [c.toUpperCase()] on one ASCII character. *)
Definition toUpperCase (c : ascii) : ascii :=
  if is_lower c then ascii_of_nat (nat_of_ascii c - 32) else c.

(** The key renaming of [snakeToCamel]:
    [k.replace(/_([a-z])/g, (_, c) => c.toUpperCase())]. *)
Fixpoint camel (k : string) : string :=
  match k with
  | EmptyString => EmptyString
  | String a rest =>
      match rest with
      | String c rest' =>
          if (a =? "_")%char && is_lower c
          then String (toUpperCase c) (camel rest')
          else String a (camel rest)
      | EmptyString => String a EmptyString
      end
  end.

End Server.

(** ** Shapes shared by the notification modules *)

Module Wire.

(** The payload of a domain event: the fields that the event bus
    documentation, the templates and the listeners name.  A field that
    the emitter left out is [None]. *)
Record EventPayload : Type := mkEventPayload {
  taskId : option string;
  taskTitle : option string;
  assigneeId : option string;
  assignedBy : option string;
  assignedByName : option string;
  completedByName : option string;
  watcherIds : option (list string);
  authorId : option string;
  authorName : option string;
  commentId : option string;
  subscriberIds : option (list string);
  dueIn : option string;
  mentionedUserId : option string;
  mentionedByName : option string;
  context : option string;
  p_link : option string;
  p_title : option string;
  p_body : option string;
  addedByName : option string
}.

Definition no_payload : EventPayload :=
  mkEventPayload None None None None None None None None None None
                 None None None None None None None None None.

(** A stored notification.  [n_createdAt] and [n_readAt] are the instants
    (in milliseconds) whose ISO-8601 text the record holds.  [n_title],
    [n_body] and [n_link] are [None] in a record that has no such
    field. *)
Record Notification : Type := mkNotification {
  n_id : string;
  n_userId : string;
  n_type : string;
  n_title : option string;
  n_body : option string;
  n_link : option string;
  n_meta : EventPayload;
  n_read : bool;
  n_createdAt : Z;
  n_readAt : option Z
}.

(** The objects that the real-time server serialises onto a socket. *)
Inductive Message : Type :=
| ConnectionAck (userId : string) (serverTime : Z)
| NotificationNew (notification : Notification)
| NotificationRead (ids : list string)
| NotificationAllRead
| Pong (ts : Z)
| Typing (userId userName taskId : string)
| PresenceAck (status : string).

End Wire.

(** ** Agent 8's WebSocket server (websocket.js) *)

Module Realtime.

Import Wire.

Definition Socket : Type := Ws.WebSocket Message.

(** [clients] is the [Map<userId, Set<WebSocket>>]; [errors] is what
    [console.error] has printed. *)
Record RealtimeServer : Type := mkRealtimeServer {
  clients : Ws.Registry Message;
  errors : list string
}.

(** [_send(ws, data)]: a throwing [ws.send] is caught and logged. *)
Definition _send (ws : Socket) (data : Message) (log : list string)
  : Socket * list string :=
  match Ws.send ws data with
  | Some ws' => (ws', log)
  | None => (ws, (log ++ ["[WS] Send error"])%list)
  end.

(** The loop [for (const ws of sockets) if (ws.readyState === ws.OPEN)
    { this._send(ws, message); sent++ }]. *)
Fixpoint send_open (message : Message) (sockets : list Socket) (log : list string)
  : list Socket * list string * nat :=
  match sockets with
  | [] => ([], log, 0)
  | ws :: rest =>
      if (Ws.ws_readyState ws =? Ws.OPEN)%nat then
        let (ws', log1) := _send ws message log in
        let '(rest', log2, sent) := send_open message rest log1 in
        (ws' :: rest', log2, S sent)
      else
        let '(rest', log2, sent) := send_open message rest log in
        (ws :: rest', log2, sent)
  end.

(** [sendToUser(userId, message)] *)
Definition sendToUser (userId : string) (message : Message) (srv : RealtimeServer)
  : RealtimeServer * nat :=
  match Ws.get userId (clients srv) with
  | None => (srv, 0)
  | Some sockets =>
      let '(sockets', log, sent) := send_open message sockets (errors srv) in
      (mkRealtimeServer (Ws.set userId sockets' (clients srv)) log, sent)
  end.

Fixpoint broadcast_loop (message : Message) (excludeUserId : option string)
  (cl : Ws.Registry Message) (log : list string)
  : Ws.Registry Message * list string * nat :=
  match cl with
  | [] => ([], log, 0)
  | (uid, sockets) :: rest =>
      if match excludeUserId with Some ex => uid =? ex | None => false end then
        let '(rest', log', sent) := broadcast_loop message excludeUserId rest log in
        ((uid, sockets) :: rest', log', sent)
      else
        let '(sockets', log1, n) := send_open message sockets log in
        let '(rest', log2, sent) := broadcast_loop message excludeUserId rest log1 in
        ((uid, sockets') :: rest', log2, n + sent)
  end.

(** [broadcast(message, excludeUserId = null)] *)
Definition broadcast (message : Message) (excludeUserId : option string)
  (srv : RealtimeServer) : RealtimeServer * nat :=
  let '(cl, log, sent) :=
    broadcast_loop message excludeUserId (clients srv) (errors srv) in
  (mkRealtimeServer cl log, sent).

(** The [connection] listener, for a socket that was just accepted. *)
Definition on_connection (ws : Socket) (serverTime : Z) (srv : RealtimeServer)
  : RealtimeServer :=
  let uid := Ws.ws_userId ws in
  let sockets := Js.nullish (Ws.get uid (clients srv)) [] in
  let (ws', log) := _send ws (ConnectionAck uid serverTime) (errors srv) in
  mkRealtimeServer (Ws.set uid (Ws.set_add ws' sockets) (clients srv)) log.

(** The socket's [close] listener. *)
Definition on_close (ws : Socket) (srv : RealtimeServer) : RealtimeServer :=
  let uid := Ws.ws_userId ws in
  match Ws.get uid (clients srv) with
  | None => srv
  | Some sockets =>
      let sockets' := Ws.set_delete ws sockets in
      if (List.length sockets' =? 0)%nat
      then mkRealtimeServer (Ws.delete uid (clients srv)) (errors srv)
      else mkRealtimeServer (Ws.set uid sockets' (clients srv)) (errors srv)
  end.

Definition onlineUserCount (srv : RealtimeServer) : nat := List.length (clients srv).

Definition onlineUserIds (srv : RealtimeServer) : list string := map fst (clients srv).

(** *** Inbound frames *)

(** A frame from a client after [JSON.parse], by its [type]; [Other]
    is any other object. *)
Inductive ClientMessage : Type :=
| Ping
| TypingIn (taskId : option string)
| PresenceUpdate (status : option string)
| Other.

(** The socket object behind [ws] as the registry holds it now; a
    socket that is not registered is taken as given. *)
Definition current (ws : Socket) (cl : Ws.Registry Message) : Socket :=
  match Ws.get (Ws.ws_userId ws) cl with
  | Some sockets =>
      match find (fun w => (Ws.ws_id w =? Ws.ws_id ws)%nat) sockets with
      | Some w => w
      | None => ws
      end
  | None => ws
  end.

(** Writes to a registered socket show in the registry. *)
Definition store_socket (ws' : Socket) (cl : Ws.Registry Message) : Ws.Registry Message :=
  match Ws.get (Ws.ws_userId ws') cl with
  | Some sockets =>
      Ws.set (Ws.ws_userId ws')
             (map (fun w => if (Ws.ws_id w =? Ws.ws_id ws')%nat then ws' else w) sockets)
             cl
  | None => cl
  end.

(** [_send(ws, data)] on the socket object behind [ws]. *)
Definition reply (ws : Socket) (data : Message) (srv : RealtimeServer) : RealtimeServer :=
  let (ws', log) := _send (current ws (clients srv)) data (errors srv) in
  mkRealtimeServer (store_socket ws' (clients srv)) log.

(** [_handleMessage(ws, raw)]; [None] is a frame that [JSON.parse]
    rejects, [now] is [Date.now()]. *)
Definition _handleMessage (ws : Socket) (raw : option ClientMessage) (now : Z)
  (srv : RealtimeServer) : RealtimeServer :=
  match raw with
  | Some Ping => reply ws (Pong now) srv
  | Some (TypingIn taskId) =>
      if Js.truthy taskId then
        fst (broadcast (Typing (Ws.ws_userId ws) (Ws.ws_userName ws) (Js.interp taskId))
                       (Some (Ws.ws_userId ws)) srv)
      else srv
  | Some (PresenceUpdate status) =>
      reply ws (PresenceAck (Js.or_else status "online")) srv
  | Some Other => srv
  | None => srv
  end.

(** *** The handshake *)

(** What [verifyToken] resolves to. *)
Record User : Type := mkUser {
  user_id : option string;
  user_name : option string
}.

Inductive Verdict : Type :=
| Rejects
| NoUser
| Verified (user : User).

(** How an [upgrade] request ends. *)
Inductive Upgrade : Type :=
| Unauthorized
| Forbidden
| Destroyed
| Accepted.

Section Handshake.

(** The token verifier (Agent 2's, or the stand-in); [Rejects] is a
    rejected promise or an exception. *)
Variable verifyToken : string -> Verdict.

(** The [upgrade] listener.  [queryToken] is [query.token],
    [protocol] the [sec-websocket-protocol] header, [wsId] and [throws]
    describe the socket that [handleUpgrade] would create. *)
Definition upgrade (queryToken protocol : option string) (wsId : nat) (throws : bool)
  (serverTime : Z) (srv : RealtimeServer) : Upgrade * RealtimeServer :=
  let token := if Js.truthy queryToken then queryToken else protocol in
  if negb (Js.truthy token) then (Unauthorized, srv)
  else
    match verifyToken (Js.interp token) with
    | Rejects => (Destroyed, srv)
    | NoUser => (Forbidden, srv)
    | Verified user =>
        if Js.truthy (user_id user) then
          (Accepted,
           on_connection
             (Ws.mkWebSocket wsId (Js.interp (user_id user))
                             (Js.or_else (user_name user) "User") Ws.OPEN throws [])
             serverTime srv)
        else (Forbidden, srv)
    end.

(** *** Sequences of events *)

Inductive Event : Type :=
| UpgradeRequest (queryToken protocol : option string) (wsId : nat) (throws : bool)
                 (serverTime : Z)
| SocketClosed (ws : Socket)
| SocketMessage (ws : Socket) (raw : option ClientMessage) (now : Z)
| SendToUser (userId : string) (message : Message)
| Broadcast (message : Message) (excludeUserId : option string).

Definition handle (e : Event) (srv : RealtimeServer) : RealtimeServer :=
  match e with
  | UpgradeRequest queryToken protocol wsId throws serverTime =>
      snd (upgrade queryToken protocol wsId throws serverTime srv)
  | SocketClosed ws => on_close ws srv
  | SocketMessage ws raw now => _handleMessage ws raw now srv
  | SendToUser userId message => fst (sendToUser userId message srv)
  | Broadcast message excludeUserId => fst (broadcast message excludeUserId srv)
  end.

Definition run (events : list Event) (srv : RealtimeServer) : RealtimeServer :=
  fold_left (fun acc e => handle e acc) events srv.

End Handshake.

End Realtime.

(** ** Agent 8's notification service (eventBus.js, notificationService.js) *)

Module Notifications.

Import Wire.

(** *** Types and templates *)

Definition TASK_ASSIGNED : string := "task:assigned".
Definition TASK_COMPLETED : string := "task:completed".
Definition TASK_COMMENTED : string := "task:commented".
Definition TASK_DUE_SOON : string := "task:due_soon".
Definition TASK_OVERDUE : string := "task:overdue".
Definition MENTION : string := "mention".
Definition COLLABORATOR_ADDED : string := "collaborator:added".
Definition SYSTEM : string := "system".

Record Content : Type := mkContent {
  c_title : string;
  c_body : string;
  c_link : string
}.

Definition quoted (s : string) : string :=
  String "034"%char s ++ String "034"%char EmptyString.

Definition templates : list (string * (EventPayload -> Content)) :=
  [ (TASK_ASSIGNED, fun p =>
       mkContent "New task assigned"
         ("You were assigned " ++ quoted (Js.interp (taskTitle p)) ++ " by "
            ++ Js.or_else (assignedByName p) "someone" ++ ".")
         ("/tasks/" ++ Js.interp (taskId p)));
    (TASK_COMPLETED, fun p =>
       mkContent "Task completed"
         (quoted (Js.interp (taskTitle p)) ++ " was marked complete by "
            ++ Js.or_else (completedByName p) "someone" ++ ".")
         ("/tasks/" ++ Js.interp (taskId p)));
    (TASK_COMMENTED, fun p =>
       mkContent "New comment"
         (Js.or_else (authorName p) "Someone" ++ " commented on "
            ++ quoted (Js.interp (taskTitle p)) ++ ".")
         ("/tasks/" ++ Js.interp (taskId p) ++ "#comment-" ++ Js.interp (commentId p)));
    (TASK_DUE_SOON, fun p =>
       mkContent "Task due soon"
         (quoted (Js.interp (taskTitle p)) ++ " is due "
            ++ Js.or_else (dueIn p) "soon" ++ ".")
         ("/tasks/" ++ Js.interp (taskId p)));
    (TASK_OVERDUE, fun p =>
       mkContent "Task overdue"
         (quoted (Js.interp (taskTitle p)) ++ " is past its due date.")
         ("/tasks/" ++ Js.interp (taskId p)));
    (MENTION, fun p =>
       mkContent "You were mentioned"
         (Js.or_else (mentionedByName p) "Someone" ++ " mentioned you in "
            ++ quoted (Js.or_else (context p) "a task") ++ ".")
         (Js.or_else (p_link p) "#"));
    (COLLABORATOR_ADDED, fun p =>
       mkContent "Added as collaborator"
         ("You were added to " ++ quoted (Js.interp (taskTitle p)) ++ " by "
            ++ Js.or_else (addedByName p) "someone" ++ ".")
         ("/tasks/" ++ Js.interp (taskId p)));
    (SYSTEM, fun p =>
       mkContent (Js.or_else (p_title p) "System notification")
         (Js.or_else (p_body p) EmptyString)
         (Js.or_else (p_link p) "#")) ].

(** The own property [type] of [templates], if there is one. *)
Fixpoint template_for (type : string) (ts : list (string * (EventPayload -> Content)))
  : option (EventPayload -> Content) :=
  match ts with
  | [] => None
  | (k, f) :: rest => if k =? type then Some f else template_for type rest
  end.

(** [templates] is a plain object: for a [type] that is not one of its
    keys, [templates[type]] still finds what every object inherits
    from [Object.prototype].  Two of these members return when called
    as [template(payload)]: [constructor] is [Object], which gives the
    payload back, and [toString] gives the text ["[object Undefined]"].
    The others throw a [TypeError] when called without a receiver, and
    [__proto__] is not a function at all. *)
Definition throwing_members : list string :=
  [ "__proto__"; "hasOwnProperty"; "isPrototypeOf"; "propertyIsEnumerable";
    "toLocaleString"; "valueOf"; "__defineGetter__"; "__defineSetter__";
    "__lookupGetter__"; "__lookupSetter__" ].

(** All the names that [templates] inherits. *)
Definition inherited_members : list string :=
  "constructor" :: "toString" :: throwing_members.

(** What [...content] contributes to the record: the three fields of a
    template's result, or those of them that the content has. *)
Record Spread : Type := mkSpread {
  s_title : option string;
  s_body : option string;
  s_link : option string
}.

Definition spread (c : Content) : Spread :=
  mkSpread (Some (c_title c)) (Some (c_body c)) (Some (c_link c)).

(** *** The in-memory store *)

Module Db.

Record Store : Type := mkStore {
  memoryStore : list Notification;
  nextId : nat
}.

Definition _reset : Store := mkStore [] 1.

(** The argument of [create]. *)
Record Data : Type := mkData {
  d_userId : string;
  d_type : string;
  d_content : Spread;
  d_meta : EventPayload
}.

Definition create (data : Data) (now : Z) (st : Store) : Notification * Store :=
  let record :=
    mkNotification (Js.String_of_nat (nextId st)) (d_userId data) (d_type data)
      (s_title (d_content data)) (s_body (d_content data)) (s_link (d_content data))
      (d_meta data) false now None in
  (record, mkStore (memoryStore st ++ [record])%list (S (nextId st))).

Record FindOptions : Type := mkFindOptions {
  limit : option nat;
  offset : option nat;
  unreadOnly : option bool
}.

(** [None] is an option that the caller left out ([undefined]): the
    default parameters apply to it.  A caller that passes [null] is
    outside the model. *)
Definition no_options : FindOptions := mkFindOptions None None None.

(** The comparator [(a, b) => new Date(b.createdAt) - new Date(a.createdAt)]
    is negative, so [a] goes first, when [a] is the newer one. *)
Definition newer (a b : Notification) : bool := (n_createdAt b <? n_createdAt a)%Z.

Definition findByUser (userId : string) (opts : option FindOptions) (st : Store)
  : list Notification :=
  let o := Js.nullish opts no_options in
  let results := filter (fun n => n_userId n =? userId) (memoryStore st) in
  let results :=
    if Js.nullish (unreadOnly o) false
    then filter (fun n => negb (n_read n)) results else results in
  let results := Js.stable_sort newer results in
  Js.slice (Js.nullish (offset o) 0) (Js.nullish (limit o) 50) results.

Definition mark (n : Notification) (now : Z) : Notification :=
  mkNotification (n_id n) (n_userId n) (n_type n) (n_title n) (n_body n)
                 (n_link n) (n_meta n) true (n_createdAt n) (Some now).

(** The test of the [forEach] body in [markRead]. *)
Definition to_mark (ids : list string) (userId : string) (n : Notification) : bool :=
  Js.includes ids (n_id n) && (n_userId n =? userId) && negb (n_read n).

(** The [forEach] of [markRead] and [markAllRead]: the store after it
    and the counter. *)
Fixpoint mark_each (test : Notification -> bool) (now : Z) (ns : list Notification)
  : list Notification * nat :=
  match ns with
  | [] => ([], 0)
  | n :: rest =>
      let (rest', count) := mark_each test now rest in
      if test n then (mark n now :: rest', S count) else (n :: rest', count)
  end.

Definition markRead (ids : list string) (userId : string) (now : Z) (st : Store)
  : nat * Store :=
  let (ns, count) := mark_each (to_mark ids userId) now (memoryStore st) in
  (count, mkStore ns (nextId st)).

Definition markAllRead (userId : string) (now : Z) (st : Store) : nat * Store :=
  let (ns, count) :=
    mark_each (fun n => (n_userId n =? userId) && negb (n_read n)) now (memoryStore st) in
  (count, mkStore ns (nextId st)).

Definition countUnread (userId : string) (st : Store) : nat :=
  List.length (filter (fun n => (n_userId n =? userId) && negb (n_read n)) (memoryStore st)).

Definition deleteForUser (userId : string) (st : Store) : nat * Store :=
  let kept := filter (fun n => negb (n_userId n =? userId)) (memoryStore st) in
  (List.length (memoryStore st) - List.length kept, mkStore kept (nextId st)).

End Db.

(** *** The service *)

(** [db] is the in-memory store; [wsServer] is the real-time server
    that the service was constructed with, if any. *)
Record NotificationService : Type := mkNotificationService {
  db : Db.Store;
  wsServer : option Realtime.RealtimeServer
}.

(** [if (this.wsServer) this.wsServer.sendToUser(userId, message)] *)
Definition push (userId : string) (message : Message)
  (ws : option Realtime.RealtimeServer) : option Realtime.RealtimeServer :=
  match ws with
  | Some srv => Some (fst (Realtime.sendToUser userId message srv))
  | None => None
  end.

Section Service.

(** [JSON.stringify] on an event payload, used for the body of a
    notification whose type has no template. *)
Variable JSON_stringify : EventPayload -> string.

(** [template ? template(payload) : { title: type, body:
    JSON.stringify(payload), link: '#' }]; [None] when the call
    throws. *)
Definition content_for (type : string) (payload : EventPayload) : option Spread :=
  match template_for type templates with
  | Some template => Some (spread (template payload))
  | None =>
      if type =? "constructor"
      then Some (mkSpread (p_title payload) (p_body payload) (p_link payload))
      else if type =? "toString" then Some (mkSpread None None None)
      else if Js.includes throwing_members type then None
      else Some (spread (mkContent type (JSON_stringify payload) "#"))
  end.

(** The rest of [notify], once the content is there: the record is
    stored, then pushed. *)
Definition deliver (userId type : string) (content : Spread) (payload : EventPayload)
  (now : Z) (svc : NotificationService) : Notification * NotificationService :=
  let (notification, store) :=
    Db.create (Db.mkData userId type content payload) now (db svc) in
  (notification,
   mkNotificationService store (push userId (NotificationNew notification) (wsServer svc))).

(** [notify(userId, type, payload)]; the result is [None] when the
    promise is rejected, which happens before anything is stored. *)
Definition notify (userId type : string) (payload : EventPayload) (now : Z)
  (svc : NotificationService) : option Notification * NotificationService :=
  match content_for type payload with
  | Some content =>
      let (notification, svc') := deliver userId type content payload now svc in
      (Some notification, svc')
  | None => (None, svc)
  end.

(** [Promise.all(userIds.map(uid => this.notify(uid, type, payload)))]:
    every call is made, in order; the result is [None] when one of the
    promises is rejected. *)
Fixpoint notifyMany (userIds : list string) (type : string) (payload : EventPayload)
  (now : Z) (svc : NotificationService)
  : option (list Notification) * NotificationService :=
  match userIds with
  | [] => (Some [], svc)
  | uid :: rest =>
      let (n, svc1) := notify uid type payload now svc in
      let (ns, svc2) := notifyMany rest type payload now svc1 in
      (match n, ns with
       | Some n', Some ns' => Some (n' :: ns')
       | _, _ => None
       end, svc2)
  end.

Definition getForUser (userId : string) (opts : option Db.FindOptions)
  (svc : NotificationService) : list Notification :=
  Db.findByUser userId opts (db svc).

Definition unreadCount (userId : string) (svc : NotificationService) : nat :=
  Db.countUnread userId (db svc).

Definition markRead (userId : string) (ids : list string) (now : Z)
  (svc : NotificationService) : nat * NotificationService :=
  let (count, store) := Db.markRead ids userId now (db svc) in
  (count, mkNotificationService store (push userId (NotificationRead ids) (wsServer svc))).

Definition markAllRead (userId : string) (now : Z) (svc : NotificationService)
  : nat * NotificationService :=
  let (count, store) := Db.markAllRead userId now (db svc) in
  (count, mkNotificationService store (push userId NotificationAllRead (wsServer svc))).

Definition clearAll (userId : string) (svc : NotificationService)
  : nat * NotificationService :=
  let (count, store) := Db.deleteForUser userId (db svc) in
  (count, mkNotificationService store (wsServer svc)).

(** *** Listeners for domain events *)

(** [xs.forEach(uid => { if (keep uid) this.notify(uid, type, payload) })] *)
Definition notify_each (keep : string -> bool) (userIds : list string) (type : string)
  (payload : EventPayload) (now : Z) (svc : NotificationService) : NotificationService :=
  fold_left
    (fun acc uid => if keep uid then snd (notify uid type payload now acc) else acc)
    userIds svc.

Definition on_task_assigned (payload : EventPayload) (now : Z)
  (svc : NotificationService) : NotificationService :=
  if Js.truthy (assigneeId payload)
  then snd (notify (Js.interp (assigneeId payload)) TASK_ASSIGNED payload now svc)
  else svc.

Definition on_task_completed (payload : EventPayload) (now : Z)
  (svc : NotificationService) : NotificationService :=
  notify_each (fun _ => true) (Js.nullish (watcherIds payload) [])
              TASK_COMPLETED payload now svc.

(** [uid !== payload.authorId] *)
Definition not_author (payload : EventPayload) (uid : string) : bool :=
  match authorId payload with
  | Some a => negb (uid =? a)
  | None => true
  end.

Definition on_task_commented (payload : EventPayload) (now : Z)
  (svc : NotificationService) : NotificationService :=
  notify_each (not_author payload) (Js.nullish (subscriberIds payload) [])
              TASK_COMMENTED payload now svc.

Definition on_task_due_soon (payload : EventPayload) (now : Z)
  (svc : NotificationService) : NotificationService :=
  if Js.truthy (assigneeId payload)
  then snd (notify (Js.interp (assigneeId payload)) TASK_DUE_SOON payload now svc)
  else svc.

Definition on_mention (payload : EventPayload) (now : Z)
  (svc : NotificationService) : NotificationService :=
  if Js.truthy (mentionedUserId payload)
  then snd (notify (Js.interp (mentionedUserId payload)) MENTION payload now svc)
  else svc.

(** What [_registerEventListeners] attaches to each event name. *)
Definition listeners (event : string)
  : option (EventPayload -> Z -> NotificationService -> NotificationService) :=
  if event =? "task:assigned" then Some on_task_assigned
  else if event =? "task:completed" then Some on_task_completed
  else if event =? "task:commented" then Some on_task_commented
  else if event =? "task:due_soon" then Some on_task_due_soon
  else if event =? "mention" then Some on_mention
  else None.

(** *** The event bus *)

Record Envelope : Type := mkEnvelope {
  event : string;
  payload : EventPayload;
  timestamp : Z
}.

Definition _maxHistory : nat := 200.

(** The bus with the one service that listens on it. *)
Record System : Type := mkSystem {
  _history : list Envelope;
  service : NotificationService
}.

(** [emit(event, payload)]: the envelope goes into the bounded
    history, then the listeners of [event] run. *)
Definition emit (event : string) (payload : EventPayload) (now : Z) (sys : System)
  : System :=
  let h := (_history sys ++ [mkEnvelope event payload now])%list in
  let h := if (_maxHistory <? List.length h)%nat then tl h else h in
  mkSystem h
    (match listeners event with
     | Some listener => listener payload now (service sys)
     | None => service sys
     end).

(** [recentEvents(n)], that is [_history.slice(-n)]. *)
Definition recentEvents (n : nat) (sys : System) : list Envelope :=
  if (n =? 0)%nat then _history sys
  else skipn (List.length (_history sys) - n) (_history sys).

(** The real-time server's connection events, seen from the service
    that holds a reference to it. *)
Definition on_connection (ws : Realtime.Socket) (serverTime : Z)
  (svc : NotificationService) : NotificationService :=
  mkNotificationService (db svc)
    (option_map (Realtime.on_connection ws serverTime) (wsServer svc)).

Definition on_close (ws : Realtime.Socket) (svc : NotificationService)
  : NotificationService :=
  mkNotificationService (db svc) (option_map (Realtime.on_close ws) (wsServer svc)).

(** *** Sequences of calls *)

(** What the rest of the application does with the bus, the service
    and the real-time server it holds. *)
Inductive Call : Type :=
| Emit (event : string) (payload : EventPayload) (now : Z)
| Notify (userId type : string) (payload : EventPayload) (now : Z)
| NotifyMany (userIds : list string) (type : string) (payload : EventPayload) (now : Z)
| MarkRead (userId : string) (ids : list string) (now : Z)
| MarkAllRead (userId : string) (now : Z)
| ClearAll (userId : string)
| Connect (ws : Realtime.Socket) (serverTime : Z)
| Close (ws : Realtime.Socket).

Definition call (c : Call) (sys : System) : System :=
  match c with
  | Emit event payload now => emit event payload now sys
  | Notify userId type payload now =>
      mkSystem (_history sys) (snd (notify userId type payload now (service sys)))
  | NotifyMany userIds type payload now =>
      mkSystem (_history sys) (snd (notifyMany userIds type payload now (service sys)))
  | MarkRead userId ids now =>
      mkSystem (_history sys) (snd (markRead userId ids now (service sys)))
  | MarkAllRead userId now =>
      mkSystem (_history sys) (snd (markAllRead userId now (service sys)))
  | ClearAll userId => mkSystem (_history sys) (snd (clearAll userId (service sys)))
  | Connect ws serverTime =>
      mkSystem (_history sys) (on_connection ws serverTime (service sys))
  | Close ws => mkSystem (_history sys) (on_close ws (service sys))
  end.

Definition calls (cs : list Call) (sys : System) : System :=
  fold_left (fun acc c => call c acc) cs sys.

End Service.

End Notifications.

(** ** Agent 8's client hook (useNotifications.js) *)

Module Client.

Import Wire.

Definition WS_RECONNECT_BASE_MS : Z := 1000.
Definition WS_RECONNECT_MAX_MS : Z := 30000.

(** The hook's state and refs.  [token] is the prop of the current
    render; [reconnectTimer] holds the delay of the pending
    [setTimeout], if one is armed; [wsRef] says whether
    [wsRef.current] holds a socket. *)
Record Hook : Type := mkHook {
  token : option string;
  notifications : list Notification;
  unreadCount : Z;
  connected : bool;
  reconnectDelay : Z;
  reconnectTimer : option Z;
  wsRef : bool
}.

Definition initial (token : option string) : Hook :=
  mkHook token [] 0 false WS_RECONNECT_BASE_MS None false.

(** What the hook asks of its environment.  [FetchNotifications] is
    the request [GET /api/notifications?limit=50]. *)
Inductive Effect : Type :=
| FetchNotifications
| OpenSocket
| CloseSocket
| SetTimeout (ms : Z)
| ClearTimeout
| StartPing
| StopPing.

(** The body of [GET /api/notifications]. *)
Record FetchData : Type := mkFetchData {
  data_notifications : option (list Notification);
  data_unreadCount : option Z
}.

(** What happens to the hook while its props stay the same. *)
Inductive Event : Type :=
| Mounted
| Unmounted
| FetchResponse (ok : bool) (data : FetchData)
| FetchFailed
| SocketOpen
| SocketMessage (msg : option Message)
| SocketClose
| SocketError
| TimerFired.

Definition mark_read (n : Notification) : Notification :=
  mkNotification (n_id n) (n_userId n) (n_type n) (n_title n) (n_body n)
                 (n_link n) (n_meta n) true (n_createdAt n) (n_readAt n).

(** [connectWs()]: without a token nothing happens; otherwise a socket
    is created and kept in [wsRef]. *)
Definition connectWs (h : Hook) : Hook * list Effect :=
  if Js.truthy (token h)
  then (mkHook (token h) (notifications h) (unreadCount h) (connected h)
               (reconnectDelay h) (reconnectTimer h) true,
        [OpenSocket])
  else (h, []).

(** [ws.onmessage]; [None] is a frame that is not JSON. *)
Definition onmessage (msg : option Message) (h : Hook) : Hook :=
  match msg with
  | Some (NotificationNew n) =>
      mkHook (token h) (n :: notifications h) (unreadCount h + 1)
             (connected h) (reconnectDelay h) (reconnectTimer h) (wsRef h)
  | Some (NotificationRead ids) =>
      mkHook (token h)
             (map (fun n => if Js.includes ids (n_id n) then mark_read n else n)
                  (notifications h))
             (Z.max 0 (unreadCount h - Z.of_nat (List.length ids)))
             (connected h) (reconnectDelay h) (reconnectTimer h) (wsRef h)
  | Some NotificationAllRead =>
      mkHook (token h) (map mark_read (notifications h)) 0
             (connected h) (reconnectDelay h) (reconnectTimer h) (wsRef h)
  | _ => h
  end.

(** [Mounted] is the effect, which first calls [fetchNotifications()],
    then [connectWs()], then starts the ping; [Unmounted] is its
    cleanup, where [wsRef.current?.close()] closes a socket only if
    there is one. *)
Definition step (h : Hook) (e : Event) : Hook * list Effect :=
  match e with
  | Mounted =>
      let (h', opened) := connectWs h in
      (h', FetchNotifications :: opened ++ [StartPing])%list
  | Unmounted =>
      (mkHook (token h) (notifications h) (unreadCount h) (connected h)
              (reconnectDelay h) None (wsRef h),
       [StopPing; ClearTimeout] ++ (if wsRef h then [CloseSocket] else []))%list
  | FetchResponse ok data =>
      if ok then
        (mkHook (token h) (Js.nullish (data_notifications data) [])
                (Js.nullish (data_unreadCount data) 0%Z)
                (connected h) (reconnectDelay h) (reconnectTimer h) (wsRef h), [])
      else (h, [])
  | FetchFailed => (h, [])
  | SocketOpen =>
      (mkHook (token h) (notifications h) (unreadCount h) true
              WS_RECONNECT_BASE_MS (reconnectTimer h) (wsRef h), [])
  | SocketMessage msg => (onmessage msg h, [])
  | SocketClose =>
      (mkHook (token h) (notifications h) (unreadCount h) false
              (reconnectDelay h) (Some (reconnectDelay h)) (wsRef h),
       [SetTimeout (reconnectDelay h)])
  | SocketError => (h, [CloseSocket])
  | TimerFired =>
      connectWs
        (mkHook (token h) (notifications h) (unreadCount h) (connected h)
                (Z.min (reconnectDelay h * 2) WS_RECONNECT_MAX_MS) None (wsRef h))
  end.

(** The hook after a sequence of events, with everything it asked for
    on the way, in order. *)
Fixpoint run (h : Hook) (events : list Event) : Hook * list Effect :=
  match events with
  | [] => (h, [])
  | e :: rest =>
      let (h1, effects1) := step h e in
      let (h2, effects2) := run h1 rest in
      (h2, (effects1 ++ effects2)%list)
  end.

Definition is_fetch (e : Effect) : bool :=
  match e with FetchNotifications => true | _ => false end.

(** *** New props and calls from outside

    [PropsChanged token'] is a render in which [token] or [wsUrl]
    differs from the render before, [token'] being the token of the new
    render: [fetchNotifications] or [connectWs] is a new callback, so
    React runs the cleanup of the effect and then the effect.  The
    timer that [ws.onclose] arms calls the [connectWs] of the render in
    which its socket was created: [StaleTimerFired token0] is such a
    timer firing after the props have changed, [token0] being the
    token of that earlier render.  [Refresh] is a call of the
    [refresh] that the hook returns. *)
Inductive Change : Type :=
| During (e : Event)
| PropsChanged (token' : option string)
| StaleTimerFired (token0 : option string)
| Refresh.

Definition with_token (h : Hook) (t : option string) : Hook :=
  mkHook t (notifications h) (unreadCount h) (connected h)
         (reconnectDelay h) (reconnectTimer h) (wsRef h).

Definition change (h : Hook) (c : Change) : Hook * list Effect :=
  match c with
  | During e => step h e
  | PropsChanged token' =>
      let (h1, cleanup) := step h Unmounted in
      let (h2, effect) := step (with_token h1 token') Mounted in
      (h2, (cleanup ++ effect)%list)
  | StaleTimerFired token0 =>
      let (h1, opened) := step (with_token h token0) TimerFired in
      (with_token h1 (token h), opened)
  | Refresh => (h, [FetchNotifications])
  end.

Fixpoint changes (h : Hook) (cs : list Change) : Hook * list Effect :=
  match cs with
  | [] => (h, [])
  | c :: rest =>
      let (h1, effects1) := change h c in
      let (h2, effects2) := changes h1 rest in
      (h2, (effects1 ++ effects2)%list)
  end.

End Client.

(** * Example data and auxiliary definitions *)

(** The payload of an assignment in which the assigner and the assignee
    are the same user. *)
Definition self_assignment : Wire.EventPayload :=
  Wire.mkEventPayload (Some "task-42") (Some "Write unit tests")
    (Some "user-alice") (Some "user-alice") (Some "Alice")
    None None None None None None None None None None None None None None.

Definition fresh_system : Notifications.System :=
  Notifications.mkSystem []
    (Notifications.mkNotificationService Notifications.Db._reset None).

(** What a completed delivery loop does to one socket of the unified
    server: an open socket gets the frame. *)
Definition delivered (msg : Server.Frame) (ws : Server.Socket) : Server.Socket :=
  if (Ws.ws_readyState ws =? 1)%nat then Ws.push_frame ws msg else ws.

(** What [RealtimeServer]'s loop does to one socket: an open socket
    whose write succeeds gets the message. *)
Definition delivered_rt (msg : Wire.Message) (ws : Realtime.Socket) : Realtime.Socket :=
  if (Ws.ws_readyState ws =? Ws.OPEN)%nat
  then (if Ws.ws_throws ws then ws else Ws.push_frame ws msg)
  else ws.


(** A registry with two sessions of Alice and one of Bob, in the
    unified server and in [RealtimeServer]. *)
Definition moved_frame : Server.Frame :=
  Server.mkFrame "task:deleted" (Server.PDeleted "t1" "b1") "2024-01-01T00:00:00.000Z".

Definition alice_tab1 : Server.Socket := Ws.mkWebSocket 1 "alice" "Alice" 1 false [].
Definition alice_tab2 : Server.Socket := Ws.mkWebSocket 2 "alice" "Alice" 1 false [].
Definition bob_tab : Server.Socket := Ws.mkWebSocket 3 "bob" "Bob" 1 false [].

Definition two_users : Server.Clients :=
  [("alice", [alice_tab1; alice_tab2]); ("bob", [bob_tab])].

(** The same registry of the unified server with Carol behind Bob, when
    Bob's socket is open but fails on write. *)
Definition bob_broken_tab : Server.Socket := Ws.mkWebSocket 3 "bob" "Bob" 1 true [].
Definition carol_tab : Server.Socket := Ws.mkWebSocket 4 "carol" "Carol" 1 false [].

Definition three_users : Server.Clients :=
  [("alice", [alice_tab1; alice_tab2]); ("bob", [bob_broken_tab]); ("carol", [carol_tab])].

(** A [RealtimeServer] whose only socket is open but fails on write. *)
Definition broken_socket : Realtime.Socket :=
  Ws.mkWebSocket 7 "carol" "Carol" Ws.OPEN true [].

Definition server_with_broken_socket : Realtime.RealtimeServer :=
  Realtime.mkRealtimeServer [("carol", [broken_socket])] [].

(** A service wired to a real-time server on which nobody is
    connected, and the socket with which Alice connects later. *)
Definition idle_server : Realtime.RealtimeServer := Realtime.mkRealtimeServer [] [].

Definition alice_socket : Realtime.Socket :=
  Ws.mkWebSocket 1 "user-alice" "Alice" Ws.OPEN false [].

(** A [RealtimeServer] with Alice's socket and Carol's failing one. *)
Definition server_with_two_sockets : Realtime.RealtimeServer :=
  Realtime.mkRealtimeServer
    [("user-alice", [alice_socket]); ("carol", [broken_socket])] [].

(** The schema's primary key on [tasks]. *)
Definition primary_key (db : Server.Database) : Prop :=
  NoDup (map Server.task_id (Server.tasks db)).

(** No two tasks of a column have the same position. *)
Definition positions_distinct (db : Server.Database) : Prop :=
  forall c,
    NoDup (map Server.task_position
               (filter (fun t => Server.task_column_id t =? c) (Server.tasks db))).

(** The same, stated on pairs of rows. *)
Definition unique_slots (db : Server.Database) : Prop :=
  forall x y,
    In x (Server.tasks db) -> In y (Server.tasks db) ->
    Server.task_column_id x = Server.task_column_id y ->
    Server.task_position x = Server.task_position y ->
    Server.task_id x = Server.task_id y.

(** Every stored position is an integer of magnitude at most [bound]. *)
Definition positions_within (bound : Z) (db : Server.Database) : Prop :=
  forall t, In t (Server.tasks db) -> (Z.abs (Server.task_position t) <= bound)%Z.

(** A move that asks for an integer index of magnitude at most
    [bound]; creates and deletes carry no index. *)
Definition index_within (bound : Z) (op : Server.Op) : Prop :=
  match op with
  | Server.Move _ _ _ body _ =>
      match Server.mb_position body with
      | Some p => (Z.abs p <= bound)%Z
      | None => True
      end
  | _ => True
  end.

(** A position on which SQL's [+ 1] adds one: a 64-bit integer
    strictly between the smallest and the largest. *)
Definition shiftable (p : Z) : Prop := (- 2 ^ 63 < p < 2 ^ 63 - 1)%Z.

(** The largest integer up to which every integer is a JavaScript
    number: [Number.MAX_SAFE_INTEGER + 1]. *)
Definition exact_range : Z := (2 ^ 53)%Z.

(** Alice's board: column "todo" holds A, B, C at positions 0, 1, 2 and
    column "done" holds D at position 0. *)
Definition card (id column : string) (position : Z) : Server.Task :=
  Server.mkTask id column "b1" id EmptyString None "none" [] position None
                "2024-01-01 00:00:00" "2024-01-01 00:00:00".

Definition todo_board : Server.State :=
  Server.mkState
    (Server.mkDatabase
       [Server.mkBoard "b1" "Sprint" EmptyString "alice"
                       "2024-01-01 00:00:00" "2024-01-01 00:00:00"]
       [Server.mkColumn "todo" "b1" "Todo" 0 "#6366f1"
                        "2024-01-01 00:00:00" "2024-01-01 00:00:00";
        Server.mkColumn "done" "b1" "Done" 1 "#6366f1"
                        "2024-01-01 00:00:00" "2024-01-01 00:00:00"]
       [card "A" "todo" 0; card "B" "todo" 1; card "C" "todo" 2; card "D" "done" 0])
    two_users.

Definition later : Server.Env :=
  Server.mkEnv "E" "2024-01-02 00:00:00" "2024-01-02T00:00:00.000Z".

(** A create, two moves and a delete on Alice's board. *)
Definition busy_day : list Server.Op :=
  [ Server.Move "alice" "b1" "C" (Server.mkMoveBody (Some "todo") (Some 0%Z)) later;
    Server.Create "alice" "b1"
      (Server.mkCreateBody (Some "E") None (Some "todo") None None None) later;
    Server.Delete "alice" "b1" "A" later;
    Server.Move "alice" "b1" "B" (Server.mkMoveBody (Some "done") None) later ].

(** A request to move a task to index 10^19 of column "todo". *)
Definition far_away : Server.MoveBody :=
  Server.mkMoveBody (Some "todo") (Some 10000000000000000000%Z).

(** A move of A to index 2^53 of column "todo", followed by the
    creation of a task in that column. *)
Definition at_the_limit : Server.MoveBody :=
  Server.mkMoveBody (Some "todo") (Some 9007199254740992%Z).

Definition new_card : Server.CreateBody :=
  Server.mkCreateBody (Some "E") None (Some "todo") None None None.

Definition move_then_create : list Server.Op :=
  [ Server.Move "alice" "b1" "A" at_the_limit later;
    Server.Create "alice" "b1" new_card later ].

(** A reconnection of Alice's client.  The hook mounts, gets an empty
    first page and connects; the socket closes; while it is closed the
    server stores [missed]; the hook reconnects and is then pushed
    [pushed]. *)
Definition alice_second_socket : Realtime.Socket :=
  Ws.mkWebSocket 2 "user-alice" "Alice" Ws.OPEN false [].

Definition server_before_reconnect : Notifications.NotificationService :=
  Notifications.on_close alice_socket
    (Notifications.on_connection alice_socket 1000
       (Notifications.mkNotificationService Notifications.Db._reset (Some idle_server))).

Definition missed : Wire.Notification :=
  Wire.mkNotification "1" "user-alice" "task:due_soon" (Some "Task due soon")
    (Some (Notifications.quoted "Write unit tests" ++ " is due soon."))
    (Some "/tasks/task-42") self_assignment false 2000 None.

Definition server_after_reconnect : Notifications.NotificationService :=
  Notifications.on_connection alice_second_socket 3000
    (snd (Notifications.notify (fun _ => "{}") "user-alice" Notifications.TASK_DUE_SOON
            self_assignment 2000 server_before_reconnect)).

Definition pushed : Wire.Notification :=
  Wire.mkNotification "2" "user-alice" "task:overdue" (Some "Task overdue")
    (Some (Notifications.quoted "Write unit tests" ++ " is past its due date."))
    (Some "/tasks/task-42") self_assignment false 4000 None.

Definition server_at_the_end : Notifications.NotificationService :=
  snd (Notifications.notify (fun _ => "{}") "user-alice" Notifications.TASK_OVERDUE
         self_assignment 4000 server_after_reconnect).

Definition reconnection : list Client.Event :=
  [ Client.Mounted;
    Client.FetchResponse true (Client.mkFetchData (Some []) (Some 0%Z));
    Client.SocketOpen;
    Client.SocketClose;
    Client.TimerFired;
    Client.SocketOpen;
    Client.SocketMessage (Some (Wire.NotificationNew pushed)) ].

Definition is_mount (e : Client.Event) : bool :=
  match e with Client.Mounted => true | _ => false end.

(** The changes that call [fetchNotifications]: a run of the effect (on
    mount or after new props) and a call of [refresh]. *)
Definition calls_fetch (c : Client.Change) : bool :=
  match c with
  | Client.During e => is_mount e
  | Client.PropsChanged _ => true
  | Client.StaleTimerFired _ => false
  | Client.Refresh => true
  end.



(** A comment by Bob on a task that Alice, Bob and Charlie subscribe
    to. *)
Definition bobs_comment : Wire.EventPayload :=
  Wire.mkEventPayload (Some "task-42") (Some "Write unit tests") None None None None
    None (Some "user-bob") (Some "Bob") (Some "comment-1")
    (Some ["user-alice"; "user-bob"; "user-charlie"])
    None None None None None None None None.

(** A notification as [notify] creates it. *)
Definition stamped (type : string) (p : Wire.EventPayload) (now : Z)
  (n : Wire.Notification) : Prop :=
  Wire.n_type n = type /\ Wire.n_meta n = p /\ Wire.n_read n = false
  /\ Wire.n_createdAt n = now /\ Wire.n_readAt n = None.

(** A registry as the connection listeners keep it: one entry per
    user, no user with an empty set of sockets, no socket twice in a
    set, every socket under the user it was authenticated as. *)
Definition entry_ok (e : string * list Realtime.Socket) : Prop :=
  snd e <> []
  /\ NoDup (map Ws.ws_id (snd e))
  /\ Forall (fun w => Ws.ws_userId w = fst e) (snd e).

Definition registry_ok (cl : Ws.Registry Wire.Message) : Prop :=
  NoDup (map fst cl) /\ Forall entry_ok cl.

Definition is_open (ws : Realtime.Socket) : bool :=
  (Ws.ws_readyState ws =? Ws.OPEN)%nat.

Definition excluded (ex : option string) (e : string * list Realtime.Socket) : bool :=
  match ex with Some u => fst e =? u | None => false end.

(** A request either changes nothing, or rewrites the tables and
    broadcasts one frame that excludes its sender. *)
Definition rejected (s : Server.State) (r : Server.State * Server.Response) : Prop :=
  fst r = s
  /\ (Server.res_status (snd r) = 400%Z \/ Server.res_status (snd r) = 404%Z
      \/ Server.res_status (snd r) = 500%Z).

Definition carried_out (user : string) (ok : Z) (s : Server.State)
  (r : Server.State * Server.Response) : Prop :=
  (exists frame,
      Server.clients (fst r) = fst (Server.broadcast_loop user frame (Server.clients s)))
  /\ (Server.res_status (snd r) = ok \/ Server.res_status (snd r) = 500%Z).

(** Every task sits in a column that exists. *)
Definition columns_exist (db : Server.Database) : Prop :=
  forall t, In t (Server.tasks db) ->
            exists c, In c (Server.columns db)
                      /\ Server.column_id c = Server.task_column_id t.

(** A column deletion on Alice's board, between task requests. *)
Definition spring_cleaning : list Server.Request :=
  [ Server.OnTask
      (Server.Move "alice" "b1" "A" (Server.mkMoveBody (Some "done") (Some 0%Z)) later);
    Server.DeleteColumn "alice" "b1" "todo" later;
    Server.OnTask
      (Server.Create "alice" "b1"
         (Server.mkCreateBody (Some "E") None None None None None) later);
    Server.OnTask (Server.Delete "alice" "b1" "D" later) ].

(** A key in which no underscore is followed by a lower-case letter. *)
Fixpoint no_snake (k : string) : bool :=
  match k with
  | EmptyString => true
  | String a rest =>
      match rest with
      | String c _ => negb ((a =? "_")%char && Server.is_lower c) && no_snake rest
      | EmptyString => true
      end
  end.

(** The delays of the reconnection timers among the effects. *)
Definition timeouts (effects : list Client.Effect) : list Z :=
  flat_map (fun e => match e with Client.SetTimeout ms => [ms] | _ => [] end) effects.

Definition is_open_socket (e : Client.Effect) : bool :=
  match e with Client.OpenSocket => true | _ => false end.

(** A fetch response whose unread count, if it has one, is not negative. *)
Definition count_not_negative (e : Client.Event) : Prop :=
  match e with
  | Client.FetchResponse _ data =>
      match Client.data_unreadCount data with
      | Some c => (0 <= c)%Z
      | None => True
      end
  | _ => True
  end.

(** [n] failed connection attempts in a row: the socket closes and the
    reconnection timer fires, [n] times. *)
Fixpoint failed_attempts (n : nat) : list Client.Event :=
  match n with
  | O => []
  | S n' => Client.SocketClose :: Client.TimerFired :: failed_attempts n'
  end.
(** * Properties *)

(** ** Sorting and slicing *)

Section SortFacts.
Context {A : Type} (before : A -> A -> bool).

Lemma insert_sorted_perm (x : A) (l : list A) :
  Permutation (x :: l) (Js.insert_sorted before x l).
Proof.
  induction l as [| y l IH]; simpl.
  - apply Permutation_refl.
  - destruct (before y x).
    + eapply perm_trans; [apply perm_swap |].
      now apply perm_skip.
    + apply Permutation_refl.
Qed.

Lemma stable_sort_perm (l : list A) : Permutation l (Js.stable_sort before l).
Proof.
  induction l as [| x l IH]; simpl.
  - constructor.
  - eapply perm_trans; [apply perm_skip, IH |].
    apply insert_sorted_perm.
Qed.

Lemma stable_sort_In (x : A) (l : list A) :
  In x (Js.stable_sort before l) <-> In x l.
Proof.
  split; intro H.
  - eapply Permutation_in; [apply Permutation_sym, stable_sort_perm | exact H].
  - eapply Permutation_in; [apply stable_sort_perm | exact H].
Qed.


End SortFacts.


(** ** The notification store *)

Section NotificationFacts.

Import Wire Notifications.

Variable JSON_stringify : EventPayload -> string.

Lemma mark_each_length test now ns :
  List.length (fst (Db.mark_each test now ns)) = List.length ns.
Proof.
  induction ns as [| n ns IH]; simpl; [reflexivity |].
  destruct (Db.mark_each test now ns) as [rest count]; simpl in *.
  destruct (test n); simpl; now rewrite IH.
Qed.

Lemma mark_each_pointwise (test : Notification -> bool) now ns :
  Forall2 (fun n n' : Notification => n' = if test n then Db.mark n now else n)
          ns (fst (Db.mark_each test now ns)).
Proof.
  induction ns as [| n ns IH]; simpl; [constructor |].
  destruct (Db.mark_each test now ns) as [rest count]; simpl in *.
  destruct (test n) eqn:E; simpl; constructor; auto; now rewrite E.
Qed.

Lemma mark_each_count test now ns :
  snd (Db.mark_each test now ns) = List.length (filter test ns).
Proof.
  induction ns as [| n ns IH]; simpl; [reflexivity |].
  destruct (Db.mark_each test now ns) as [rest count]; simpl in *.
  destruct (test n); simpl; now rewrite IH.
Qed.

Lemma includes_In (xs : list string) (x : string) :
  Js.includes xs x = true <-> In x xs.
Proof.
  unfold Js.includes. rewrite existsb_exists. split.
  - intros [y [Hy E]]. apply String.eqb_eq in E. now subst.
  - intro H. exists x. split; [exact H | apply String.eqb_refl].
Qed.

Lemma to_mark_spec ids u n :
  Db.to_mark ids u n = true <->
  n_userId n = u /\ n_read n = false /\ In (n_id n) ids.
Proof.
  unfold Db.to_mark. rewrite !andb_true_iff, includes_In, String.eqb_eq, negb_true_iff.
  tauto.
Qed.

Lemma mark_each_flips (test : Notification -> bool) now ns :
  (forall n, test n = true -> n_read n = false) ->
  snd (Db.mark_each test now ns) =
  List.length
    (filter (fun p : Notification * Notification => negb (n_read (fst p)) && n_read (snd p))
            (combine ns (fst (Db.mark_each test now ns)))).
Proof.
  intro Hunread.
  induction ns as [| n ns IH]; simpl; [reflexivity |].
  destruct (Db.mark_each test now ns) as [rest count]; simpl in *.
  destruct (test n) eqn:E; simpl.
  - rewrite (Hunread n E). simpl. now rewrite IH.
  - destruct (n_read n); simpl; exact IH.
Qed.

(** C10. [markRead(u, ids)] marks exactly the notifications of [u] that
    were unread and whose id is in [ids]: each of them becomes read
    (with [readAt] set) and keeps every other field; every other
    notification, whoever it belongs to and whether or not its id is
    listed, is left as it was; the returned count is the number of
    notifications whose flag went from unread to read. *)
Theorem markRead_touches_only_own_unread
  (u : string) (ids : list string) (now : Z) (svc : NotificationService) :
  let before := Db.memoryStore (db svc) in
  let after := Db.memoryStore (db (snd (markRead u ids now svc))) in
  Forall2
    (fun n n' : Notification =>
       (n_userId n = u /\ n_read n = false /\ In (n_id n) ids ->
        n' = mkNotification (n_id n) (n_userId n) (n_type n) (n_title n) (n_body n)
                            (n_link n) (n_meta n) true (n_createdAt n) (Some now))
       /\ (~ (n_userId n = u /\ n_read n = false /\ In (n_id n) ids) -> n' = n))
    before after
  /\ fst (markRead u ids now svc) =
     List.length
       (filter (fun p : Notification * Notification =>
                  negb (n_read (fst p)) && n_read (snd p))
               (combine before after)).
Proof.
  unfold markRead, Db.markRead.
  pose proof (mark_each_pointwise (Db.to_mark ids u) now (Db.memoryStore (db svc))) as Hpt.
  pose proof (mark_each_flips (Db.to_mark ids u) now (Db.memoryStore (db svc))) as Hcnt.
  destruct (Db.mark_each (Db.to_mark ids u) now (Db.memoryStore (db svc)))
    as [ns count] eqn:E.
  simpl in *. split.
  - eapply Forall2_impl; [| exact Hpt].
    intros n n' Hn. simpl in Hn. split; intro H.
    + apply to_mark_spec in H. rewrite H in Hn. exact Hn.
    + destruct (Db.to_mark ids u n) eqn:T; [| exact Hn].
      apply to_mark_spec in T. contradiction.
  - apply Hcnt. intros n T. apply to_mark_spec in T. tauto.
Qed.

Lemma registry_get_set {F : Type} (uid : string) (v : list (Ws.WebSocket F))
  (m : Ws.Registry F) : Ws.get uid (Ws.set uid v m) = Some v.
Proof.
  induction m as [| [k v0] m IH]; simpl.
  - now rewrite String.eqb_refl.
  - destruct (k =? uid) eqn:E; simpl; rewrite E; [reflexivity | exact IH].
Qed.


(** For a type that is not an inherited name, the content is the
    template's, or the fallback: a title, a body and a link. *)
Lemma content_for_defined (type : string) (payload : EventPayload) :
  Js.includes inherited_members type = false ->
  exists content, content_for JSON_stringify type payload = Some (spread content).
Proof.
  intro H. unfold inherited_members, Js.includes in H. cbn [existsb] in H.
  apply orb_false_iff in H. destruct H as [Hc H].
  apply orb_false_iff in H. destruct H as [Ht H].
  unfold content_for.
  destruct (template_for type templates) as [f |]; [eexists; reflexivity |].
  rewrite Hc, Ht. unfold Js.includes. rewrite H. eexists; reflexivity.
Qed.


End NotificationFacts.

Section ListenerFacts.

Import Wire Notifications.

Variable JSON_stringify : EventPayload -> string.

Lemma notify_appends userId type payload now svc content :
  content_for JSON_stringify type payload = Some content ->
  exists n,
    fst (notify JSON_stringify userId type payload now svc) = Some n
    /\ Db.memoryStore (db (snd (notify JSON_stringify userId type payload now svc)))
       = (Db.memoryStore (db svc) ++ [n])%list
    /\ n_userId n = userId.
Proof.
  intro H. unfold notify. rewrite H. unfold deliver. simpl.
  eexists. repeat split.
Qed.

(** A [forEach] over candidate recipients stores one notification for
    each candidate that passes the test, in order, and nothing else. *)
Lemma notify_each_recipients keep userIds type payload now svc content :
  content_for JSON_stringify type payload = Some content ->
  exists added,
    Db.memoryStore (db (notify_each JSON_stringify keep userIds type payload now svc)) =
    (Db.memoryStore (db svc) ++ added)%list
    /\ map n_userId added = filter keep userIds.
Proof.
  intro Hcontent. unfold notify_each. revert svc.
  induction userIds as [| uid rest IH]; intro svc.
  - exists []. simpl. now rewrite app_nil_r.
  - cbn [fold_left filter]. destruct (keep uid) eqn:K.
    + destruct (IH (snd (notify JSON_stringify uid type payload now svc)))
        as [added [Hstore Hids]].
      destruct (notify_appends uid type payload now svc content Hcontent)
        as [n [_ [Happ Huid]]].
      exists (n :: added).
      split.
      * rewrite Hstore, Happ, <- app_assoc. reflexivity.
      * cbn [map]. now rewrite Huid, Hids.
    + exact (IH svc).
Qed.

(** The comment listener leaves the author out. *)
Lemma commented_skips_author payload now svc a :
  authorId payload = Some a ->
  exists added,
    Db.memoryStore (db (on_task_commented JSON_stringify payload now svc)) =
    (Db.memoryStore (db svc) ++ added)%list
    /\ ~ In a (map n_userId added).
Proof.
  intro Ha. unfold on_task_commented.
  destruct (notify_each_recipients (not_author payload)
              (Js.nullish (subscriberIds payload) []) TASK_COMMENTED payload now svc
              _ eq_refl)
    as [added [Hstore Hids]].
  exists added. split; [exact Hstore |].
  rewrite Hids. intro Hin. apply filter_In in Hin. destruct Hin as [_ Hkeep].
  unfold not_author in Hkeep. rewrite Ha, String.eqb_refl in Hkeep. discriminate.
Qed.

(** The completion listener notifies every watcher. *)
Lemma completed_notifies_every_watcher payload now svc :
  exists added,
    Db.memoryStore (db (on_task_completed JSON_stringify payload now svc)) =
    (Db.memoryStore (db svc) ++ added)%list
    /\ map n_userId added = Js.nullish (watcherIds payload) [].
Proof.
  unfold on_task_completed.
  destruct (notify_each_recipients (fun _ => true)
              (Js.nullish (watcherIds payload) []) TASK_COMPLETED payload now svc
              _ eq_refl)
    as [added [Hstore Hids]].
  exists added. split; [exact Hstore |].
  rewrite Hids. clear. induction (Js.nullish (watcherIds payload) []); simpl; congruence.
Qed.

End ListenerFacts.

(** C3. The listener for [task:assigned] does not compare the assignee
    with the assigning user: when Alice assigns a task to herself, the
    event stores a notification addressed to Alice. *)
Theorem self_assignment_notifies_the_actor :
  map (fun n => (Wire.n_userId n, Wire.n_type n, Wire.n_title n))
      (Notifications.getForUser "user-alice" None
         (Notifications.service
            (Notifications.emit (fun _ => "{}") "task:assigned" self_assignment 1000
                                fresh_system)))
  = [("user-alice", "task:assigned", Some "New task assigned")].
Proof. reflexivity. Qed.

(** ** Fan-out over the registry *)

Section FanOutFacts.

Lemma send_each_completed msg socks :
  snd (Server.send_each msg socks) = false ->
  fst (Server.send_each msg socks) = map (delivered msg) socks.
Proof.
  induction socks as [| ws rest IH]; simpl; [reflexivity |].
  unfold delivered at 1. unfold Ws.send.
  destruct (Ws.ws_readyState ws =? 1)%nat.
  - destruct (Ws.ws_throws ws); simpl; [discriminate |].
    destruct (Server.send_each msg rest) as [rest' threw]; simpl in *.
    intro H. now rewrite (IH H).
  - destruct (Server.send_each msg rest) as [rest' threw]; simpl in *.
    intro H. now rewrite (IH H).
Qed.

Lemma send_each_ids msg socks :
  map Ws.ws_id (fst (Server.send_each msg socks)) = map Ws.ws_id socks.
Proof.
  induction socks as [| ws rest IH]; simpl; [reflexivity |].
  unfold Ws.send.
  destruct (Ws.ws_readyState ws =? 1)%nat.
  - destruct (Ws.ws_throws ws); simpl; [reflexivity |].
    destruct (Server.send_each msg rest) as [rest' threw]; simpl in *.
    now rewrite IH.
  - destruct (Server.send_each msg rest) as [rest' threw]; simpl in *.
    now rewrite IH.
Qed.

Lemma broadcast_loop_entry ex msg cl :
  forall i u socks,
    nth_error cl i = Some (u, socks) ->
    exists socks',
      nth_error (fst (Server.broadcast_loop ex msg cl)) i = Some (u, socks')
      /\ (u = ex -> socks' = socks)
      /\ (u <> ex -> snd (Server.broadcast_loop ex msg cl) = false ->
          socks' = map (delivered msg) socks).
Proof.
  induction cl as [| [k v] rest IH]; intros i u socks Hi.
  - destruct i; discriminate.
  - simpl. destruct (k =? ex) eqn:E.
    + destruct (Server.broadcast_loop ex msg rest) as [rest' threw] eqn:R.
      destruct i as [| i]; simpl in *.
      * injection Hi as -> ->. exists socks. apply String.eqb_eq in E.
        repeat split; auto. intros Hne; contradiction.
      * destruct (IH i u socks Hi) as [socks' H]. exists socks'. exact H.
    + pose proof (send_each_completed msg v) as Hv.
      destruct (Server.send_each msg v) as [v' threw] eqn:S. simpl in Hv.
      apply String.eqb_neq in E.
      destruct threw.
      * destruct i as [| i]; simpl in *.
        -- injection Hi as -> ->. exists v'.
           repeat split; auto; intros; try contradiction; discriminate.
        -- exists socks. repeat split; auto. intros; discriminate.
      * destruct (Server.broadcast_loop ex msg rest) as [rest' threw'] eqn:R.
        destruct i as [| i]; simpl in *.
        -- injection Hi as -> ->. exists v'.
           repeat split; auto. intros; contradiction.
        -- destruct (IH i u socks Hi) as [socks' H]. exists socks'. exact H.
Qed.

Lemma send_open_sockets msg socks log :
  fst (fst (Realtime.send_open msg socks log)) = map (delivered_rt msg) socks.
Proof.
  revert log. induction socks as [| ws rest IH]; intro log; simpl; [reflexivity |].
  unfold delivered_rt at 1. unfold Realtime._send, Ws.send.
  destruct (Ws.ws_readyState ws =? Ws.OPEN)%nat.
  - destruct (Ws.ws_throws ws).
    + specialize (IH (log ++ ["[WS] Send error"])%list).
      destruct (Realtime.send_open msg rest _) as [[rest' log2] sent].
      simpl in *. now rewrite IH.
    + specialize (IH log).
      destruct (Realtime.send_open msg rest _) as [[rest' log2] sent].
      simpl in *. now rewrite IH.
  - specialize (IH log).
    destruct (Realtime.send_open msg rest _) as [[rest' log2] sent].
    simpl in *. now rewrite IH.
Qed.

Lemma rt_broadcast_loop_entry msg ex cl :
  forall log i u socks,
    nth_error cl i = Some (u, socks) ->
    exists socks',
      nth_error (fst (fst (Realtime.broadcast_loop msg ex cl log))) i = Some (u, socks')
      /\ (ex = Some u -> socks' = socks)
      /\ (ex <> Some u -> socks' = map (delivered_rt msg) socks).
Proof.
  induction cl as [| [k v] rest IH]; intros log i u socks Hi.
  - destruct i; discriminate.
  - simpl.
    destruct (match ex with Some ex0 => k =? ex0 | None => false end) eqn:E.
    + specialize (IH log).
      destruct (Realtime.broadcast_loop msg ex rest log) as [[rest' log'] sent].
      destruct i as [| i]; simpl in *.
      * injection Hi as -> ->. exists socks. repeat split; auto.
        intro Hne. destruct ex as [ex0 |]; [| discriminate].
        apply String.eqb_eq in E. subst. contradiction.
      * exact (IH i u socks Hi).
    + pose proof (send_open_sockets msg v log) as Hv.
      destruct (Realtime.send_open msg v log) as [[v' log1] n].
      specialize (IH log1).
      destruct (Realtime.broadcast_loop msg ex rest log1) as [[rest' log2] sent].
      destruct i as [| i]; simpl in *.
      * injection Hi as -> ->. exists v'. repeat split; auto.
        intro Hex. subst ex. rewrite String.eqb_refl in E. discriminate.
      * exact (IH i u socks Hi).
Qed.

End FanOutFacts.

(** C4. A broadcast that excludes user [ex] leaves every socket
    registered under [ex] untouched, however many sessions [ex] has
    open, and writes the message to every open socket of every other
    registered user: in the unified server when the broadcast returns
    normally, in [RealtimeServer] for every socket whose write
    succeeds. *)
Theorem broadcast_excludes_by_user (ex : string) :
  (forall (msg : Server.Frame) (cl : Server.Clients) i u socks,
      nth_error cl i = Some (u, socks) ->
      exists socks',
        nth_error (fst (Server.broadcast_loop ex msg cl)) i = Some (u, socks')
        /\ (u = ex -> socks' = socks)
        /\ (u <> ex -> snd (Server.broadcast_loop ex msg cl) = false ->
            socks' =
            map (fun ws => if (Ws.ws_readyState ws =? 1)%nat
                           then Ws.push_frame ws msg else ws) socks))
  /\ (forall (msg : Wire.Message) (srv : Realtime.RealtimeServer) i u socks,
         nth_error (Realtime.clients srv) i = Some (u, socks) ->
         exists socks',
           nth_error (Realtime.clients (fst (Realtime.broadcast msg (Some ex) srv))) i
           = Some (u, socks')
           /\ (u = ex -> socks' = socks)
           /\ (u <> ex ->
               socks' =
               map (fun ws => if (Ws.ws_readyState ws =? Ws.OPEN)%nat
                              then (if Ws.ws_throws ws then ws else Ws.push_frame ws msg)
                              else ws) socks)).
Proof.
  split.
  - intros msg cl i u socks Hi.
    exact (broadcast_loop_entry ex msg cl i u socks Hi).
  - intros msg srv i u socks Hi.
    destruct (rt_broadcast_loop_entry msg (Some ex) (Realtime.clients srv)
                (Realtime.errors srv) i u socks Hi) as [socks' [Hn [Hex Hother]]].
    exists socks'. unfold Realtime.broadcast.
    destruct (Realtime.broadcast_loop msg (Some ex) (Realtime.clients srv)
                (Realtime.errors srv)) as [[cl log] sent].
    simpl in *. repeat split; auto.
    + intro; subst; auto.
    + intro Hne. apply Hother. congruence.
Qed.

(** A closed instance of the exclusion theorem: Alice, with two open
    tabs, is excluded; Bob's socket gets the frame. *)
Lemma broadcast_excludes_by_user_witness :
  exists socks',
    nth_error (fst (Server.broadcast_loop "alice" moved_frame two_users)) 1
    = Some ("bob", socks')
    /\ socks' = [Ws.push_frame bob_tab moved_frame].
Proof.
  destruct (proj1 (broadcast_excludes_by_user "alice")
              moved_frame two_users 1 "bob" [bob_tab] eq_refl)
    as [socks' [Hentry [_ Hother]]].
  exists socks'. split; [exact Hentry |].
  apply Hother; [discriminate | reflexivity].
Defined.

(** C4 as stated fails where a write fails.  In [RealtimeServer] the
    broadcast that excludes Alice reaches Carol's socket, which is open
    and not excluded, but the write throws and the socket has received
    nothing.  In the unified server the failing write to Bob's socket
    ends the loop: Carol's socket, open and healthy, receives nothing
    either. *)
Lemma open_sockets_can_miss_a_broadcast :
  let srv' := fst (Realtime.broadcast Wire.NotificationAllRead (Some "user-alice")
                     server_with_two_sockets) in
  let after := Server.broadcast_loop "alice" moved_frame three_users in
  map (fun e => (fst e, map (fun ws => ((Ws.ws_readyState ws =? Ws.OPEN)%nat, Ws.ws_sent ws))
                            (snd e)))
      (Realtime.clients srv')
  = [("user-alice", [(true, [])]); ("carol", [(true, [])])]
  /\ snd after = true
  /\ map (fun e => (fst e, map (fun ws => ((Ws.ws_readyState ws =? 1)%nat, Ws.ws_sent ws))
                               (snd e)))
         (fst after)
     = [("alice", [(true, []); (true, [])]); ("bob", [(true, [])]);
        ("carol", [(true, [])])].
Proof. repeat split; reflexivity. Qed.

(** ** Write failures *)

Section WriteFailureFacts.

Lemma members_set_same_ids {F : Type} (u : string) (v v' : list (Ws.WebSocket F))
  (m : Ws.Registry F) :
  Ws.get u m = Some v ->
  map Ws.ws_id v' = map Ws.ws_id v ->
  Ws.members (Ws.set u v' m) = Ws.members m.
Proof.
  intros Hget Hids. induction m as [| [k v0] m IH]; simpl in *; [discriminate |].
  destruct (k =? u) eqn:E; simpl.
  - injection Hget as ->. now rewrite Hids.
  - now rewrite (IH Hget).
Qed.

Lemma delivered_rt_ids msg socks :
  map Ws.ws_id (map (delivered_rt msg) socks) = map Ws.ws_id socks.
Proof.
  rewrite map_map. apply map_ext. intro ws. unfold delivered_rt.
  destruct (Ws.ws_readyState ws =? Ws.OPEN)%nat; [| reflexivity].
  now destruct (Ws.ws_throws ws).
Qed.

Lemma server_broadcast_members ex msg cl :
  Ws.members (fst (Server.broadcast_loop ex msg cl)) = Ws.members cl.
Proof.
  induction cl as [| [k v] rest IH]; simpl; [reflexivity |].
  destruct (k =? ex).
  - destruct (Server.broadcast_loop ex msg rest) as [rest' threw].
    simpl in *. now rewrite IH.
  - pose proof (send_each_ids msg v) as Hv.
    destruct (Server.send_each msg v) as [v' threw]. simpl in Hv.
    destruct threw; simpl.
    + now rewrite Hv.
    + destruct (Server.broadcast_loop ex msg rest) as [rest' threw'].
      simpl in *. now rewrite Hv, IH.
Qed.

Lemma rt_broadcast_members msg ex cl log :
  Ws.members (fst (fst (Realtime.broadcast_loop msg ex cl log))) = Ws.members cl.
Proof.
  revert log. induction cl as [| [k v] rest IH]; intro log; simpl; [reflexivity |].
  destruct (match ex with Some ex0 => k =? ex0 | None => false end).
  - specialize (IH log).
    destruct (Realtime.broadcast_loop msg ex rest log) as [[rest' log'] sent].
    simpl in *. now rewrite IH.
  - pose proof (send_open_sockets msg v log) as Hv.
    destruct (Realtime.send_open msg v log) as [[v' log1] n].
    specialize (IH log1).
    destruct (Realtime.broadcast_loop msg ex rest log1) as [[rest' log2] sent].
    simpl in *. subst v'. now rewrite delivered_rt_ids, IH.
Qed.

End WriteFailureFacts.

(** C7, as the code has it.  A failed write removes nothing from the
    registry: after the unified server's broadcast loop, and after
    [broadcast] or [sendToUser] of [RealtimeServer], the same users are
    registered with the same sockets as before, whether or not a write
    failed; [RealtimeServer._send] catches the exception, logs it and
    leaves the socket as it is. *)
Theorem failed_write_keeps_registration :
  (forall ex msg cl,
      Ws.members (fst (Server.broadcast_loop ex msg cl)) = Ws.members cl)
  /\ (forall msg ex srv,
         Ws.members (Realtime.clients (fst (Realtime.broadcast msg ex srv)))
         = Ws.members (Realtime.clients srv))
  /\ (forall u msg srv,
         Ws.members (Realtime.clients (fst (Realtime.sendToUser u msg srv)))
         = Ws.members (Realtime.clients srv))
  /\ (forall (ws : Realtime.Socket) msg log,
         Realtime._send ws msg log =
         if Ws.ws_throws ws then (ws, (log ++ ["[WS] Send error"])%list)
         else (Ws.push_frame ws msg, log)).
Proof.
  split; [exact server_broadcast_members |].
  split.
  { intros msg ex srv. unfold Realtime.broadcast.
    pose proof (rt_broadcast_members msg ex (Realtime.clients srv) (Realtime.errors srv)) as H.
    destruct (Realtime.broadcast_loop msg ex (Realtime.clients srv) (Realtime.errors srv))
      as [[cl log] sent].
    exact H. }
  split.
  { intros u msg srv. unfold Realtime.sendToUser.
    destruct (Ws.get u (Realtime.clients srv)) as [socks |] eqn:G; [| reflexivity].
    pose proof (send_open_sockets msg socks (Realtime.errors srv)) as Hs.
    destruct (Realtime.send_open msg socks (Realtime.errors srv)) as [[socks' log] sent].
    simpl in *. subst socks'.
    apply (members_set_same_ids u socks); [exact G | apply delivered_rt_ids]. }
  intros ws msg log. unfold Realtime._send, Ws.send.
  now destruct (Ws.ws_throws ws).
Qed.

(** C7 as stated fails: the write to Carol's only socket throws, and
    afterwards the socket is still in the registry. *)
Lemma failed_write_is_not_a_disconnect :
  let srv' := fst (Realtime.sendToUser "carol" Wire.NotificationAllRead
                     server_with_broken_socket) in
  Ws.ws_throws broken_socket = true
  /\ Ws.ws_sent broken_socket = []
  /\ Realtime.errors srv' = ["[WS] Send error"]
  /\ Ws.members (Realtime.clients srv') = [("carol", [7])]
  /\ ~ (Ws.get "carol" (Realtime.clients srv') = None).
Proof.
  simpl. repeat split; try reflexivity. discriminate.
Qed.



(** ** Numbers *)

Section NumberFacts.

Local Open Scope Z_scope.

Lemma to_number_exact (n : Z) : Z.abs n <= 2 ^ 53 -> Js.to_number n = n.
Proof.
  intro H. unfold Js.to_number. cbv zeta.
  apply Z.leb_le in H. now rewrite H.
Qed.

Lemma is_number_fixed (n : Z) : Js.is_number n = true -> Js.to_number n = n.
Proof.
  unfold Js.is_number. intro H. apply andb_true_iff in H.
  destruct H as [H _]. now apply Z.eqb_eq.
Qed.

Lemma plus_exact (x y : Z) : Z.abs (x + y) <= 2 ^ 53 -> Js.plus x y = x + y.
Proof. intro H. unfold Js.plus. now apply to_number_exact. Qed.

Lemma sql_succ_exact (p : Z) :
  shiftable p -> Server.sql_succ p = p + 1.
Proof.
  intros [Hlo Hhi]. unfold Server.sql_succ.
  apply Z.ltb_lt in Hlo. apply Z.ltb_lt in Hhi. now rewrite Hlo, Hhi.
Qed.

(** [Js.to_number] and [Js.plus] round as IEEE 754 binary64 does, at
    the integers where rounding starts and at those used below. *)
Lemma to_number_rounds_as_binary64 :
  Forall (fun n =>
            Js.Z_of_binary64 (Js.binary64_of_Z n) = Some (Js.to_number n)
            /\ Js.Z_of_binary64
                 (SFadd 53 1024 (Js.binary64_of_Z n) (Js.binary64_of_Z 1))
               = Some (Js.plus (Js.to_number n) 1))
         [ 0; 1; -1; 2 ^ 53 - 1; 2 ^ 53; 2 ^ 53 + 1; 2 ^ 53 + 2; 2 ^ 53 + 3;
           - (2 ^ 53 + 1); 2 ^ 54 + 2; 2 ^ 54 + 6; 2 ^ 63 - 1; 2 ^ 63;
           10 ^ 19; 10 ^ 19 + 1; 10 ^ 19 + 1024; 10 ^ 19 + 1025; - 10 ^ 19 ].
Proof. repeat constructor. Qed.

End NumberFacts.

(** ** The task store *)

Section StoreFacts.

Import Server.

Ltac steps :=
  cbn -[Js.includes Js.trim Js.length Js.truthy Js.interp Js.nullish Nat.ltb String.eqb
        Js.to_number Js.plus sql_succ
        select_board select_owned_task select_column select_first_column
        select_max_position select_task broadcast VALID_PRIORITIES].

Ltac handler :=
  unfold respond, bind, query, throw_if, run, ret, throw, is_none; steps.

Lemma broadcast_database excl event payload iso s :
  database (fst (broadcast excl event payload iso s)) = database s.
Proof.
  unfold broadcast.
  destruct (broadcast_loop excl _ (clients s)) as [cl threw]. reflexivity.
Qed.

(** A move whose task and target column are found rewrites the table
    with the two [UPDATE]s, whatever the broadcast does afterwards. *)
Lemma moveTask_database s user boardId taskId c position env t col :
  select_owned_task taskId user (database s) = Some t ->
  c <> EmptyString ->
  select_column c boardId (database s) = Some col ->
  database (fst (moveTask user boardId taskId (mkMoveBody (Some c) position) env s)) =
  place_task c (Js.nullish (option_map Js.to_number position) 0%Z) (env_now env) taskId
    (shift_positions c (Js.nullish (option_map Js.to_number position) 0%Z) (database s)).
Proof.
  intros Ht Hc Hcol. apply String.eqb_neq in Hc.
  unfold moveTask, moveTaskBody, parsed_position. handler.
  rewrite Ht. simpl. rewrite Hc. simpl. rewrite Hcol. simpl.
  match goal with
  | |- context [broadcast ?e ?ev ?p ?i ?st] =>
      pose proof (broadcast_database e ev p i st) as Hb;
      destruct (broadcast e ev p i st) as [s' [err | []]]
  end; simpl in *; exact Hb.
Qed.

(** Any move either leaves the table alone or is such a rewrite, at the
    index that the request asked for. *)
Lemma moveTask_database_cases s user boardId taskId body env :
  database (fst (moveTask user boardId taskId body env s)) = database s
  \/ exists c,
       database (fst (moveTask user boardId taskId body env s)) =
       place_task c (Js.nullish (parsed_position body) 0%Z) (env_now env) taskId
         (shift_positions c (Js.nullish (parsed_position body) 0%Z) (database s)).
Proof.
  destruct body as [columnId position].
  destruct (select_owned_task taskId user (database s)) as [t |] eqn:Ht.
  2: { left. unfold moveTask, moveTaskBody. handler. now rewrite Ht. }
  destruct columnId as [c |].
  2: { left. unfold moveTask, moveTaskBody. handler. now rewrite Ht. }
  destruct (c =? EmptyString) eqn:Hc.
  { left. unfold moveTask, moveTaskBody. handler. rewrite Ht. simpl. now rewrite Hc. }
  destruct (select_column c boardId (database s)) as [col |] eqn:Hcol.
  2: { left. unfold moveTask, moveTaskBody. handler.
       rewrite Ht. simpl. rewrite Hc. simpl. now rewrite Hcol. }
  right. exists c.
  apply String.eqb_neq in Hc.
  exact (moveTask_database s user boardId taskId c position env t col Ht Hc Hcol).
Qed.

Lemma target_column_reads boardId columnId s :
  fst (target_column boardId columnId s) = s.
Proof.
  unfold target_column.
  destruct (Js.truthy columnId); handler.
  - now destruct (select_column (Js.interp columnId) boardId (database s)).
  - now destruct (select_first_column boardId (database s)).
Qed.

(** Any create either leaves the table alone or appends one row with a
    new id, placed one past the largest position of its column as
    JavaScript computes it. *)
Lemma createTask_database_cases s user boardId body env :
  database (fst (createTask user boardId body env s)) = database s
  \/ exists t,
       existsb (fun t0 => task_id t0 =? task_id t) (tasks (database s)) = false
       /\ task_position t =
          Js.plus (Js.nullish (select_max_position (task_column_id t) (database s))
                              (-1)%Z) 1
       /\ database (fst (createTask user boardId body env s)) =
          with_tasks (database s) (tasks (database s) ++ [t])%list.
Proof.
  unfold createTask, createTaskBody. handler.
  destruct (select_board boardId user (database s)); steps; [| now left].
  destruct (cb_title body) as [title |]; steps; [| now left].
  destruct ((title =? EmptyString) || (Js.trim title =? EmptyString)); steps; [now left |].
  destruct (255 <? Js.length title)%nat; steps; [now left |].
  destruct (Js.truthy (cb_priority body)
            && negb (Js.includes VALID_PRIORITIES (Js.interp (cb_priority body))));
    steps; [now left |].
  pose proof (target_column_reads boardId (cb_columnId body) s) as Hread.
  destruct (target_column boardId (cb_columnId body) s) as [s1 [err | targetCol]];
    simpl in Hread; subst s1; steps; [now left |].
  unfold insert_task.
  match goal with
  | |- context [existsb ?f (tasks (database s))] =>
      destruct (existsb f (tasks (database s))) eqn:Hfresh
  end; steps; [now left |].
  right.
  match goal with
  | |- context [with_tasks (database s) (tasks (database s) ++ [?t])%list] => exists t
  end.
  split; [exact Hfresh |]. split; [reflexivity |].
  match goal with
  | |- context [broadcast ?e ?ev ?p ?i ?st] =>
      pose proof (broadcast_database e ev p i st) as Hb;
      destruct (broadcast e ev p i st) as [s' [err | []]]
  end; simpl in *; exact Hb.
Qed.

Lemma deleteTask_database_cases s user boardId taskId env :
  database (fst (deleteTask user boardId taskId env s)) = database s
  \/ database (fst (deleteTask user boardId taskId env s)) =
     delete_task taskId (database s).
Proof.
  unfold deleteTask. handler.
  destruct (select_owned_task taskId user (database s)); simpl; [| now left].
  right.
  match goal with
  | |- context [broadcast ?e ?ev ?p ?i ?st] =>
      pose proof (broadcast_database e ev p i st) as Hb;
      destruct (broadcast e ev p i st) as [s' [err | []]]
  end; simpl in *; exact Hb.
Qed.

Lemma NoDup_map_same {A B : Type} (f : A -> B) (l : list A) x y :
  NoDup (map f l) -> In x l -> In y l -> f x = f y -> x = y.
Proof.
  induction l as [| a l IH]; simpl; intros Hnd Hx Hy Hf; [contradiction |].
  inversion Hnd as [| ? ? Hnotin Hnd']; subst.
  destruct Hx as [-> | Hx], Hy as [-> | Hy]; auto.
  - exfalso. apply Hnotin. rewrite Hf. now apply in_map.
  - exfalso. apply Hnotin. rewrite <- Hf. now apply in_map.
Qed.

Lemma NoDup_map_of_inj {A B : Type} (f : A -> B) (l : list A) :
  NoDup l -> (forall x y, In x l -> In y l -> f x = f y -> x = y) ->
  NoDup (map f l).
Proof.
  induction l as [| a l IH]; simpl; intros Hnd Hinj; [constructor |].
  inversion Hnd as [| ? ? Hnotin Hnd']; subst. constructor.
  - intro Hin. apply in_map_iff in Hin. destruct Hin as [b [Hfb Hb]].
    assert (b = a) by (apply Hinj; auto). subst. contradiction.
  - apply IH; auto.
Qed.

Lemma NoDup_of_map {A B : Type} (f : A -> B) (l : list A) :
  NoDup (map f l) -> NoDup l.
Proof.
  induction l as [| a l IH]; simpl; intro Hnd; [constructor |].
  inversion Hnd as [| ? ? Hnotin Hnd']; subst. constructor; auto.
  intro Hin. apply Hnotin. now apply in_map.
Qed.

Lemma slots_give_distinct_positions db :
  primary_key db -> unique_slots db -> positions_distinct db.
Proof.
  intros Hpk Hslots c. apply NoDup_map_of_inj.
  - apply NoDup_filter. now apply (NoDup_of_map task_id).
  - intros x y Hx Hy Hpos.
    apply filter_In in Hx. destruct Hx as [Hx Hcx].
    apply filter_In in Hy. destruct Hy as [Hy Hcy].
    apply String.eqb_eq in Hcx, Hcy.
    apply (NoDup_map_same task_id (tasks db)); auto.
    apply Hslots; auto. congruence.
Qed.

Lemma distinct_positions_give_slots db :
  positions_distinct db -> unique_slots db.
Proof.
  intros Hord x y Hx Hy Hcol Hpos. f_equal.
  apply (NoDup_map_same task_position
           (filter (fun t => task_column_id t =? task_column_id x) (tasks db)));
    auto.
  - apply filter_In. split; [exact Hx | apply String.eqb_refl].
  - apply filter_In. split; [exact Hy |]. rewrite Hcol. apply String.eqb_refl.
Qed.

(** The two [UPDATE]s of a move, as one function on rows. *)
Lemma move_rows c pos now taskId db :
  tasks (place_task c pos now taskId (shift_positions c pos db)) =
  map (fun x =>
         if task_id x =? taskId then set_placement x c pos now
         else if (task_column_id x =? c) && (pos <=? task_position x)%Z
              then set_position x (sql_succ (task_position x)) else x)
      (tasks db).
Proof.
  unfold place_task, shift_positions. simpl. rewrite map_map.
  apply map_ext. intro x.
  destruct ((task_column_id x =? c) && (pos <=? task_position x)%Z); simpl;
    now destruct (task_id x =? taskId).
Qed.

(** The same where the shifted positions are 64-bit integers below the
    largest one: there SQL's [+ 1] adds one. *)
Lemma move_rows_exact c pos now taskId db :
  (forall x, In x (tasks db) -> task_column_id x = c ->
             (pos <= task_position x)%Z ->
             shiftable (task_position x)) ->
  tasks (place_task c pos now taskId (shift_positions c pos db)) =
  map (fun x =>
         if task_id x =? taskId then set_placement x c pos now
         else if (task_column_id x =? c) && (pos <=? task_position x)%Z
              then set_position x (task_position x + 1) else x)
      (tasks db).
Proof.
  intro Hrange. rewrite move_rows. apply map_ext_in. intros x Hx.
  destruct (task_id x =? taskId); [reflexivity |].
  destruct ((task_column_id x =? c) && (pos <=? task_position x)%Z) eqn:E;
    [| reflexivity].
  apply andb_true_iff in E. destruct E as [Hc Hp].
  apply String.eqb_eq in Hc. apply Z.leb_le in Hp.
  now rewrite sql_succ_exact by (apply Hrange; assumption).
Qed.

Lemma move_keeps_invariant c pos now taskId db :
  (forall x, In x (tasks db) -> shiftable (task_position x)) ->
  primary_key db -> unique_slots db ->
  primary_key (place_task c pos now taskId (shift_positions c pos db))
  /\ unique_slots (place_task c pos now taskId (shift_positions c pos db)).
Proof.
  intros Hrange Hpk Hslots. unfold primary_key, unique_slots.
  rewrite move_rows_exact by (intros x Hx _ _; now apply Hrange). split.
  - rewrite map_map.
    erewrite map_ext; [exact Hpk |].
    intro x. simpl.
    destruct (task_id x =? taskId); [reflexivity |].
    now destruct ((task_column_id x =? c) && (pos <=? task_position x)%Z).
  - intros x' y' Hx' Hy'.
    apply in_map_iff in Hx'. destruct Hx' as [x [<- Hx]].
    apply in_map_iff in Hy'. destruct Hy' as [y [<- Hy]].
    specialize (Hslots x y Hx Hy).
    destruct (task_id x =? taskId) eqn:Ex, (task_id y =? taskId) eqn:Ey;
      try (apply String.eqb_eq in Ex); try (apply String.eqb_eq in Ey);
      destruct ((task_column_id x =? c) && (pos <=? task_position x)%Z) eqn:Sx;
      destruct ((task_column_id y =? c) && (pos <=? task_position y)%Z) eqn:Sy;
      simpl; intros Hcol Hpos; try congruence;
      try (apply andb_true_iff in Sx; destruct Sx as [Cx Px];
           apply String.eqb_eq in Cx; apply Z.leb_le in Px);
      try (apply andb_true_iff in Sy; destruct Sy as [Cy Py];
           apply String.eqb_eq in Cy; apply Z.leb_le in Py);
      try (apply andb_false_iff in Sx; destruct Sx as [Cx | Px];
           [apply String.eqb_neq in Cx | apply Z.leb_gt in Px]);
      try (apply andb_false_iff in Sy; destruct Sy as [Cy | Py];
           [apply String.eqb_neq in Cy | apply Z.leb_gt in Py]);
      try congruence; try lia;
      try (apply Hslots; [congruence | lia]).
Qed.

Lemma move_stays_within B c pos now taskId db :
  (B < 2 ^ 63 - 1)%Z ->
  positions_within B db -> (Z.abs pos <= B)%Z ->
  positions_within (B + 1) (place_task c pos now taskId (shift_positions c pos db)).
Proof.
  intros HB Hin Hpos t Ht.
  rewrite move_rows_exact in Ht.
  - apply in_map_iff in Ht. destruct Ht as [x [<- Hx]].
    specialize (Hin x Hx).
    destruct (task_id x =? taskId); [simpl; lia |].
    destruct ((task_column_id x =? c) && (pos <=? task_position x)%Z); simpl; lia.
  - intros x Hx _ _. specialize (Hin x Hx). unfold shiftable. lia.
Qed.

Lemma max_position_fold c ts acc :
  let m := fold_left
             (fun m t =>
                if task_column_id t =? c then
                  match m with
                  | None => Some (task_position t)
                  | Some p => Some (Z.max p (task_position t))
                  end
                else m) ts acc in
  (forall p, acc = Some p -> exists q, m = Some q /\ (p <= q)%Z)
  /\ (forall y, In y ts -> task_column_id y = c ->
                exists q, m = Some q /\ (task_position y <= q)%Z).
Proof.
  revert acc. induction ts as [| t ts IH]; intro acc; simpl.
  - split.
    + intros p ->. exists p. split; [reflexivity | lia].
    + intros y [].
  - set (acc' := if task_column_id t =? c
                 then match acc with
                      | Some p => Some (Z.max p (task_position t))
                      | None => Some (task_position t)
                      end
                 else acc).
    destruct (IH acc') as [Hacc Hin]. split.
    + intros p ->. subst acc'.
      destruct (task_column_id t =? c).
      * destruct (Hacc _ eq_refl) as [q [Hq Hle]]. exists q. split; [exact Hq | lia].
      * exact (Hacc _ eq_refl).
    + intros y [-> | Hy] Hc.
      * subst acc'. rewrite Hc, String.eqb_refl in Hacc.
        rewrite Hc, String.eqb_refl.
        destruct acc as [p |];
          destruct (Hacc _ eq_refl) as [q [Hq Hle]]; exists q; split; auto; lia.
      * exact (Hin y Hy Hc).
Qed.

Lemma max_position_bounds c db y :
  In y (tasks db) -> task_column_id y = c ->
  exists q, max_position c db = Some q /\ (task_position y <= q)%Z.
Proof.
  intros Hy Hc. unfold max_position.
  exact (proj2 (max_position_fold c (tasks db) None) y Hy Hc).
Qed.

(** The maximum is the position of one of the rows. *)
Lemma max_position_fold_within B c ts : forall acc q,
  (forall p, acc = Some p -> (Z.abs p <= B)%Z) ->
  (forall y, In y ts -> (Z.abs (task_position y) <= B)%Z) ->
  fold_left
    (fun m t =>
       if task_column_id t =? c then
         match m with
         | None => Some (task_position t)
         | Some p => Some (Z.max p (task_position t))
         end
       else m) ts acc = Some q ->
  (Z.abs q <= B)%Z.
Proof.
  induction ts as [| t ts IH]; intros acc q Hacc Hts; simpl.
  - intro H. now apply Hacc.
  - apply IH.
    + intros p Hp. pose proof (Hts t (or_introl eq_refl)) as Ht.
      destruct (task_column_id t =? c); [| now apply Hacc].
      destruct acc as [p0 |]; inversion Hp; subst; [| exact Ht].
      specialize (Hacc p0 eq_refl). lia.
    + intros y Hy. apply Hts. now right.
Qed.

Lemma max_position_within B c db q :
  positions_within B db -> max_position c db = Some q -> (Z.abs q <= B)%Z.
Proof.
  intros Hin Hq.
  apply (max_position_fold_within B c (tasks db) None q); auto.
  intros p Hp. discriminate Hp.
Qed.

(** Below 2^53 the position of a new task is one more than the largest
    position of its column, or 0 in an empty column. *)
Lemma create_position B c db :
  (0 <= B)%Z -> (B < 2 ^ 53)%Z -> positions_within B db ->
  Js.plus (Js.nullish (select_max_position c db) (-1)%Z) 1
  = (Js.nullish (max_position c db) (-1) + 1)%Z
  /\ (Z.abs (Js.nullish (max_position c db) (-1) + 1) <= B + 1)%Z.
Proof.
  intros H0 HB Hin. unfold select_max_position.
  destruct (max_position c db) as [q |] eqn:Hq; simpl.
  - pose proof (max_position_within B c db q Hin Hq) as Hle.
    rewrite to_number_exact by lia. rewrite plus_exact by lia. split; lia.
  - split; [reflexivity | lia].
Qed.

Lemma create_keeps_invariant B db t :
  (0 <= B)%Z -> (B < 2 ^ 53)%Z -> positions_within B db ->
  existsb (fun t0 => task_id t0 =? task_id t) (tasks db) = false ->
  task_position t =
    Js.plus (Js.nullish (select_max_position (task_column_id t) db) (-1)%Z) 1 ->
  primary_key db -> unique_slots db ->
  primary_key (with_tasks db (tasks db ++ [t])%list)
  /\ unique_slots (with_tasks db (tasks db ++ [t])%list)
  /\ positions_within (B + 1) (with_tasks db (tasks db ++ [t])%list).
Proof.
  intros H0 HB Hin Hfresh Hpos Hpk Hslots.
  destruct (create_position B (task_column_id t) db H0 HB Hin) as [Hexact Hle].
  rewrite Hexact in Hpos.
  assert (Hnew : forall y, In y (tasks db) -> task_id y <> task_id t).
  { intros y Hy Heq.
    assert (existsb (fun t0 => task_id t0 =? task_id t) (tasks db) = true).
    { apply existsb_exists. exists y. split; [exact Hy |]. now apply String.eqb_eq. }
    congruence. }
  assert (Habove : forall y, In y (tasks db) ->
                             task_column_id y = task_column_id t ->
                             (task_position y < task_position t)%Z).
  { intros y Hy Hc.
    destruct (max_position_bounds _ db y Hy Hc) as [q [Hq Hle']].
    rewrite Hpos, Hq. simpl. lia. }
  unfold primary_key, unique_slots. simpl. split; [| split].
  - rewrite map_app. simpl. apply NoDup_app_remove_l with (l := []). simpl.
    apply Permutation_NoDup with (l := task_id t :: map task_id (tasks db)).
    + apply Permutation_cons_append.
    + constructor; [| exact Hpk].
      intro Hin'. apply in_map_iff in Hin'. destruct Hin' as [y [Hid Hy]].
      exact (Hnew y Hy Hid).
  - intros x y Hx Hy Hcol Hp.
    apply in_app_or in Hx. apply in_app_or in Hy.
    destruct Hx as [Hx | [<- | []]], Hy as [Hy | [<- | []]].
    + now apply Hslots.
    + specialize (Habove x Hx Hcol). lia.
    + specialize (Habove y Hy (eq_sym Hcol)). lia.
    + reflexivity.
  - intros y Hy. simpl in Hy. apply in_app_or in Hy.
    destruct Hy as [Hy | [<- | []]].
    + specialize (Hin y Hy). lia.
    + rewrite Hpos. exact Hle.
Qed.

Lemma delete_keeps_invariant db taskId :
  primary_key db -> unique_slots db ->
  primary_key (delete_task taskId db) /\ unique_slots (delete_task taskId db).
Proof.
  intros Hpk Hslots. unfold primary_key, unique_slots, delete_task. simpl. split.
  - apply NoDup_map_of_inj.
    + apply NoDup_filter. now apply (NoDup_of_map task_id).
    + intros x y Hx Hy. apply filter_In in Hx, Hy.
      apply (NoDup_map_same task_id (tasks db)); tauto.
  - intros x y Hx Hy. apply filter_In in Hx, Hy. apply Hslots; tauto.
Qed.

Lemma positions_within_weaken B B' db :
  (B <= B')%Z -> positions_within B db -> positions_within B' db.
Proof. intros Hle Hin t Ht. specialize (Hin t Ht). lia. Qed.

(** While every number stays below 2^53, every operation keeps the
    primary key and the distinctness of the positions of each column,
    and lets the largest position grow by at most one. *)
Lemma perform_keeps_invariant B op s :
  (0 <= B)%Z -> (B < 2 ^ 53)%Z ->
  positions_within B (database s) -> index_within B op ->
  primary_key (database s) -> unique_slots (database s) ->
  primary_key (database (fst (perform op s)))
  /\ unique_slots (database (fst (perform op s)))
  /\ positions_within (B + 1) (database (fst (perform op s))).
Proof.
  intros H0 HB Hin Hidx Hpk Hslots.
  assert (Hsame : positions_within (B + 1) (database s))
    by (apply (positions_within_weaken B); [lia | exact Hin]).
  destruct op as [user boardId body env
                 | user boardId taskId body env
                 | user boardId taskId env]; simpl.
  - destruct (createTask_database_cases s user boardId body env)
      as [-> | [t [Hfresh [Hpos ->]]]]; [now repeat split |].
    now apply create_keeps_invariant.
  - destruct (moveTask_database_cases s user boardId taskId body env)
      as [-> | [c ->]]; [now repeat split |].
    assert (Hpos : (Z.abs (Js.nullish (parsed_position body) 0) <= B)%Z).
    { unfold parsed_position. simpl in Hidx.
      destruct (mb_position body) as [p |]; simpl; [| lia].
      rewrite to_number_exact by lia. exact Hidx. }
    destruct (move_keeps_invariant c (Js.nullish (parsed_position body) 0%Z)
                (env_now env) taskId (database s)) as [Hpk' Hslots']; auto.
    { intros x Hx. specialize (Hin x Hx). unfold shiftable. lia. }
    split; [exact Hpk' |]. split; [exact Hslots' |].
    apply move_stays_within; [lia | exact Hin | exact Hpos].
  - destruct (deleteTask_database_cases s user boardId taskId env)
      as [-> | ->]; [now repeat split |].
    destruct (delete_keeps_invariant (database s) taskId Hpk Hslots) as [Hpk' Hslots'].
    split; [exact Hpk' |]. split; [exact Hslots' |].
    intros t Ht. unfold delete_task in Ht. simpl in Ht. apply filter_In in Ht.
    apply Hsame. tauto.
Qed.

End StoreFacts.

Lemma index_within_weaken (B B' : Z) (op : Server.Op) :
  (B <= B')%Z -> index_within B op -> index_within B' op.
Proof.
  intros Hle H. destruct op as [| ? ? ? body ? |]; simpl in *; auto.
  destruct (Server.mb_position body); [lia | exact I].
Qed.

(** C2. Starting from a table in which ids are unique (the primary key)
    and the positions within each column are pairwise distinct, after
    every operation of a sequence of creates, moves and deletes the
    positions within each column are again pairwise distinct, as long
    as the numbers stay exact: the stored positions and the requested
    indices are integers of magnitude at most [bound], and [bound] plus
    the number of operations does not exceed 2^53. *)
Theorem positions_stay_distinct (bound : Z) (s : Server.State) (ops : list Server.Op) :
  (0 <= bound)%Z ->
  (bound + Z.of_nat (List.length ops) <= exact_range)%Z ->
  positions_within bound (Server.database s) ->
  Forall (index_within bound) ops ->
  primary_key (Server.database s) ->
  positions_distinct (Server.database s) ->
  Forall (fun s' => positions_distinct (Server.database s'))
         (Server.states_after s ops).
Proof.
  unfold exact_range.
  intros H0 Hlen Hin Hidx Hpk Hord. apply distinct_positions_give_slots in Hord.
  revert bound s H0 Hlen Hin Hidx Hpk Hord.
  induction ops as [| op ops IH]; intros B s H0 Hlen Hin Hidx Hpk Hslots; simpl.
  - constructor.
  - inversion Hidx as [| ? ? Hop Hrest]; subst.
    simpl List.length in Hlen. rewrite Nat2Z.inj_succ in Hlen.
    destruct (perform_keeps_invariant B op s) as [Hpk' [Hslots' Hin']];
      auto; [lia |].
    constructor.
    + now apply slots_give_distinct_positions.
    + apply (IH (B + 1)%Z); auto; [lia | lia |].
      eapply Forall_impl; [| exact Hrest].
      intros o Ho. apply (index_within_weaken B); [lia | exact Ho].
Qed.

Ltac distinct_numbers :=
  repeat (constructor; [simpl; intuition (try discriminate; try lia) |]);
  try constructor.

(** A closed instance of the invariant: a create, two moves and a
    delete on Alice's board. *)
Lemma positions_stay_distinct_witness :
  Forall (fun s' => positions_distinct (Server.database s'))
         (Server.states_after todo_board busy_day).
Proof.
  apply (positions_stay_distinct 2 todo_board busy_day).
  - lia.
  - unfold exact_range. simpl. lia.
  - intros t Ht. simpl in Ht.
    destruct Ht as [<- | [<- | [<- | [<- | []]]]]; simpl; lia.
  - repeat constructor; simpl; lia.
  - unfold primary_key. simpl. distinct_numbers.
  - intro c. cbn -[String.eqb].
    destruct (String.eqb_spec "todo" c) as [<- | Htodo].
    + cbn. distinct_numbers.
    + destruct (String.eqb_spec "done" c) as [<- | Hdone]; cbn; distinct_numbers.
Defined.

(** Beyond that range the positions do not stay distinct.  A is moved
    to index 2^53 of its column and then a task is created in that
    column; both requests succeed.  The create route reads the largest
    position, 2^53, and adds one in JavaScript, where the sum is 2^53
    again: the new task gets the position that A has. *)
Lemma positions_collide_beyond_the_exact_range :
  let s1 := fst (Server.moveTask "alice" "b1" "A" at_the_limit later todo_board) in
  let s2 := fst (Server.createTask "alice" "b1" new_card later s1) in
  primary_key (Server.database todo_board)
  /\ positions_distinct (Server.database todo_board)
  /\ Server.res_status (snd (Server.moveTask "alice" "b1" "A" at_the_limit later todo_board))
     = 200%Z
  /\ Server.res_status (snd (Server.createTask "alice" "b1" new_card later s1))
     = 201%Z
  /\ map (fun t => (Server.task_id t, Server.task_position t))
         (filter (fun t => Server.task_column_id t =? "todo")
                 (Server.tasks (Server.database s2)))
     = [ ("A", 9007199254740992%Z); ("B", 1%Z); ("C", 2%Z);
         ("E", 9007199254740992%Z) ]
  /\ ~ Forall (fun s' => positions_distinct (Server.database s'))
              (Server.states_after todo_board move_then_create).
Proof.
  split; [unfold primary_key; simpl; distinct_numbers |].
  split.
  { intro c. cbn -[String.eqb].
    destruct (String.eqb_spec "todo" c) as [<- | Htodo].
    + cbn. distinct_numbers.
    + destruct (String.eqb_spec "done" c) as [<- | Hdone]; cbn; distinct_numbers. }
  split; [vm_compute; reflexivity |].
  split; [vm_compute; reflexivity |].
  split; [vm_compute; reflexivity |].
  intro H. inversion H as [| ? ? _ H1]; subst. inversion H1 as [| ? ? H2 _]; subst.
  specialize (H2 "todo"). vm_compute in H2.
  inversion H2 as [| ? ? Hnotin _]; subst. apply Hnotin.
  right. right. left. reflexivity.
Qed.

(** C1. A move that finds its task and its target column rewrites the
    table row by row: the moved task gets the target column and the
    target index as its position; every other task of the target column
    whose position is at least the target index moves up by one; all
    other rows are unchanged.  This holds where the numbers are exact:
    the target index is an integer that a JavaScript number holds (as
    every integer of magnitude up to 2^53 is) and the positions to
    shift are 64-bit integers strictly between the smallest and the
    largest.  On
    the board with A, B, C at 0, 1, 2, moving C to index 0 of the same
    column lists the column as C, A, B. *)
Theorem move_shifts_then_places :
  (forall s user boardId taskId c position env t col,
      let pos := match position with Some p => p | None => 0%Z end in
      Server.select_owned_task taskId user (Server.database s) = Some t ->
      c <> EmptyString ->
      Server.select_column c boardId (Server.database s) = Some col ->
      Js.is_number pos = true ->
      (forall x, In x (Server.tasks (Server.database s)) ->
                 Server.task_column_id x = c ->
                 (pos <= Server.task_position x)%Z ->
                 shiftable (Server.task_position x)) ->
      Server.tasks
        (Server.database
           (fst (Server.moveTask user boardId taskId
                   (Server.mkMoveBody (Some c) position) env s)))
      = map (fun x =>
               if Server.task_id x =? taskId then
                 Server.mkTask (Server.task_id x) c (Server.task_board_id x)
                   (Server.task_title x) (Server.task_description x)
                   (Server.task_assignee_id x) (Server.task_priority x)
                   (Server.task_labels x) pos (Server.task_due_date x)
                   (Server.task_created_at x) (Server.env_now env)
               else if (Server.task_column_id x =? c)
                       && (pos <=? Server.task_position x)%Z then
                 Server.mkTask (Server.task_id x) (Server.task_column_id x)
                   (Server.task_board_id x) (Server.task_title x)
                   (Server.task_description x) (Server.task_assignee_id x)
                   (Server.task_priority x) (Server.task_labels x)
                   (Server.task_position x + 1)%Z (Server.task_due_date x)
                   (Server.task_created_at x) (Server.task_updated_at x)
               else x)
            (Server.tasks (Server.database s)))
  /\ map Server.task_title
         (Server.column_listing
            (fst (Server.moveTask "alice" "b1" "C"
                    (Server.mkMoveBody (Some "todo") (Some 0%Z)) later todo_board))
            "alice" "b1" "todo")
     = ["C"; "A"; "B"].
Proof.
  split; [| reflexivity].
  intros s user boardId taskId c position env t col pos Ht Hc Hcol Hpos Hrange.
  rewrite (moveTask_database s user boardId taskId c position env t col Ht Hc Hcol).
  assert (Hparsed : Js.nullish (option_map Js.to_number position) 0%Z = pos).
  { subst pos. destruct position as [p |]; simpl; [| reflexivity].
    now apply is_number_fixed. }
  rewrite Hparsed. rewrite move_rows_exact by exact Hrange. reflexivity.
Qed.

(** A closed instance of the first part: moving C to index 0 turns the
    positions of A, B, C into 1, 2, 0 and leaves D alone. *)
Lemma move_shifts_then_places_witness :
  map (fun x => (Server.task_id x, Server.task_column_id x, Server.task_position x))
      (Server.tasks
         (Server.database
            (fst (Server.moveTask "alice" "b1" "C"
                    (Server.mkMoveBody (Some "todo") (Some 0%Z)) later todo_board))))
  = [("A", "todo", 1%Z); ("B", "todo", 2%Z); ("C", "todo", 0%Z); ("D", "done", 0%Z)].
Proof.
  rewrite (proj1 move_shifts_then_places todo_board "alice" "b1" "C" "todo" (Some 0%Z)
             later (card "C" "todo" 2)
             (Server.mkColumn "todo" "b1" "Todo" 0 "#6366f1"
                "2024-01-01 00:00:00" "2024-01-01 00:00:00")).
  - reflexivity.
  - reflexivity.
  - discriminate.
  - reflexivity.
  - reflexivity.
  - intros x Hx _ _. simpl in Hx. unfold shiftable.
    destruct Hx as [<- | [<- | [<- | [<- | []]]]]; simpl; lia.
Defined.

(** Beyond that range a row is not moved up by one.  After A was moved
    to index 10^19, moving B to index 10^19 of the same column finds A
    in the target column at a position that is not below the target
    index, and leaves A at 10^19. *)
Lemma far_positions_are_not_shifted :
  let s1 := fst (Server.moveTask "alice" "b1" "A" far_away later todo_board) in
  let s2 := fst (Server.moveTask "alice" "b1" "B" far_away later s1) in
  map (fun x => (Server.task_id x, Server.task_column_id x, Server.task_position x))
      (Server.tasks (Server.database s1))
  = [ ("A", "todo", 10000000000000000000%Z); ("B", "todo", 1%Z);
      ("C", "todo", 2%Z); ("D", "done", 0%Z) ]
  /\ Server.res_status (snd (Server.moveTask "alice" "b1" "B" far_away later s1))
     = 200%Z
  /\ map (fun x => (Server.task_id x, Server.task_column_id x, Server.task_position x))
         (Server.tasks (Server.database s2))
     = [ ("A", "todo", 10000000000000000000%Z); ("B", "todo", 10000000000000000000%Z);
         ("C", "todo", 2%Z); ("D", "done", 0%Z) ].
Proof. vm_compute. repeat split; reflexivity. Qed.

(** ** Rejected moves *)

Section RejectionFacts.

Import Server.

Lemma find_none_of_forall {A : Type} (p : A -> bool) (l : list A) :
  (forall x, In x l -> p x = false) -> find p l = None.
Proof.
  induction l as [| a l IH]; simpl; intro H; [reflexivity |].
  rewrite (H a (or_introl eq_refl)). apply IH. intros x Hx. apply H. now right.
Qed.

Lemma missing_task_not_selected taskId user db :
  (forall t, In t (tasks db) -> task_id t <> taskId) ->
  select_owned_task taskId user db = None.
Proof.
  intro H. unfold select_owned_task. apply find_none_of_forall.
  intros t Ht. apply (H t) in Ht. apply String.eqb_neq in Ht. now rewrite Ht.
Qed.

Lemma missing_column_not_selected c boardId db :
  (forall col, In col (columns db) -> column_id col <> c) ->
  select_column c boardId db = None.
Proof.
  intro H. unfold select_column. apply find_none_of_forall.
  intros col Hcol. apply (H col) in Hcol. apply String.eqb_neq in Hcol.
  now rewrite Hcol.
Qed.

End RejectionFacts.

(** C6, as the code has it.  A move of a task that does not exist
    throws [NotFoundError] and is answered with status 404; a move of
    an existing task to a column that does not exist throws
    [ValidationError] and is answered with status 400.  In both cases
    the state after the request is the state before it: no row changed
    and no socket of any client was written to. *)
Theorem rejected_move_changes_nothing
  (s : Server.State) (user boardId taskId : string) (body : Server.MoveBody)
  (env : Server.Env) :
  ((forall t, In t (Server.tasks (Server.database s)) -> Server.task_id t <> taskId) ->
   Server.moveTaskBody user boardId taskId body env s
   = (s, inl (Server.NotFoundError "Task not found"))
   /\ Server.moveTask user boardId taskId body env s
      = (s, Server.mkResponse 404 (Server.JsonError "Task not found")))
  /\ (forall t c,
         Server.select_owned_task taskId user (Server.database s) = Some t ->
         Server.mb_columnId body = Some c ->
         c <> EmptyString ->
         (forall col, In col (Server.columns (Server.database s)) ->
                      Server.column_id col <> c) ->
         Server.moveTaskBody user boardId taskId body env s
         = (s, inl (Server.ValidationError "Target column not found"))
         /\ Server.moveTask user boardId taskId body env s
            = (s, Server.mkResponse 400 (Server.JsonError "Target column not found"))).
Proof.
  split.
  - intro Hmissing.
    apply (missing_task_not_selected taskId user) in Hmissing.
    unfold Server.moveTask, Server.respond, Server.moveTaskBody, Server.bind,
      Server.query, Server.throw_if, Server.throw, Server.is_none.
    rewrite Hmissing. split; reflexivity.
  - intros t c Ht Hc Hne Hmissing.
    apply (missing_column_not_selected c boardId) in Hmissing.
    apply String.eqb_neq in Hne.
    unfold Server.moveTask, Server.respond, Server.moveTaskBody, Server.bind,
      Server.query, Server.throw_if, Server.throw, Server.ret, Server.is_none.
    rewrite Ht, Hc. simpl. rewrite Hne. simpl. rewrite Hmissing.
    split; reflexivity.
Qed.

(** A closed instance: on Alice's board there is no task "Z" and no
    column "archive". *)
Lemma rejected_move_changes_nothing_witness :
  Server.moveTask "alice" "b1" "Z" (Server.mkMoveBody (Some "todo") (Some 0%Z))
                  later todo_board
  = (todo_board, Server.mkResponse 404 (Server.JsonError "Task not found"))
  /\ Server.moveTask "alice" "b1" "A" (Server.mkMoveBody (Some "archive") (Some 0%Z))
                     later todo_board
     = (todo_board, Server.mkResponse 400 (Server.JsonError "Target column not found")).
Proof.
  split.
  - apply (proj1 (rejected_move_changes_nothing todo_board "alice" "b1" "Z"
                    (Server.mkMoveBody (Some "todo") (Some 0%Z)) later)).
    intros t Ht. simpl in Ht.
    destruct Ht as [<- | [<- | [<- | [<- | []]]]]; discriminate.
  - apply (proj2 (rejected_move_changes_nothing todo_board "alice" "b1" "A"
                    (Server.mkMoveBody (Some "archive") (Some 0%Z)) later)
             (card "A" "todo" 0) "archive").
    + reflexivity.
    + reflexivity.
    + discriminate.
    + intros col Hcol. simpl in Hcol.
      destruct Hcol as [<- | [<- | []]]; discriminate.
Defined.

(** C6 as stated fails: the error thrown for a missing task is a
    [NotFoundError] with status 404 and the one for a missing column a
    [ValidationError] with status 400; neither is a conflict error. *)
Lemma missing_item_is_not_a_conflict :
  (exists e,
      snd (Server.moveTaskBody "alice" "b1" "Z"
             (Server.mkMoveBody (Some "todo") (Some 0%Z)) later todo_board) = inl e
      /\ Server.class_name e = "NotFoundError"
      /\ Server.class_name e <> "ConflictError"
      /\ Server.err_status e = Some 404%Z)
  /\ (exists e,
         snd (Server.moveTaskBody "alice" "b1" "A"
                (Server.mkMoveBody (Some "archive") (Some 0%Z)) later todo_board) = inl e
         /\ Server.class_name e = "ValidationError"
         /\ Server.class_name e <> "ConflictError"
         /\ Server.err_status e = Some 400%Z).
Proof.
  split.
  - exists (Server.NotFoundError "Task not found").
    repeat split; try reflexivity. discriminate.
  - exists (Server.ValidationError "Target column not found").
    repeat split; try reflexivity. discriminate.
Qed.

(** ** Where a moved task is listed *)

Section RankFacts.

Context {A : Type} (before : A -> A -> bool) (key : A -> Z).

Hypothesis before_le : forall a b, before a b = true -> (key a <= key b)%Z.
Hypothesis not_before_ge : forall a b, before a b = false -> (key b <= key a)%Z.

Let by_key (a b : A) : Prop := (key a <= key b)%Z.

Lemma insert_sorted_by_key x l :
  StronglySorted by_key l -> StronglySorted by_key (Js.insert_sorted before x l).
Proof.
  induction l as [| y l IH]; simpl; intro Hs.
  - constructor; constructor.
  - inversion Hs as [| ? ? Hl Hy]; subst.
    destruct (before y x) eqn:E.
    + constructor; [now apply IH |].
      eapply Permutation_Forall; [apply insert_sorted_perm |].
      constructor; [now apply before_le | exact Hy].
    + constructor; [exact Hs |].
      apply not_before_ge in E. constructor; [exact E |].
      eapply Forall_impl; [| exact Hy].
      intros z Hz. unfold by_key in *. lia.
Qed.

Lemma stable_sort_by_key l : StronglySorted by_key (Js.stable_sort before l).
Proof.
  induction l as [| x l IH]; simpl.
  - constructor.
  - now apply insert_sorted_by_key.
Qed.

(** In a list sorted by key, an element whose key nobody shares sits
    right after the elements with a smaller key. *)
Lemma sorted_rank l1 x l2 :
  StronglySorted by_key (l1 ++ x :: l2) ->
  (forall y, In y (l1 ++ l2) -> key y <> key x) ->
  List.length (filter (fun y => (key y <? key x)%Z) (l1 ++ x :: l2)) = List.length l1.
Proof.
  induction l1 as [| a l1 IH]; simpl; intros Hs Hne.
  - rewrite Z.ltb_irrefl.
    inversion Hs as [| ? ? _ Hx]; subst.
    assert (E : filter (fun y => (key y <? key x)%Z) l2 = []).
    { clear Hs. induction l2 as [| b l2 IHl]; simpl; [reflexivity |].
      inversion Hx as [| ? ? Hb Hrest]; subst. unfold by_key in Hb.
      destruct (Z.ltb_spec (key b) (key x)); [lia |].
      apply IHl; auto. intros y Hy. apply Hne. now right. }
    now rewrite E.
  - inversion Hs as [| ? ? Hrest Ha]; subst.
    assert (Hax : (key a < key x)%Z).
    { rewrite Forall_forall in Ha.
      assert (by_key a x) by (apply Ha, in_or_app; right; now left).
      assert (key a <> key x) by (apply Hne; now left).
      unfold by_key in *. lia. }
    apply Z.ltb_lt in Hax. rewrite Hax. simpl. f_equal.
    apply IH; auto.
Qed.

End RankFacts.

Lemma filter_length_perm {A : Type} (p : A -> bool) (l l' : list A) :
  Permutation l l' -> List.length (filter p l) = List.length (filter p l').
Proof.
  induction 1; simpl; auto.
  - destruct (p x); simpl; congruence.
  - destruct (p x), (p y); reflexivity.
  - congruence.
Qed.

Lemma filter_filter_map_length {A B : Type} (g : A -> B) (F p : B -> bool) (l : list A) :
  List.length (filter p (filter F (map g l)))
  = List.length (filter (fun y => F (g y) && p (g y)) l).
Proof.
  induction l as [| a l IH]; simpl; [reflexivity |].
  destruct (F (g a)); simpl; [| exact IH].
  destruct (p (g a)); simpl; now rewrite IH.
Qed.

Lemma filter_none_forall {A : Type} (p : A -> bool) (l : list A) :
  List.length (filter p l) = 0 -> forall y, In y l -> p y = false.
Proof.
  induction l as [| a l IH]; simpl; intros H y Hy; [contradiction |].
  destruct (p a) eqn:E; [discriminate |].
  destruct Hy as [<- | Hy]; auto.
Qed.

Lemma one_row_per_id (l : list Server.Task) (t : Server.Task) :
  NoDup (map Server.task_id l) -> In t l ->
  List.length (filter (fun y => Server.task_id y =? Server.task_id t) l) = 1.
Proof.
  induction l as [| a l IH]; simpl; intros Hnd Hin; [contradiction |].
  inversion Hnd as [| ? ? Hnotin Hnd']; subst.
  destruct Hin as [-> | Hin].
  - rewrite String.eqb_refl. simpl. f_equal.
    destruct (filter (fun y => Server.task_id y =? Server.task_id t) l) as [| b r] eqn:E;
      [reflexivity |].
    exfalso. assert (Hb : In b (filter (fun y => Server.task_id y =? Server.task_id t) l))
      by (rewrite E; now left).
    apply filter_In in Hb. destruct Hb as [Hb Hid]. apply String.eqb_eq in Hid.
    apply Hnotin. rewrite <- Hid. now apply in_map.
  - destruct (Server.task_id a =? Server.task_id t) eqn:E.
    + exfalso. apply String.eqb_eq in E. apply Hnotin. rewrite E. now apply in_map.
    + now apply IH.
Qed.

Section ListingFacts.

Import Server.

Lemma listed_before_le a b :
  listed_before a b = true -> (task_position a <= task_position b)%Z.
Proof.
  unfold listed_before. intro H. apply orb_true_iff in H.
  destruct H as [H | H].
  - apply Z.ltb_lt in H. lia.
  - apply andb_true_iff in H. destruct H as [H _]. apply Z.eqb_eq in H. lia.
Qed.

Lemma not_listed_before_ge a b :
  listed_before a b = false -> (task_position b <= task_position a)%Z.
Proof.
  unfold listed_before. intro H. apply orb_false_iff in H.
  destruct H as [H _]. apply Z.ltb_ge in H. exact H.
Qed.

Lemma owner_has_board taskId user db t :
  select_owned_task taskId user db = Some t ->
  select_board (task_board_id t) user db <> None.
Proof.
  intros Ht E.
  apply find_some in Ht. destruct Ht as [_ Ht].
  apply andb_true_iff in Ht. destruct Ht as [_ Ht].
  apply existsb_exists in Ht. destruct Ht as [b [Hin Hb]].
  apply andb_true_iff in Hb. destruct Hb as [Hid Hown].
  apply String.eqb_eq in Hid.
  pose proof (find_none _ _ E b Hin) as Hnone. simpl in Hnone.
  rewrite <- Hid, String.eqb_refl, Hown in Hnone. discriminate.
Qed.

(** The list route, for the owner of the board. *)
Lemma column_listing_of_owner s user boardId c :
  select_board boardId user (database s) <> None ->
  c <> EmptyString ->
  column_listing s user boardId c =
  map read_task
    (Js.stable_sort listed_before
       (filter (fun x => (task_board_id x =? boardId) && (task_column_id x =? c) && true)
               (tasks (database s)))).
Proof.
  intros Hb Hc. apply String.eqb_neq in Hc.
  unfold column_listing, listTasks, respond, bind, query, ret.
  destruct (select_board boardId user (database s)) as [b0 |]; [| contradiction].
  simpl. unfold select_tasks. simpl. rewrite Hc. reflexivity.
Qed.

(** C9, as the code has it.  After a move of task [t] to index [i] of
    column [c] on its own board, [t] (with its new column, position and
    time stamp) is listed in [c] right after the other tasks of [c]
    whose position was below [i]: its index in the listing is their
    number.  This holds where the numbers are exact: [i] is an integer
    that a JavaScript number holds (as every integer of magnitude up to
    2^53 is) and the positions of [c] from [i] upwards are 64-bit
    integers strictly between the smallest and the largest. *)
Theorem moved_task_is_listed_after_lower_positions
  (s : State) (user boardId taskId c : string) (i : Z) (env : Env)
  (t : Task) (col : Column) :
  primary_key (database s) ->
  select_owned_task taskId user (database s) = Some t ->
  task_board_id t = boardId ->
  c <> EmptyString ->
  select_column c boardId (database s) = Some col ->
  Js.is_number i = true ->
  (forall x, In x (tasks (database s)) -> task_column_id x = c ->
             (i <= task_position x)%Z ->
             shiftable (task_position x)) ->
  let s' := fst (moveTask user boardId taskId (mkMoveBody (Some c) (Some i)) env s) in
  let below :=
    List.length
      (filter (fun x => (task_board_id x =? boardId) && (task_column_id x =? c)
                        && (task_position x <? i)%Z && negb (task_id x =? taskId))
              (tasks (database s))) in
  nth_error (column_listing s' user boardId c) below
  = Some (mkTask (task_id t) c (task_board_id t) (task_title t) (task_description t)
                 (task_assignee_id t) (task_priority t) (task_labels t) i
                 (task_due_date t) (task_created_at t) (env_now env)).
Proof.
  intros Hpk Ht Hboard Hc Hcol Hi Hrange s' below.
  apply is_number_fixed in Hi.
  pose proof (moveTask_database s user boardId taskId c (Some i) env t col Ht Hc Hcol)
    as Hdb.
  simpl in Hdb. rewrite Hi in Hdb. fold s' in Hdb.
  assert (Hlist : column_listing s' user boardId c =
                  map read_task
                    (Js.stable_sort listed_before
                       (filter (fun x => (task_board_id x =? boardId)
                                         && (task_column_id x =? c) && true)
                               (tasks (database s'))))).
  { apply column_listing_of_owner; [| exact Hc].
    rewrite Hdb. rewrite <- Hboard. exact (owner_has_board taskId user _ t Ht). }
  rewrite Hlist, Hdb, move_rows_exact by exact Hrange. clear Hlist Hdb.
  assert (Hread : read_task (set_placement t c i (env_now env))
                  = set_placement t c i (env_now env)).
  { unfold read_task. simpl. now rewrite Hi. }
  change (mkTask (task_id t) c (task_board_id t) (task_title t) (task_description t)
                 (task_assignee_id t) (task_priority t) (task_labels t) i
                 (task_due_date t) (task_created_at t) (env_now env))
    with (set_placement t c i (env_now env)).
  rewrite <- Hread. apply map_nth_error.
  set (g := fun x : Task =>
              if task_id x =? taskId then set_placement x c i (env_now env)
              else if (task_column_id x =? c) && (i <=? task_position x)%Z
                   then set_position x (task_position x + 1) else x).
  set (F := fun x : Task =>
              (task_board_id x =? boardId) && (task_column_id x =? c) && true).
  set (L := filter F (map g (tasks (database s)))).
  set (X := set_placement t c i (env_now env)).
  change (nth_error (Js.stable_sort listed_before L) below = Some X).
  pose proof (find_some _ _ Ht) as [Hin Hfound].
  apply andb_true_iff in Hfound. destruct Hfound as [Hid _].
  apply String.eqb_eq in Hid.
  assert (Hsame : forall y, In y (tasks (database s)) -> task_id y = taskId -> y = t).
  { intros y Hy Hyid. apply (NoDup_map_same task_id (tasks (database s))); auto.
    congruence. }
  assert (HX : In X (Js.stable_sort listed_before L)).
  { apply stable_sort_In. apply filter_In. split.
    - apply in_map_iff. exists t. split; [| exact Hin].
      unfold g. now rewrite Hid, String.eqb_refl.
    - unfold F, X. simpl. now rewrite Hboard, !String.eqb_refl. }
  destruct (in_split _ _ HX) as [l1 [l2 Hsplit]].
  assert (Hperm : Permutation L (l1 ++ X :: l2)).
  { rewrite <- Hsplit. apply stable_sort_perm. }
  (* exactly one listed task is at position i *)
  assert (Hone : List.length (filter (fun y => (task_position y =? i)%Z) L) = 1).
  { unfold L. rewrite filter_filter_map_length.
    rewrite <- (one_row_per_id (tasks (database s)) t Hpk Hin).
    f_equal. apply filter_ext_in. intros y Hy. rewrite Hid.
    unfold g, F. destruct (task_id y =? taskId) eqn:Ey.
    - apply String.eqb_eq in Ey. rewrite (Hsame y Hy Ey). simpl.
      now rewrite Hboard, !String.eqb_refl, Z.eqb_refl.
    - destruct (task_column_id y =? c) eqn:Cy; simpl; rewrite ?Cy;
        [destruct (Z.leb_spec i (task_position y)); simpl; rewrite ?Cy |];
        destruct (task_board_id y =? boardId); simpl;
        try reflexivity; apply Z.eqb_neq; lia. }
  assert (Hothers : forall y, In y (l1 ++ l2) -> task_position y <> task_position X).
  { rewrite (filter_length_perm _ _ _ Hperm) in Hone.
    rewrite filter_app in Hone. simpl in Hone.
    rewrite Z.eqb_refl, length_app in Hone. simpl in Hone.
    intros y Hy. apply in_app_or in Hy.
    assert (Hy' : (task_position y =? i)%Z = false).
    { destruct Hy as [Hy | Hy].
      - apply (filter_none_forall (fun z => (task_position z =? i)%Z) l1);
          [lia | exact Hy].
      - apply (filter_none_forall (fun z => (task_position z =? i)%Z) l2);
          [lia | exact Hy]. }
    apply Z.eqb_neq in Hy'. exact Hy'. }
  assert (Hrank : List.length l1 = below).
  { rewrite <- (sorted_rank task_position l1 X l2).
    - rewrite <- (filter_length_perm _ _ _ Hperm).
      unfold L. rewrite filter_filter_map_length. unfold below.
      f_equal. apply filter_ext_in. intros y Hy.
      change (task_position X) with i.
      unfold g, F. destruct (task_id y =? taskId) eqn:Ey.
      + apply String.eqb_eq in Ey. rewrite (Hsame y Hy Ey). simpl.
        rewrite Z.ltb_irrefl. now rewrite !andb_false_r.
      + destruct (task_column_id y =? c) eqn:Cy; simpl; rewrite ?Cy;
          [destruct (Z.leb_spec i (task_position y)); simpl; rewrite ?Cy |];
          destruct (task_board_id y =? boardId); simpl;
          try reflexivity;
          destruct (Z.ltb_spec (task_position y) i);
          destruct (Z.ltb_spec (task_position y + 1) i);
          try reflexivity; lia.
    - rewrite <- Hsplit. apply stable_sort_by_key;
        [exact listed_before_le | exact not_listed_before_ge].
    - exact Hothers. }
  rewrite Hsplit, <- Hrank.
  rewrite nth_error_app2 by lia. now rewrite Nat.sub_diag.
Qed.

End ListingFacts.

(** A closed instance: moving C to index 1 of its own column lists it
    second, after A and before B. *)
Lemma moved_task_is_listed_after_lower_positions_witness :
  nth_error
    (Server.column_listing
       (fst (Server.moveTask "alice" "b1" "C"
               (Server.mkMoveBody (Some "todo") (Some 1%Z)) later todo_board))
       "alice" "b1" "todo")
    1
  = Some (Server.mkTask "C" "todo" "b1" "C" EmptyString None "none" [] 1 None
                        "2024-01-01 00:00:00" "2024-01-02 00:00:00").
Proof.
  refine (moved_task_is_listed_after_lower_positions todo_board "alice" "b1" "C" "todo"
            1 later (card "C" "todo" 2)
            (Server.mkColumn "todo" "b1" "Todo" 0 "#6366f1"
               "2024-01-01 00:00:00" "2024-01-01 00:00:00")
            _ eq_refl eq_refl _ eq_refl eq_refl _).
  - unfold primary_key. simpl. distinct_numbers.
  - discriminate.
  - intros x Hx _ _. simpl in Hx. unfold shiftable.
    destruct Hx as [<- | [<- | [<- | [<- | []]]]]; simpl; lia.
Defined.

(** C9 as stated fails: on the board with A, B, C at 0, 1, 2, moving A
    to index 2 of the same column lists the column as B, A, C, so A is
    at index 1 of the listing and C is at index 2. *)
Lemma moved_task_is_not_at_its_index :
  let listing :=
    Server.column_listing
      (fst (Server.moveTask "alice" "b1" "A"
              (Server.mkMoveBody (Some "todo") (Some 2%Z)) later todo_board))
      "alice" "b1" "todo" in
  map (fun x => (Server.task_id x, Server.task_position x)) listing
  = [("B", 1%Z); ("A", 2%Z); ("C", 3%Z)]
  /\ option_map Server.task_id (nth_error listing 2) <> Some "A".
Proof.
  split; [reflexivity | discriminate].
Qed.

(** ** The client hook *)

Lemma connectWs_never_fetches h :
  filter Client.is_fetch (snd (Client.connectWs h)) = [].
Proof. unfold Client.connectWs. now destruct (Js.truthy (Client.token h)). Qed.

Lemma step_fetches h e :
  List.length (filter Client.is_fetch (snd (Client.step h e)))
  = if is_mount e then 1 else 0.
Proof.
  destruct e; simpl; try reflexivity.
  - pose proof (connectWs_never_fetches h) as H.
    destruct (Client.connectWs h) as [h' opened]. simpl in *.
    now rewrite filter_app, H.
  - now destruct (Client.wsRef h).
  - now destruct ok.
  - now rewrite connectWs_never_fetches.
Qed.

Lemma change_fetches h c :
  List.length (filter Client.is_fetch (snd (Client.change h c)))
  = if calls_fetch c then 1 else 0.
Proof.
  destruct c as [e | token' | token0 |]; cbn [Client.change calls_fetch].
  - apply step_fetches.
  - pose proof (step_fetches h Client.Unmounted) as H1.
    destruct (Client.step h Client.Unmounted) as [h1 cleanup].
    pose proof (step_fetches (Client.with_token h1 token') Client.Mounted) as H2.
    destruct (Client.step (Client.with_token h1 token') Client.Mounted) as [h2 effect].
    cbn [snd is_mount] in *. now rewrite filter_app, length_app, H1, H2.
  - pose proof (step_fetches (Client.with_token h token0) Client.TimerFired) as H1.
    destruct (Client.step (Client.with_token h token0) Client.TimerFired) as [h1 opened].
    exact H1.
  - reflexivity.
Qed.

(** C5, as the code has it.  The effect asks for the first page of
    notifications before it asks for the socket, when the hook mounts
    and again after every change of [token] or [wsUrl].  Entering the
    connected state, whether for the first time or after a
    disconnection, asks for nothing: it sets [connected], resets the
    back-off delay and leaves the cached notifications and everything
    else as they are.  Over any sequence of events, renders with new
    props, timers and calls of [refresh], the hook fetches exactly once
    per run of the effect and once per [refresh]. *)
Theorem fetch_happens_on_mount_only :
  (forall h,
      snd (Client.step h Client.Mounted)
      = (Client.FetchNotifications :: snd (Client.connectWs h) ++ [Client.StartPing])%list)
  /\ (forall h token',
         snd (Client.change h (Client.PropsChanged token'))
         = (snd (Client.step h Client.Unmounted)
              ++ Client.FetchNotifications
                   :: snd (Client.connectWs
                             (Client.with_token (fst (Client.step h Client.Unmounted))
                                                token'))
              ++ [Client.StartPing])%list)
  /\ (forall h,
         Client.step h Client.SocketOpen
         = (Client.mkHook (Client.token h) (Client.notifications h)
                          (Client.unreadCount h) true Client.WS_RECONNECT_BASE_MS
                          (Client.reconnectTimer h) (Client.wsRef h), []))
  /\ (forall h cs,
         List.length (filter Client.is_fetch (snd (Client.changes h cs)))
         = List.length (filter calls_fetch cs)).
Proof.
  split.
  { intro h. simpl. now destruct (Client.connectWs h). }
  split.
  { intros h token'. cbn [Client.change].
    destruct (Client.step h Client.Unmounted) as [h1 cleanup]. cbn [fst snd].
    cbn [Client.step].
    now destruct (Client.connectWs (Client.with_token h1 token')). }
  split; [reflexivity |].
  intros h cs. revert h.
  induction cs as [| c cs IH]; intro h; simpl; [reflexivity |].
  pose proof (change_fetches h c) as Hstep.
  destruct (Client.change h c) as [h1 effects1].
  specialize (IH h1).
  destruct (Client.changes h1 cs) as [h2 effects2].
  simpl in *. rewrite filter_app, length_app, Hstep, IH.
  now destruct (calls_fetch c).
Qed.

(** C5 as stated fails: the hook connects twice but fetches once, and
    after the reconnection its cache holds only the pushed notification
    while the server holds, for the same user, also the one stored
    during the disconnection. *)
Lemma reconnection_does_not_refetch :
  let h := fst (Client.run (Client.initial (Some "jwt")) reconnection) in
  let effects := snd (Client.run (Client.initial (Some "jwt")) reconnection) in
  effects = [Client.FetchNotifications; Client.OpenSocket; Client.StartPing;
             Client.SetTimeout 1000; Client.OpenSocket]
  /\ Client.connected h = true
  /\ Client.notifications h = [pushed]
  /\ option_map (fun srv => map (fun e => (fst e, map Ws.ws_sent (snd e)))
                                (Realtime.clients srv))
                (Notifications.wsServer server_at_the_end)
     = Some [("user-alice",
              [[Wire.ConnectionAck "user-alice" 3000; Wire.NotificationNew pushed]])]
  /\ Notifications.getForUser "user-alice" None server_at_the_end = [pushed; missed]
  /\ Client.notifications h
     <> Notifications.getForUser "user-alice" None server_at_the_end.
Proof.
  repeat split; try reflexivity. discriminate.
Qed.

(** * Further properties *)

(** ** Notification ids *)

Section IdFacts.

Import Wire Notifications.

Variable JSON_stringify : EventPayload -> string.


Lemma NoDup_map_filter {Row Key : Type} (key : Row -> Key) (keep : Row -> bool)
  (rows : list Row) (Hkeys : NoDup (map key rows)) :
  NoDup (map key (filter keep rows)).
Proof.
  induction rows as [| r rows IH]; simpl in *; [constructor |].
  inversion Hkeys as [| ? ? Hnotin Hnd]; subst.
  destruct (keep r); simpl; [| now apply IH].
  constructor; [| now apply IH].
  intro Hin. apply Hnotin. apply in_map_iff in Hin.
  destruct Hin as [b [Hb Hin]]. apply filter_In in Hin.
  apply in_map_iff. exists b. tauto.
Qed.














End IdFacts.

(** ** Reading and clearing *)

Section ReadFacts.

Import Wire Notifications.

Lemma mark_each_unread_of (test : Notification -> bool) now ns (p : Notification -> bool) :
  (forall n, p (Db.mark n now) = false) ->
  List.length (filter p (fst (Db.mark_each test now ns)))
  = List.length (filter (fun n => p n && negb (test n)) ns).
Proof.
  intro Hp. induction ns as [| n ns IH]; simpl; [reflexivity |].
  destruct (Db.mark_each test now ns) as [rest count]; simpl in *.
  destruct (test n); simpl.
  - rewrite Hp, andb_false_r. exact IH.
  - rewrite andb_true_r. destruct (p n); simpl; now rewrite IH.
Qed.

(** X3. [markAllRead(u)] returns the number of unread notifications of
    [u]; afterwards [u] has none unread, and the unread count of every
    other user is what it was. *)
Theorem markAllRead_clears_own_badge (u : string) (now : Z) (svc : NotificationService) :
  fst (markAllRead u now svc) = unreadCount u svc
  /\ forall v,
       unreadCount v (snd (markAllRead u now svc))
       = if v =? u then 0 else unreadCount v svc.
Proof.
  unfold markAllRead, Db.markAllRead, unreadCount, Db.countUnread.
  set (test := fun n => (n_userId n =? u) && negb (n_read n)).
  pose proof (mark_each_count test now (Db.memoryStore (db svc))) as Hc.
  assert (Hv : forall v,
             List.length
               (filter (fun n => (n_userId n =? v) && negb (n_read n))
                       (fst (Db.mark_each test now (Db.memoryStore (db svc)))))
             = List.length
                 (filter (fun n => ((n_userId n =? v) && negb (n_read n)) && negb (test n))
                         (Db.memoryStore (db svc)))).
  { intro v. apply mark_each_unread_of. intro n. simpl. now rewrite andb_false_r. }
  destruct (Db.mark_each test now (Db.memoryStore (db svc))) as [ns count].
  simpl in *. split; [exact Hc |].
  intro v. rewrite Hv. destruct (String.eqb_spec v u) as [-> | Hne].
  - rewrite <- (filter_ext (fun _ => false)); [now rewrite filter_false |].
    intro n. unfold test. now destruct ((n_userId n =? u) && negb (n_read n)).
  - f_equal. apply filter_ext. intro n. unfold test.
    destruct (String.eqb_spec (n_userId n) v) as [-> | Hv']; simpl; [| reflexivity].
    apply String.eqb_neq in Hne. rewrite Hne. simpl. now rewrite andb_true_r.
Qed.

Lemma Forall2_In_right {A B : Type} (R : A -> B -> Prop) (l : list A) (l' : list B) y :
  Forall2 R l l' -> In y l' -> exists x, In x l /\ R x y.
Proof.
  induction 1 as [| a b l l' Hab _ IH]; simpl; intro Hy; [contradiction |].
  destruct Hy as [<- | Hy].
  - exists a. auto.
  - destruct (IH Hy) as [x [Hx Hr]]. exists x. auto.
Qed.

Lemma filter_idempotent {A : Type} (p : A -> bool) (l : list A) :
  filter p (filter p l) = filter p l.
Proof.
  induction l as [| a l IH]; simpl; [reflexivity |].
  destruct (p a) eqn:E; simpl; [rewrite E |]; now rewrite IH.
Qed.

Lemma mark_each_nothing (test : Notification -> bool) now ns :
  (forall n, In n ns -> test n = false) ->
  Db.mark_each test now ns = (ns, 0).
Proof.
  induction ns as [| n ns IH]; simpl; intro H; [reflexivity |].
  rewrite IH by (intros m Hm; apply H; now right).
  now rewrite (H n (or_introl eq_refl)).
Qed.

(** X4. Marking the same ids read a second time changes nothing in the
    store and reports 0 updates. *)
Theorem markRead_twice_is_markRead_once
  (u : string) (ids : list string) (now later : Z) (svc : NotificationService) :
  fst (markRead u ids later (snd (markRead u ids now svc))) = 0
  /\ db (snd (markRead u ids later (snd (markRead u ids now svc))))
     = db (snd (markRead u ids now svc)).
Proof.
  unfold markRead at 2 4 5. unfold Db.markRead.
  pose proof (mark_each_pointwise (Db.to_mark ids u) now (Db.memoryStore (db svc))) as Hpt.
  destruct (Db.mark_each (Db.to_mark ids u) now (Db.memoryStore (db svc))) as [ns count].
  simpl in Hpt. unfold markRead, Db.markRead. cbn [snd db Db.memoryStore Db.nextId].
  rewrite mark_each_nothing; [split; reflexivity |].
  intros n' Hn'.
  destruct (Forall2_In_right _ _ _ _ Hpt Hn') as [n [_ Hn]]. subst n'.
  destruct (Db.to_mark ids u n) eqn:T; [| exact T].
  unfold Db.to_mark, Db.mark. simpl. now rewrite andb_false_r.
Qed.

(** X5. [clearAll(u)] returns the number of notifications of [u] and
    removes exactly those: afterwards every listing and unread count of
    [u] is empty, every listing and unread count of any other user is
    what it was, and clearing again removes nothing. *)
Theorem clearAll_removes_only_own (u : string) (svc : NotificationService) :
  fst (clearAll u svc)
  = List.length (filter (fun n => n_userId n =? u) (Db.memoryStore (db svc)))
  /\ (forall v opts,
         getForUser v opts (snd (clearAll u svc))
         = if v =? u then [] else getForUser v opts svc)
  /\ (forall v,
         unreadCount v (snd (clearAll u svc))
         = if v =? u then 0 else unreadCount v svc)
  /\ fst (clearAll u (snd (clearAll u svc))) = 0.
Proof.
  unfold clearAll, Db.deleteForUser. cbn [fst snd db Db.memoryStore Db.nextId].
  set (store := Db.memoryStore (db svc)).
  assert (Hothers : forall v (q : Notification -> bool),
             filter (fun n => (n_userId n =? v) && q n)
                    (filter (fun n => negb (n_userId n =? u)) store)
             = if v =? u then []
               else filter (fun n => (n_userId n =? v) && q n) store).
  { intros v q. induction store as [| n l IH]; simpl.
    - now destruct (v =? u).
    - destruct (String.eqb_spec (n_userId n) u) as [Hu | Hu]; simpl.
      + rewrite IH. destruct (String.eqb_spec v u) as [-> | Hvu]; [reflexivity |].
        destruct (String.eqb_spec (n_userId n) v); [congruence | reflexivity].
      + rewrite IH. destruct (String.eqb_spec v u) as [-> | Hvu].
        * destruct (String.eqb_spec (n_userId n) u); [contradiction | reflexivity].
        * reflexivity. }
  split.
  { pose proof (filter_length (fun n => n_userId n =? u) store). lia. }
  split.
  { intros v opts. unfold getForUser, Db.findByUser. cbn [db Db.memoryStore].
    pose proof (Hothers v (fun _ => true)) as H.
    rewrite (filter_ext _ (fun n => n_userId n =? v)) in H
      by (intro n; apply andb_true_r).
    rewrite (filter_ext (fun n => (n_userId n =? v) && true) (fun n => n_userId n =? v)
                        (fun n => andb_true_r _) store) in H.
    rewrite H. destruct (v =? u); [| reflexivity].
    simpl. destruct (Js.nullish (Db.unreadOnly (Js.nullish opts Db.no_options)) false);
      simpl; unfold Js.slice; now rewrite skipn_nil, firstn_nil. }
  split.
  { intro v. unfold unreadCount, Db.countUnread. cbn [db Db.memoryStore].
    rewrite (Hothers v (fun n => negb (n_read n))). now destruct (v =? u). }
  rewrite filter_idempotent. lia.
Qed.

End ReadFacts.

(** ** Listings *)

Section PageFacts.

Import Wire Notifications.

Lemma StronglySorted_weaken {A : Type} (R S : A -> A -> Prop) (l : list A) :
  (forall a b, R a b -> S a b) -> StronglySorted R l -> StronglySorted S l.
Proof.
  intros HRS. induction 1 as [| a l Hl IH Ha]; constructor; auto.
  eapply Forall_impl; [| exact Ha]. auto.
Qed.

Lemma StronglySorted_skipn {A : Type} (R : A -> A -> Prop) (n : nat) (l : list A) :
  StronglySorted R l -> StronglySorted R (skipn n l).
Proof.
  revert l. induction n as [| n IH]; intros l H; [exact H |].
  destruct l as [| a l]; [exact H |].
  simpl. apply IH. now inversion H.
Qed.

Lemma In_firstn {A : Type} (n : nat) (l : list A) x : In x (firstn n l) -> In x l.
Proof.
  revert l. induction n as [| n IH]; intros l H; [contradiction |].
  destruct l as [| a l]; [contradiction |].
  destruct H as [-> | H]; [now left | right; now apply IH].
Qed.

Lemma In_skipn {A : Type} (n : nat) (l : list A) x : In x (skipn n l) -> In x l.
Proof.
  revert l. induction n as [| n IH]; intros l H; [exact H |].
  destruct l as [| a l]; [contradiction |]. right. now apply IH.
Qed.

Lemma StronglySorted_firstn {A : Type} (R : A -> A -> Prop) (n : nat) (l : list A) :
  StronglySorted R l -> StronglySorted R (firstn n l).
Proof.
  revert l. induction n as [| n IH]; intros l H; [constructor |].
  destruct l as [| a l]; [constructor |].
  inversion H as [| ? ? Hl Ha]; subst. simpl. constructor; [now apply IH |].
  rewrite Forall_forall in *. intros x Hx. apply Ha. now apply (In_firstn n).
Qed.

Lemma In_slice {A : Type} (offset limit : nat) (xs : list A) x :
  In x (Js.slice offset limit xs) -> In x xs.
Proof.
  unfold Js.slice. intro H.
  apply (In_skipn offset). now apply (In_firstn limit).
Qed.

(** X6. A page returned by [getForUser(u, opts)] holds only stored
    notifications of [u], at most [limit] of them (50 by default),
    newest first, and only unread ones when [unreadOnly] is set. *)
Theorem getForUser_page (u : string) (opts : option Db.FindOptions)
  (svc : NotificationService) :
  let o := Js.nullish opts Db.no_options in
  let page := getForUser u opts svc in
  Forall (fun n => n_userId n = u /\ In n (Db.memoryStore (db svc))) page
  /\ List.length page <= Js.nullish (Db.limit o) 50
  /\ StronglySorted (fun a b => (n_createdAt b <= n_createdAt a)%Z) page
  /\ Forall (fun n => n_read n && Js.nullish (Db.unreadOnly o) false = false) page.
Proof.
  intros o page. subst page. unfold getForUser, Db.findByUser. fold o.
  set (mine := filter (fun n => n_userId n =? u) (Db.memoryStore (db svc))).
  set (wanted := if Js.nullish (Db.unreadOnly o) false
                 then filter (fun n => negb (n_read n)) mine else mine).
  assert (Hwanted : forall n, In n wanted -> In n mine).
  { intros n. unfold wanted.
    destruct (Js.nullish (Db.unreadOnly o) false); [| auto].
    intro H. apply filter_In in H. tauto. }
  split.
  { apply Forall_forall. intros n Hn.
    apply In_slice, stable_sort_In, Hwanted, filter_In in Hn.
    destruct Hn as [Hin Hu]. apply String.eqb_eq in Hu. auto. }
  split.
  { unfold Js.slice. apply firstn_le_length. }
  split.
  { unfold Js.slice. apply StronglySorted_firstn, StronglySorted_skipn.
    apply (StronglySorted_weaken
             (fun a b => (- n_createdAt a <= - n_createdAt b)%Z)); [intros; lia |].
    apply (stable_sort_by_key Db.newer (fun n => (- n_createdAt n)%Z));
      unfold Db.newer; intros a b H.
    - apply Z.ltb_lt in H. lia.
    - apply Z.ltb_ge in H. lia. }
  apply Forall_forall. intros n Hn.
  apply In_slice, stable_sort_In in Hn. unfold wanted in Hn.
  destruct (Js.nullish (Db.unreadOnly o) false); [| apply andb_false_r].
  apply filter_In in Hn. destruct Hn as [_ Hn].
  apply negb_true_iff in Hn. now rewrite Hn.
Qed.

End PageFacts.

(** ** What an event adds *)

Section EmitFacts.

Import Wire Notifications.

Variable JSON_stringify : EventPayload -> string.

Lemma notify_record userId type p now svc content :
  content_for JSON_stringify type p = Some content ->
  exists n,
    fst (notify JSON_stringify userId type p now svc) = Some n
    /\ Db.memoryStore (db (snd (notify JSON_stringify userId type p now svc)))
       = (Db.memoryStore (db svc) ++ [n])%list
    /\ n_userId n = userId
    /\ stamped type p now n.
Proof.
  intro H. unfold notify, stamped. rewrite H. unfold deliver. simpl.
  eexists. repeat split.
Qed.

Lemma notify_each_added keep userIds type p now svc content :
  content_for JSON_stringify type p = Some content ->
  exists added,
    Db.memoryStore (db (notify_each JSON_stringify keep userIds type p now svc))
    = (Db.memoryStore (db svc) ++ added)%list
    /\ map n_userId added = filter keep userIds
    /\ Forall (stamped type p now) added.
Proof.
  intro Hcontent. unfold notify_each. revert svc.
  induction userIds as [| uid rest IH]; intro svc.
  - exists []. simpl. rewrite app_nil_r. repeat split. constructor.
  - cbn [fold_left filter]. destruct (keep uid) eqn:K.
    + destruct (IH (snd (notify JSON_stringify uid type p now svc)))
        as [added [Hstore [Hids Hall]]].
      destruct (notify_record uid type p now svc content Hcontent)
        as [n [_ [Happ [Huid Hst]]]].
      exists (n :: added).
      split; [| split].
      * rewrite Hstore, Happ, <- app_assoc. reflexivity.
      * cbn [map]. now rewrite Huid, Hids.
      * now constructor.
    + exact (IH svc).
Qed.

(** X7. Emitting an event never changes or removes a stored
    notification: the store afterwards is the store before followed by
    the new notifications, each of which is unread, carries the event's
    payload and time, and has the event name as its type. *)
Theorem emit_only_appends (ev : string) (p : EventPayload) (now : Z) (sys : System) :
  exists added,
    Db.memoryStore (db (service (emit JSON_stringify ev p now sys)))
    = (Db.memoryStore (db (service sys)) ++ added)%list
    /\ Forall (fun n => n_type n = ev /\ n_meta n = p /\ n_read n = false
                        /\ n_createdAt n = now /\ n_readAt n = None) added.
Proof.
  unfold emit. cbn [service]. unfold listeners.
  assert (Hone : forall uid type content,
             content_for JSON_stringify type p = Some content ->
             exists added,
               Db.memoryStore (db (snd (notify JSON_stringify uid type p now (service sys))))
               = (Db.memoryStore (db (service sys)) ++ added)%list
               /\ Forall (stamped type p now) added).
  { intros uid type content Hcontent.
    destruct (notify_record uid type p now (service sys) content Hcontent)
      as [n [_ [Happ [_ Hst]]]].
    eexists. split; [exact Happ |]. constructor; [exact Hst | constructor]. }
  assert (Hnone : exists added : list Notification,
             Db.memoryStore (db (service sys))
             = (Db.memoryStore (db (service sys)) ++ added)%list
             /\ Forall (stamped ev p now) added).
  { exists []. rewrite app_nil_r. split; [reflexivity | constructor]. }
  destruct (String.eqb_spec ev "task:assigned") as [-> | _].
  { unfold on_task_assigned.
    destruct (Js.truthy (assigneeId p));
      [exact (Hone _ TASK_ASSIGNED _ eq_refl) | exact Hnone]. }
  destruct (String.eqb_spec ev "task:completed") as [-> | _].
  { unfold on_task_completed.
    destruct (notify_each_added (fun _ => true) (Js.nullish (watcherIds p) [])
                TASK_COMPLETED p now (service sys) _ eq_refl) as [added [H1 [_ H2]]].
    exists added. auto. }
  destruct (String.eqb_spec ev "task:commented") as [-> | _].
  { unfold on_task_commented.
    destruct (notify_each_added (not_author p) (Js.nullish (subscriberIds p) [])
                TASK_COMMENTED p now (service sys) _ eq_refl) as [added [H1 [_ H2]]].
    exists added. auto. }
  destruct (String.eqb_spec ev "task:due_soon") as [-> | _].
  { unfold on_task_due_soon.
    destruct (Js.truthy (assigneeId p));
      [exact (Hone _ TASK_DUE_SOON _ eq_refl) | exact Hnone]. }
  destruct (String.eqb_spec ev "mention") as [-> | _].
  { unfold on_mention.
    destruct (Js.truthy (mentionedUserId p));
      [exact (Hone _ MENTION _ eq_refl) | exact Hnone]. }
  exact Hnone.
Qed.

(** X8. A [task:commented] event stores one notification for each
    subscriber other than the comment's author, in the order of
    [subscriberIds], and none for the author. *)
Theorem comment_event_recipients (p : EventPayload) (now : Z) (sys : System) :
  exists added,
    Db.memoryStore (db (service (emit JSON_stringify "task:commented" p now sys)))
    = (Db.memoryStore (db (service sys)) ++ added)%list
    /\ map n_userId added
       = filter (fun uid => match authorId p with
                            | Some a => negb (uid =? a)
                            | None => true
                            end)
                (match subscriberIds p with Some ids => ids | None => [] end).
Proof.
  destruct (notify_each_added (not_author p) (Js.nullish (subscriberIds p) [])
              TASK_COMMENTED p now (service sys) _ eq_refl) as [added [H1 [H2 _]]].
  exists added. split; [exact H1 | exact H2].
Qed.

(** X9. A [task:completed] event stores one notification for every id
    in [watcherIds], in order, whoever completed the task. *)
Theorem completion_event_recipients (p : EventPayload) (now : Z) (sys : System) :
  exists added,
    Db.memoryStore (db (service (emit JSON_stringify "task:completed" p now sys)))
    = (Db.memoryStore (db (service sys)) ++ added)%list
    /\ map n_userId added = match watcherIds p with Some ids => ids | None => [] end.
Proof.
  destruct (notify_each_added (fun _ => true) (Js.nullish (watcherIds p) [])
              TASK_COMPLETED p now (service sys) _ eq_refl) as [added [H1 [H2 _]]].
  exists added. split; [exact H1 |].
  rewrite H2. unfold Js.nullish.
  clear. induction (match watcherIds p with Some a => a | None => [] end);
    simpl; congruence.
Qed.

(** X10. For a type that is not one of the names that [templates]
    inherits from [Object.prototype], [notifyMany] stores and returns
    one notification per listed user id, in order, all of the requested
    type and unread. *)
Theorem notifyMany_one_each (userIds : list string) (type : string)
  (p : EventPayload) (now : Z) (svc : NotificationService) :
  Js.includes inherited_members type = false ->
  exists ns,
    fst (notifyMany JSON_stringify userIds type p now svc) = Some ns
    /\ Db.memoryStore (db (snd (notifyMany JSON_stringify userIds type p now svc)))
       = (Db.memoryStore (db svc) ++ ns)%list
    /\ map n_userId ns = userIds
    /\ Forall (fun n => n_type n = type /\ n_read n = false) ns.
Proof.
  intro Htype.
  destruct (content_for_defined JSON_stringify type p Htype) as [content Hcontent].
  revert svc. induction userIds as [| uid rest IH]; intro svc.
  - exists []. simpl. rewrite app_nil_r. repeat split. constructor.
  - cbn [notifyMany].
    destruct (notify_record uid type p now svc _ Hcontent)
      as [n [Hn [Happ [Huid Hst]]]].
    destruct (notify JSON_stringify uid type p now svc) as [n0 svc1].
    cbn [fst snd] in Hn, Happ. subst n0.
    destruct (IH svc1) as [ns [Hns [IH1 [IH2 IH3]]]].
    destruct (notifyMany JSON_stringify rest type p now svc1) as [ns0 svc2].
    cbn [fst snd] in *. subst ns0.
    exists (n :: ns). split; [reflexivity |]. split; [| split].
    + rewrite IH1, Happ, <- app_assoc. reflexivity.
    + simpl. now rewrite Huid, IH2.
    + constructor; [| exact IH3]. unfold stamped in Hst. tauto.
Qed.

(** ** The event history *)

Lemma emit_history ev p now sys :
  exists older,
    _history (emit JSON_stringify ev p now sys) = (older ++ [mkEnvelope ev p now])%list
    /\ (List.length older <= List.length (_history sys))
    /\ (List.length (_history sys) < _maxHistory -> older = _history sys).
Proof.
  unfold emit. cbn [_history].
  destruct (_maxHistory <? List.length (_history sys ++ [mkEnvelope ev p now]))%nat eqn:E.
  - apply Nat.ltb_lt in E. rewrite length_app in E. simpl in E.
    destruct (_history sys) as [| e0 h] eqn:Hh.
    + unfold _maxHistory in E. simpl in E. lia.
    + exists h. simpl. repeat split; [lia |].
      intro H. simpl in *. unfold _maxHistory in *. exfalso. clear - E H. lia.
  - exists (_history sys). repeat split. lia.
Qed.

(** X11. The history never holds more than 200 envelopes, whatever is
    emitted or called from the start. *)
Theorem history_is_bounded (cs : list Call) :
  List.length (_history (calls JSON_stringify cs fresh_system)) <= 200.
Proof.
  assert (H : forall sys,
             List.length (_history sys) <= 200 ->
             List.length (_history (calls JSON_stringify cs sys)) <= 200).
  { unfold calls. induction cs as [| c cs IH]; intros sys Hs; [exact Hs |].
    cbn [fold_left]. apply IH.
    destruct c as [ev p now | uid ty p now | uids ty p now | uid ids now
                   | uid now | uid | ws t | ws]; cbn [call _history]; auto.
    unfold emit. cbn [_history].
    destruct (_maxHistory <? List.length (_history sys ++ [mkEnvelope ev p now]))%nat eqn:E.
    - destruct (_history sys) as [| e0 h]; simpl in *; [lia |].
      rewrite length_app. simpl. lia.
    - apply Nat.ltb_ge in E. exact E. }
  apply H. simpl. lia.
Qed.

(** X12. Right after an event is emitted, [recentEvents(n)] for any
    [n >= 1] ends with that event's envelope, preceded by at most
    [n - 1] older ones. *)
Theorem latest_event_is_recent (ev : string) (p : EventPayload) (now : Z)
  (sys : System) (k : nat) :
  exists older,
    recentEvents (S k) (emit JSON_stringify ev p now sys)
    = (older ++ [mkEnvelope ev p now])%list
    /\ List.length older <= k.
Proof.
  destruct (emit_history ev p now sys) as [x [Hx _]].
  unfold recentEvents. cbn [Nat.eqb]. rewrite Hx.
  exists (skipn (List.length x - k) x). split.
  - rewrite length_app. simpl. rewrite skipn_app.
    replace (List.length x + 1 - S k) with (List.length x - k) by lia.
    replace (List.length x - k - List.length x) with 0 by lia.
    reflexivity.
  - rewrite length_skipn. lia.
Qed.

End EmitFacts.

(** A closed instance: a system notice for Alice and Bob. *)
Lemma notifyMany_one_each_witness :
  exists ns,
    fst (Notifications.notifyMany (fun _ => "{}") ["user-alice"; "user-bob"]
           Notifications.SYSTEM Wire.no_payload 1000
           (Notifications.service fresh_system)) = Some ns
    /\ map Wire.n_userId ns = ["user-alice"; "user-bob"].
Proof.
  destruct (notifyMany_one_each (fun _ => "{}") ["user-alice"; "user-bob"]
              Notifications.SYSTEM Wire.no_payload 1000
              (Notifications.service fresh_system) eq_refl)
    as [ns [Hns [_ [Hids _]]]].
  exists ns. split; [exact Hns | exact Hids].
Defined.

(** ** The registry of the real-time server *)

Section RegistryFacts.

Context {F : Type}.

Lemma registry_get_In (u : string) (m : Ws.Registry F) v :
  Ws.get u m = Some v -> In (u, v) m.
Proof.
  induction m as [| [k v0] m IH]; simpl; [discriminate |].
  destruct (String.eqb_spec k u) as [-> | _].
  - intro H. injection H as ->. now left.
  - intro H. right. now apply IH.
Qed.

Lemma registry_get_None (u : string) (m : Ws.Registry F) :
  Ws.get u m = None <-> ~ In u (map fst m).
Proof.
  induction m as [| [k v0] m IH]; simpl; [tauto |].
  destruct (String.eqb_spec k u) as [-> | Hne].
  - split; [discriminate | intro H; exfalso; apply H; now left].
  - rewrite IH. split; [intros H [E | E]; auto | intros H E; apply H; now right].
Qed.

Lemma registry_set_absent (u : string) v (m : Ws.Registry F) :
  Ws.get u m = None -> Ws.set u v m = (m ++ [(u, v)])%list.
Proof.
  induction m as [| [k v0] m IH]; simpl; [reflexivity |].
  destruct (k =? u); [discriminate |]. intro H. now rewrite IH.
Qed.

Lemma registry_set_keys (u : string) v v0 (m : Ws.Registry F) :
  Ws.get u m = Some v0 -> map fst (Ws.set u v m) = map fst m.
Proof.
  induction m as [| [k w] m IH]; simpl; [discriminate |].
  destruct (k =? u); simpl; [reflexivity |]. intro H. now rewrite IH.
Qed.

Lemma registry_set_Forall (P : string * list (Ws.WebSocket F) -> Prop) u v
  (m : Ws.Registry F) :
  Forall P m -> P (u, v) -> Forall P (Ws.set u v m).
Proof.
  intros Hm Hv. induction m as [| [k w] m IH]; simpl.
  - constructor; [exact Hv | constructor].
  - inversion Hm; subst. destruct (String.eqb_spec k u) as [-> | _].
    + constructor; assumption.
    + constructor; auto.
Qed.

Lemma registry_set_set (u : string) v v' (m : Ws.Registry F) :
  Ws.set u v' (Ws.set u v m) = Ws.set u v' m.
Proof.
  induction m as [| [k w] m IH]; simpl.
  - now rewrite String.eqb_refl.
  - destruct (k =? u) eqn:E; simpl; rewrite E; [reflexivity | now rewrite IH].
Qed.

Lemma registry_set_same (u : string) v (m : Ws.Registry F) :
  Ws.get u m = Some v -> Ws.set u v m = m.
Proof.
  induction m as [| [k w] m IH]; simpl; [discriminate |].
  destruct (String.eqb_spec k u) as [-> | _].
  - intro H. now injection H as ->.
  - intro H. now rewrite IH.
Qed.

Lemma registry_delete_appended (u : string) v (m : Ws.Registry F) :
  Ws.get u m = None -> Ws.delete u (m ++ [(u, v)])%list = m.
Proof.
  induction m as [| [k w] m IH]; simpl.
  - now rewrite String.eqb_refl.
  - destruct (k =? u); [discriminate |]. intro H. now rewrite IH.
Qed.

Lemma registry_delete_In (u x : string) (m : Ws.Registry F) :
  In x (map fst (Ws.delete u m)) -> In x (map fst m).
Proof.
  induction m as [| [k w] m IH]; simpl; [tauto |].
  destruct (k =? u); simpl; [now right |].
  intros [H | H]; [now left | right; now apply IH].
Qed.

Lemma registry_delete_keys (u : string) (m : Ws.Registry F) :
  NoDup (map fst m) -> NoDup (map fst (Ws.delete u m)).
Proof.
  induction m as [| [k w] m IH]; simpl; intro H; [constructor |].
  inversion H as [| ? ? Hnotin Hnd]; subst.
  destruct (k =? u); [exact Hnd |]. simpl. constructor; [| now apply IH].
  intro Hin. apply Hnotin. now apply (registry_delete_In u).
Qed.

Lemma registry_delete_Forall (P : string * list (Ws.WebSocket F) -> Prop) u
  (m : Ws.Registry F) : Forall P m -> Forall P (Ws.delete u m).
Proof.
  induction 1 as [| [k w] m Hk Hm IH]; simpl; [constructor |].
  destruct (k =? u); [exact Hm | now constructor].
Qed.

Lemma registry_set_NoDup (u : string) v (m : Ws.Registry F) :
  NoDup (map fst m) -> NoDup (map fst (Ws.set u v m)).
Proof.
  intro H. destruct (Ws.get u m) as [v0 |] eqn:G.
  - now rewrite (registry_set_keys u v v0 m G).
  - rewrite (registry_set_absent u v m G), map_app. simpl.
    apply NoDup_app_remove_l with (l := []). simpl.
    apply Permutation_NoDup with (l := u :: map fst m);
      [apply Permutation_cons_append |].
    constructor; [| exact H]. now apply registry_get_None.
Qed.

End RegistryFacts.

Section RealtimeFacts.

Import Wire Realtime.

Lemma delivered_rt_id msg ws : Ws.ws_id (delivered_rt msg ws) = Ws.ws_id ws.
Proof.
  unfold delivered_rt. destruct (Ws.ws_readyState ws =? Ws.OPEN)%nat; [| reflexivity].
  now destruct (Ws.ws_throws ws).
Qed.

Lemma delivered_rt_user msg ws : Ws.ws_userId (delivered_rt msg ws) = Ws.ws_userId ws.
Proof.
  unfold delivered_rt. destruct (Ws.ws_readyState ws =? Ws.OPEN)%nat; [| reflexivity].
  now destruct (Ws.ws_throws ws).
Qed.

Lemma _send_same_socket (ws : Socket) msg log :
  Ws.ws_id (fst (_send ws msg log)) = Ws.ws_id ws
  /\ Ws.ws_userId (fst (_send ws msg log)) = Ws.ws_userId ws.
Proof. unfold _send, Ws.send. now destruct (Ws.ws_throws ws). Qed.

Lemma entry_ok_delivered msg k socks :
  entry_ok (k, socks) -> entry_ok (k, map (delivered_rt msg) socks).
Proof.
  intros [Hne [Hnd Hu]]. simpl in *. repeat split; simpl.
  - destruct socks; [contradiction | discriminate].
  - now rewrite delivered_rt_ids.
  - apply Forall_map. eapply Forall_impl; [| exact Hu].
    intros w Hw. now rewrite delivered_rt_user.
Qed.

Lemma rt_broadcast_loop_map msg ex cl log :
  fst (fst (broadcast_loop msg ex cl log))
  = map (fun e => if excluded ex e then e else (fst e, map (delivered_rt msg) (snd e))) cl.
Proof.
  revert log. induction cl as [| [k v] rest IH]; intro log; simpl; [reflexivity |].
  unfold excluded at 1. simpl.
  destruct (match ex with Some u => k =? u | None => false end).
  - specialize (IH log).
    destruct (broadcast_loop msg ex rest log) as [[rest' log'] sent].
    simpl in *. now rewrite IH.
  - pose proof (send_open_sockets msg v log) as Hv.
    destruct (send_open msg v log) as [[v' log1] n].
    specialize (IH log1).
    destruct (broadcast_loop msg ex rest log1) as [[rest' log2] sent].
    simpl in *. now rewrite Hv, IH.
Qed.

Lemma send_open_count msg socks log :
  snd (send_open msg socks log) = List.length (filter is_open socks).
Proof.
  revert log. induction socks as [| ws rest IH]; intro log; simpl; [reflexivity |].
  unfold is_open at 1.
  destruct (Ws.ws_readyState ws =? Ws.OPEN)%nat.
  - destruct (_send ws msg log) as [ws' log1]. specialize (IH log1).
    destruct (send_open msg rest log1) as [[rest' log2] sent].
    simpl in *. now rewrite IH.
  - specialize (IH log).
    destruct (send_open msg rest log) as [[rest' log2] sent].
    simpl in *. exact IH.
Qed.

Lemma rt_broadcast_loop_count msg ex cl log :
  snd (broadcast_loop msg ex cl log)
  = List.length
      (filter is_open (List.concat (map snd (filter (fun e => negb (excluded ex e)) cl)))).
Proof.
  revert log. induction cl as [| [k v] rest IH]; intro log; simpl; [reflexivity |].
  unfold excluded at 1. simpl.
  destruct (match ex with Some u => k =? u | None => false end); simpl.
  - specialize (IH log).
    destruct (broadcast_loop msg ex rest log) as [[rest' log'] sent].
    simpl in *. exact IH.
  - pose proof (send_open_count msg v log) as Hv.
    destruct (send_open msg v log) as [[v' log1] n].
    specialize (IH log1).
    destruct (broadcast_loop msg ex rest log1) as [[rest' log2] sent].
    simpl in *. rewrite filter_app, length_app. now rewrite Hv, IH.
Qed.

Lemma get_entry_ok u socks cl :
  Forall entry_ok cl -> Ws.get u cl = Some socks -> entry_ok (u, socks).
Proof.
  intros Hall Hget. apply registry_get_In in Hget.
  rewrite Forall_forall in Hall. now apply Hall.
Qed.

Lemma on_connection_ok ws t srv :
  registry_ok (clients srv) -> registry_ok (clients (on_connection ws t srv)).
Proof.
  intros [Hkeys Hall]. unfold on_connection.
  destruct (_send_same_socket ws (ConnectionAck (Ws.ws_userId ws) t) (errors srv))
    as [Hid Huser].
  destruct (_send ws (ConnectionAck (Ws.ws_userId ws) t) (errors srv)) as [ws' log].
  simpl in *. split; [now apply registry_set_NoDup |].
  apply registry_set_Forall; [exact Hall |].
  assert (Hold : Js.nullish (Ws.get (Ws.ws_userId ws) (clients srv)) [] = []
                 \/ entry_ok (Ws.ws_userId ws,
                              Js.nullish (Ws.get (Ws.ws_userId ws) (clients srv)) [])).
  { destruct (Ws.get (Ws.ws_userId ws) (clients srv)) as [s |] eqn:G; simpl.
    - right. now apply (get_entry_ok _ _ (clients srv)).
    - now left. }
  set (s := Js.nullish (Ws.get (Ws.ws_userId ws) (clients srv)) []) in *.
  unfold Ws.set_add.
  destruct (existsb (fun w => (Ws.ws_id w =? Ws.ws_id ws')%nat) s) eqn:E.
  - destruct Hold as [Hnil | Hok]; [| exact Hok].
    rewrite Hnil in E. discriminate.
  - assert (Hfresh : ~ In (Ws.ws_id ws') (map Ws.ws_id s)).
    { intro Hin. apply in_map_iff in Hin. destruct Hin as [w [Hw Hin]].
      assert (existsb (fun w => (Ws.ws_id w =? Ws.ws_id ws')%nat) s = true).
      { apply existsb_exists. exists w. split; [exact Hin |]. now apply Nat.eqb_eq. }
      congruence. }
    repeat split; simpl.
    + destruct s; discriminate.
    + rewrite map_app. simpl. apply NoDup_app_remove_l with (l := []). simpl.
      apply Permutation_NoDup with (l := Ws.ws_id ws' :: map Ws.ws_id s);
        [apply Permutation_cons_append |].
      constructor; [exact Hfresh |].
      destruct Hold as [-> | [_ [Hnd _]]]; [constructor | exact Hnd].
    + apply Forall_app. split.
      * destruct Hold as [-> | [_ [_ Hu]]]; [constructor | exact Hu].
      * constructor; [exact Huser | constructor].
Qed.

Lemma on_close_ok ws srv :
  registry_ok (clients srv) -> registry_ok (clients (on_close ws srv)).
Proof.
  intros [Hkeys Hall]. unfold on_close.
  destruct (Ws.get (Ws.ws_userId ws) (clients srv)) as [s |] eqn:G; [| now split].
  destruct (List.length (Ws.set_delete ws s) =? 0)%nat eqn:E; simpl.
  - split; [now apply registry_delete_keys | now apply registry_delete_Forall].
  - split; [now apply registry_set_NoDup |].
    apply registry_set_Forall; [exact Hall |].
    destruct (get_entry_ok _ _ _ Hall G) as [_ [Hnd Hu]]. simpl in *.
    unfold Ws.set_delete. repeat split; simpl.
    + intro Hnil. unfold Ws.set_delete in E. rewrite Hnil in E. discriminate.
    + now apply NoDup_map_filter.
    + rewrite Forall_forall in *. intros w Hw. apply filter_In in Hw. now apply Hu.
Qed.

Lemma sendToUser_ok u msg srv :
  registry_ok (clients srv) -> registry_ok (clients (fst (sendToUser u msg srv))).
Proof.
  intros [Hkeys Hall]. unfold sendToUser.
  destruct (Ws.get u (clients srv)) as [s |] eqn:G; [| now split].
  pose proof (send_open_sockets msg s (errors srv)) as Hs.
  destruct (send_open msg s (errors srv)) as [[s' log] sent].
  simpl in *. subst s'. split; [now apply registry_set_NoDup |].
  apply registry_set_Forall; [exact Hall |].
  apply entry_ok_delivered. now apply (get_entry_ok _ _ (clients srv)).
Qed.

Lemma broadcast_ok msg ex srv :
  registry_ok (clients srv) -> registry_ok (clients (fst (broadcast msg ex srv))).
Proof.
  intros [Hkeys Hall]. unfold broadcast.
  pose proof (rt_broadcast_loop_map msg ex (clients srv) (errors srv)) as Hm.
  destruct (broadcast_loop msg ex (clients srv) (errors srv)) as [[cl log] sent].
  simpl in *. subst cl. split.
  - rewrite map_map. erewrite map_ext; [exact Hkeys |].
    intros e. now destruct (excluded ex e).
  - apply Forall_map. eapply Forall_impl; [| exact Hall].
    intros [k v] He. destruct (excluded ex (k, v)); [exact He |].
    now apply entry_ok_delivered.
Qed.

Lemma reply_ok ws msg srv :
  registry_ok (clients srv) -> registry_ok (clients (reply ws msg srv)).
Proof.
  intros [Hkeys Hall]. unfold reply.
  assert (Hcur : Ws.ws_userId (current ws (clients srv)) = Ws.ws_userId ws).
  { unfold current.
    destruct (Ws.get (Ws.ws_userId ws) (clients srv)) as [s |] eqn:G; [| reflexivity].
    destruct (find (fun w => (Ws.ws_id w =? Ws.ws_id ws)%nat) s) as [w |] eqn:Fw;
      [| reflexivity].
    apply find_some in Fw. destruct Fw as [Hin _].
    destruct (get_entry_ok _ _ _ Hall G) as [_ [_ Hu]].
    rewrite Forall_forall in Hu. now apply Hu. }
  destruct (_send_same_socket (current ws (clients srv)) msg (errors srv)) as [Hid Huser].
  destruct (_send (current ws (clients srv)) msg (errors srv)) as [ws' log].
  simpl in *. unfold store_socket. rewrite Huser, Hcur.
  destruct (Ws.get (Ws.ws_userId ws) (clients srv)) as [s |] eqn:G; [| now split].
  split; [now apply registry_set_NoDup |].
  apply registry_set_Forall; [exact Hall |].
  destruct (get_entry_ok _ _ _ Hall G) as [Hne [Hnd Hu]]. simpl in *.
  repeat split; simpl.
  - destruct s; [contradiction | discriminate].
  - rewrite map_map. erewrite map_ext_in; [exact Hnd |].
    intros w _. simpl. destruct (Nat.eqb_spec (Ws.ws_id w) (Ws.ws_id ws')); congruence.
  - apply Forall_map. eapply Forall_impl; [| exact Hu].
    intros w Hw. simpl. destruct (Ws.ws_id w =? Ws.ws_id ws')%nat; congruence.
Qed.

Lemma _handleMessage_ok ws raw now srv :
  registry_ok (clients srv) -> registry_ok (clients (_handleMessage ws raw now srv)).
Proof.
  intro H. destruct raw as [[| taskId | status |] |]; simpl; auto using reply_ok.
  destruct (Js.truthy taskId); [now apply broadcast_ok | exact H].
Qed.

End RealtimeFacts.

Section RealtimeTheorems.

Import Wire Realtime.

Variable verifyToken : string -> Verdict.

Lemma upgrade_ok q p wsId throws t srv :
  registry_ok (clients srv) ->
  registry_ok (clients (snd (upgrade verifyToken q p wsId throws t srv))).
Proof.
  intro H. unfold upgrade.
  destruct (negb (Js.truthy (if Js.truthy q then q else p))); [exact H |].
  destruct (verifyToken (Js.interp (if Js.truthy q then q else p))) as [| | user];
    try exact H.
  destruct (Js.truthy (user_id user)); [| exact H].
  now apply on_connection_ok.
Qed.

(** X13. Whatever handshakes, closes, inbound frames and deliveries
    happen, starting with nobody connected, the registry has one entry
    per user, no user with an empty set of sockets, no socket twice in
    a set, and every socket under the user id it was verified as. *)
Theorem registry_stays_well_formed (events : list Event) :
  registry_ok (clients (run verifyToken events idle_server)).
Proof.
  assert (H : forall srv, registry_ok (clients srv) ->
                          registry_ok (clients (run verifyToken events srv))).
  { unfold run. induction events as [| e events IH]; intros srv Hs; [exact Hs |].
    cbn [fold_left]. apply IH.
    destruct e as [q p wsId throws t | ws | ws raw now | u msg | msg ex]; cbn [handle].
    - now apply upgrade_ok.
    - now apply on_close_ok.
    - now apply _handleMessage_ok.
    - now apply sendToUser_ok.
    - now apply broadcast_ok. }
  apply H. split; constructor.
Qed.

Lemma registry_set_others {F : Type} (u : string) v (m : Ws.Registry F) :
  filter (fun e => negb (fst e =? u)) (Ws.set u v m)
  = filter (fun e => negb (fst e =? u)) m.
Proof.
  induction m as [| [k w] m IH]; simpl.
  - now rewrite String.eqb_refl.
  - destruct (k =? u) eqn:E; simpl; rewrite E; simpl; [reflexivity | now rewrite IH].
Qed.

(** X14. [sendToUser(u, message)] returns the number of open sockets of
    [u] (0 when [u] is not registered), writes the message to each of
    them whose write succeeds, and leaves the entries of all other
    users exactly as they were. *)
Theorem sendToUser_reaches_only_that_user (u : string) (msg : Message)
  (srv : RealtimeServer) :
  snd (sendToUser u msg srv)
  = List.length
      (filter (fun ws => (Ws.ws_readyState ws =? Ws.OPEN)%nat)
              (match Ws.get u (clients srv) with Some s => s | None => [] end))
  /\ Ws.get u (clients (fst (sendToUser u msg srv)))
     = option_map
         (map (fun ws => if (Ws.ws_readyState ws =? Ws.OPEN)%nat
                         then (if Ws.ws_throws ws then ws else Ws.push_frame ws msg)
                         else ws))
         (Ws.get u (clients srv))
  /\ filter (fun e => negb (fst e =? u)) (clients (fst (sendToUser u msg srv)))
     = filter (fun e => negb (fst e =? u)) (clients srv).
Proof.
  unfold sendToUser.
  destruct (Ws.get u (clients srv)) as [s |] eqn:G.
  - pose proof (send_open_sockets msg s (errors srv)) as Hs.
    pose proof (send_open_count msg s (errors srv)) as Hc.
    destruct (send_open msg s (errors srv)) as [[s' log] sent].
    simpl in *. subst s'. split; [exact Hc |]. split.
    + now rewrite registry_get_set.
    + apply registry_set_others.
  - simpl. rewrite G. repeat split.
Qed.

(** X15. [broadcast] returns the number of open sockets of the users it
    does not exclude, counting also the sockets whose write threw. *)
Theorem broadcast_counts_open_sockets (msg : Message) (ex : option string)
  (srv : RealtimeServer) :
  snd (broadcast msg ex srv)
  = List.length
      (filter (fun ws => (Ws.ws_readyState ws =? Ws.OPEN)%nat)
              (List.concat
                 (map snd
                      (filter (fun e => negb (match ex with
                                              | Some x => fst e =? x
                                              | None => false
                                              end))
                              (clients srv))))).
Proof.
  unfold broadcast.
  pose proof (rt_broadcast_loop_count msg ex (clients srv) (errors srv)) as H.
  destruct (broadcast_loop msg ex (clients srv) (errors srv)) as [[cl log] sent].
  exact H.
Qed.

Lemma reply_members ws msg srv :
  Ws.members (clients (reply ws msg srv)) = Ws.members (clients srv).
Proof.
  unfold reply.
  destruct (_send (current ws (clients srv)) msg (errors srv)) as [ws' log].
  simpl. unfold store_socket.
  destruct (Ws.get (Ws.ws_userId ws') (clients srv)) as [s |] eqn:G; [| reflexivity].
  apply (members_set_same_ids _ s); [exact G |].
  rewrite map_map. apply map_ext. intro w. simpl.
  destruct (Nat.eqb_spec (Ws.ws_id w) (Ws.ws_id ws')); congruence.
Qed.

(** X16. An inbound frame never adds or removes a connection.  A
    typing frame is relayed without touching any socket of the sender's
    own user, and a frame that is not JSON or has an unknown type
    changes nothing at all. *)
Theorem inbound_frames_keep_the_registry (ws : Socket) (now : Z) (srv : RealtimeServer) :
  (forall raw,
      Ws.members (clients (_handleMessage ws raw now srv)) = Ws.members (clients srv))
  /\ (forall taskId,
         filter (fun e => fst e =? Ws.ws_userId ws)
                (clients (_handleMessage ws (Some (TypingIn taskId)) now srv))
         = filter (fun e => fst e =? Ws.ws_userId ws) (clients srv))
  /\ _handleMessage ws None now srv = srv
  /\ _handleMessage ws (Some Other) now srv = srv.
Proof.
  split; [| split; [| split; reflexivity]].
  - intros [[| taskId | status |] |]; simpl; auto using reply_members.
    destruct (Js.truthy taskId); [| reflexivity].
    unfold broadcast.
    pose proof (rt_broadcast_members (Typing (Ws.ws_userId ws) (Ws.ws_userName ws)
                                             (Js.interp taskId))
                  (Some (Ws.ws_userId ws)) (clients srv) (errors srv)) as H.
    destruct (broadcast_loop _ _ (clients srv) (errors srv)) as [[cl log] sent].
    exact H.
  - intro taskId. simpl. destruct (Js.truthy taskId); [| reflexivity].
    unfold broadcast.
    pose proof (rt_broadcast_loop_map (Typing (Ws.ws_userId ws) (Ws.ws_userName ws)
                                              (Js.interp taskId))
                  (Some (Ws.ws_userId ws)) (clients srv) (errors srv)) as H.
    destruct (broadcast_loop _ _ (clients srv) (errors srv)) as [[cl log] sent].
    simpl in *. subst cl.
    induction (clients srv) as [| [k v] rest IH]; simpl; [reflexivity |].
    destruct (k =? Ws.ws_userId ws) eqn:E; simpl; rewrite E; now rewrite IH.
Qed.

(** X17. The handshake registers a socket only for a token that the
    verifier resolved to a user with an id, and then that user is
    online; a missing token, a rejected token or a user without an id
    leaves the server exactly as it was. *)
Theorem upgrade_registers_only_verified_users
  (q p : option string) (wsId : nat) (throws : bool) (t : Z) (srv : RealtimeServer) :
  match fst (upgrade verifyToken q p wsId throws t srv) with
  | Accepted =>
      exists tok user uid,
        (if Js.truthy q then q else p) = Some tok
        /\ tok <> EmptyString
        /\ verifyToken tok = Verified user
        /\ user_id user = Some uid
        /\ uid <> EmptyString
        /\ Ws.has uid (clients (snd (upgrade verifyToken q p wsId throws t srv))) = true
  | _ => snd (upgrade verifyToken q p wsId throws t srv) = srv
  end.
Proof.
  unfold upgrade.
  destruct (if Js.truthy q then q else p) as [tok |] eqn:T; simpl; [| reflexivity].
  destruct (String.eqb_spec tok EmptyString) as [-> | Htok]; simpl; [reflexivity |].
  destruct (verifyToken tok) as [| | user] eqn:V; simpl; try reflexivity.
  destruct (user_id user) as [uid |] eqn:U; simpl; [| reflexivity].
  destruct (String.eqb_spec uid EmptyString) as [-> | Huid]; simpl; [reflexivity |].
  exists tok, user, uid. repeat split; auto.
  unfold on_connection. simpl.
  destruct (_send _ _ (errors srv)) as [ws' log]. simpl.
  unfold Ws.has. now rewrite registry_get_set.
Qed.

End RealtimeTheorems.

(** X18. Connecting a new socket and closing it again leaves the
    registry as it was, provided the user either had no entry or had a
    non-empty set that did not hold that socket. *)
Theorem connect_then_close_restores_registry
  (ws : Realtime.Socket) (t : Z) (srv : Realtime.RealtimeServer) :
  match Ws.get (Ws.ws_userId ws) (Realtime.clients srv) with
  | Some s => s <> [] /\ forall w, In w s -> Ws.ws_id w <> Ws.ws_id ws
  | None => True
  end ->
  Realtime.clients (Realtime.on_close ws (Realtime.on_connection ws t srv))
  = Realtime.clients srv.
Proof.
  intro H. unfold Realtime.on_close, Realtime.on_connection.
  destruct (_send_same_socket ws (Wire.ConnectionAck (Ws.ws_userId ws) t)
              (Realtime.errors srv)) as [Hid _].
  destruct (Realtime._send ws (Wire.ConnectionAck (Ws.ws_userId ws) t)
              (Realtime.errors srv)) as [ws' log].
  simpl in *. rewrite registry_get_set.
  destruct (Ws.get (Ws.ws_userId ws) (Realtime.clients srv)) as [s |] eqn:G; simpl.
  - destruct H as [Hne Hfresh].
    assert (Hex : existsb (fun w => (Ws.ws_id w =? Ws.ws_id ws')%nat) s = false).
    { apply not_true_is_false. intro Hex. apply existsb_exists in Hex.
      destruct Hex as [w [Hw E]]. apply Nat.eqb_eq in E.
      apply (Hfresh w Hw). congruence. }
    unfold Ws.set_add. rewrite Hex. unfold Ws.set_delete.
    rewrite filter_app. simpl. rewrite Hid, Nat.eqb_refl. simpl.
    rewrite app_nil_r.
    assert (Hkeep : filter (fun w => negb (Ws.ws_id w =? Ws.ws_id ws)%nat) s = s).
    { clear - Hfresh. induction s as [| a s IH]; simpl; [reflexivity |].
      destruct (Nat.eqb_spec (Ws.ws_id a) (Ws.ws_id ws)) as [E | _]; simpl.
      - exfalso. apply (Hfresh a); [now left | exact E].
      - rewrite IH; [reflexivity |]. intros w Hw. apply Hfresh. now right. }
    rewrite Hkeep.
    destruct s as [| a s']; [contradiction |]. simpl.
    rewrite registry_set_set. now apply registry_set_same.
  - unfold Ws.set_add, Ws.set_delete. simpl. rewrite Hid, Nat.eqb_refl. simpl.
    rewrite (registry_set_absent _ _ _ G). now apply registry_delete_appended.
Qed.

(** A closed instance: Alice connects to the idle server and leaves. *)
Lemma connect_then_close_restores_registry_witness :
  Realtime.clients (Realtime.on_close alice_socket
                      (Realtime.on_connection alice_socket 1000 idle_server))
  = Realtime.clients idle_server.
Proof.
  apply (connect_then_close_restores_registry alice_socket 1000 idle_server).
  exact I.
Defined.

(** ** Outcomes of the task and column routes *)

Section OutcomeFacts.

Import Server.

Ltac steps :=
  cbn -[Js.includes Js.trim Js.length Js.truthy Js.interp Js.nullish Nat.ltb String.eqb
        Js.to_number Js.plus sql_succ
        select_board select_owned_task select_column select_first_column
        select_max_position select_task select_owned_column broadcast
        VALID_PRIORITIES].

Ltac handler :=
  unfold respond, bind, query, throw_if, run, ret, throw, is_none; steps.

Ltac after_broadcast :=
  match goal with
  | |- context [broadcast ?e ?ev ?p ?i ?st] =>
      unfold broadcast; cbn [clients database];
      match goal with
      | |- context [broadcast_loop ?u ?f ?cl] =>
          destruct (broadcast_loop u f cl) as [cl' [|]] eqn:Hloop
      end
  end.

Lemma moveTask_outcome s user boardId taskId body env :
  rejected s (moveTask user boardId taskId body env s)
  \/ carried_out user 200 s (moveTask user boardId taskId body env s).
Proof.
  destruct body as [columnId position].
  unfold moveTask, moveTaskBody. handler.
  destruct (select_owned_task taskId user (database s)); steps;
    [| left; split; auto].
  destruct (Js.truthy columnId); steps; [| left; split; auto].
  destruct (select_column (Js.interp columnId) boardId (database s)); steps;
    [| left; split; auto].
  right. after_broadcast; steps; (split; [eexists; rewrite Hloop; reflexivity | auto]).
Qed.

Lemma deleteTask_outcome s user boardId taskId env :
  rejected s (deleteTask user boardId taskId env s)
  \/ carried_out user 204 s (deleteTask user boardId taskId env s).
Proof.
  unfold deleteTask. handler.
  destruct (select_owned_task taskId user (database s)); steps;
    [| left; split; auto].
  right. after_broadcast; steps; (split; [eexists; rewrite Hloop; reflexivity | auto]).
Qed.

Lemma deleteColumn_outcome s user boardId colId env :
  rejected s (deleteColumn user boardId colId env s)
  \/ carried_out user 204 s (deleteColumn user boardId colId env s).
Proof.
  unfold deleteColumn. handler.
  destruct (select_owned_column colId user (database s)); steps;
    [| left; split; auto].
  right. after_broadcast; steps; (split; [eexists; rewrite Hloop; reflexivity | auto]).
Qed.

Lemma createTask_outcome s user boardId body env :
  rejected s (createTask user boardId body env s)
  \/ carried_out user 201 s (createTask user boardId body env s).
Proof.
  unfold createTask, createTaskBody. handler.
  destruct (select_board boardId user (database s)); steps; [| left; split; auto].
  destruct (cb_title body) as [title |]; steps; [| left; split; auto].
  destruct ((title =? EmptyString) || (Js.trim title =? EmptyString)); steps;
    [left; split; auto |].
  destruct (255 <? Js.length title)%nat; steps; [left; split; auto |].
  destruct (Js.truthy (cb_priority body)
            && negb (Js.includes VALID_PRIORITIES (Js.interp (cb_priority body))));
    steps; [left; split; auto |].
  pose proof (target_column_reads boardId (cb_columnId body) s) as Hread.
  assert (Herr : forall e, snd (target_column boardId (cb_columnId body) s) = inl e ->
                           err_status e = Some 400%Z).
  { unfold target_column. intro e.
    destruct (Js.truthy (cb_columnId body)); handler.
    - destruct (select_column (Js.interp (cb_columnId body)) boardId (database s));
        steps; intro H; inversion H; reflexivity.
    - destruct (select_first_column boardId (database s));
        steps; intro H; inversion H; reflexivity. }
  destruct (target_column boardId (cb_columnId body) s) as [s1 [err | targetCol]];
    simpl in Hread; subst s1; steps.
  { left. split; [reflexivity |]. rewrite (Herr err eq_refl). auto. }
  unfold insert_task.
  match goal with
  | |- context [existsb ?f (tasks (database s))] =>
      destruct (existsb f (tasks (database s)))
  end; steps; [left; split; auto |].
  right. after_broadcast; steps; (split; [eexists; rewrite Hloop; reflexivity | auto]).
Qed.

Lemma serve_outcome r s :
  rejected s (serve r s)
  \/ exists ok, carried_out (requester r) ok s (serve r s)
                /\ (ok = 200 \/ ok = 201 \/ ok = 204)%Z.
Proof.
  destruct r as [[user boardId body env | user boardId taskId body env
                  | user boardId taskId env] | user boardId colId env]; simpl.
  - destruct (createTask_outcome s user boardId body env); [now left |].
    right. exists 201%Z. auto.
  - destruct (moveTask_outcome s user boardId taskId body env); [now left |].
    right. exists 200%Z. auto.
  - destruct (deleteTask_outcome s user boardId taskId env); [now left |].
    right. exists 204%Z. auto.
  - destruct (deleteColumn_outcome s user boardId colId env); [now left |].
    right. exists 204%Z. auto.
Qed.

Lemma broadcast_loop_skips_sender user frame cl :
  filter (fun e => fst e =? user) (fst (broadcast_loop user frame cl))
  = filter (fun e => fst e =? user) cl.
Proof.
  induction cl as [| [k v] rest IH]; simpl; [reflexivity |].
  destruct (k =? user) eqn:E.
  - destruct (broadcast_loop user frame rest) as [rest' threw].
    simpl in *. rewrite E. now rewrite IH.
  - destruct (send_each frame v) as [v' threw]. destruct threw; simpl.
    + now rewrite E.
    + destruct (broadcast_loop user frame rest) as [rest' threw'].
      simpl in *. rewrite E. exact IH.
Qed.

End OutcomeFacts.

(** X19. A request that is answered with status 400 or 404 has changed
    nothing: no row of any table and no socket of any client. *)
Theorem refused_requests_change_nothing (r : Server.Request) (s : Server.State) :
  Server.res_status (snd (Server.serve r s)) = 400%Z
  \/ Server.res_status (snd (Server.serve r s)) = 404%Z ->
  fst (Server.serve r s) = s.
Proof.
  intro Hstatus.
  destruct (serve_outcome r s) as [[Hsame _] | [ok [[_ Hok] Hcode]]]; [exact Hsame |].
  exfalso. destruct Hstatus as [H | H]; rewrite H in Hok;
    destruct Hok as [<- | E]; try discriminate;
    destruct Hcode as [E | [E | E]]; discriminate.
Qed.

(** A closed instance: creating a task without a title on Alice's
    board. *)
Lemma refused_requests_change_nothing_witness :
  fst (Server.serve
         (Server.OnTask
            (Server.Create "alice" "b1"
               (Server.mkCreateBody None None None None None None) later))
         todo_board)
  = todo_board.
Proof.
  apply refused_requests_change_nothing. left. reflexivity.
Defined.

(** X20. No task or column request ever writes to a socket of the user
    who sent it: after the request, the registry entries of that user
    are exactly as before. *)
Theorem requests_never_echo_to_their_sender (r : Server.Request) (s : Server.State) :
  filter (fun e => fst e =? Server.requester r)
         (Server.clients (fst (Server.serve r s)))
  = filter (fun e => fst e =? Server.requester r) (Server.clients s).
Proof.
  destruct (serve_outcome r s) as [[Hsame _] | [ok [[[frame Hcl] _] _]]].
  - now rewrite Hsame.
  - rewrite Hcl. apply broadcast_loop_skips_sender.
Qed.

(** ** Deleting *)

Section DeleteFacts.

Import Server.

Lemma deleteTask_missing s user boardId taskId env :
  select_owned_task taskId user (database s) = None ->
  deleteTask user boardId taskId env s
  = (s, mkResponse 404 (JsonError "Task not found")).
Proof.
  intro H. unfold deleteTask, respond, bind, query, ret. now rewrite H.
Qed.

Lemma deleteTask_found s user boardId taskId env t :
  select_owned_task taskId user (database s) = Some t ->
  database (fst (deleteTask user boardId taskId env s)) = delete_task taskId (database s).
Proof.
  intro H. unfold deleteTask, respond, bind, query, ret, run. rewrite H.
  cbn -[broadcast].
  match goal with
  | |- context [broadcast ?e ?ev ?p ?i ?st] =>
      pose proof (broadcast_database e ev p i st) as Hb;
      destruct (broadcast e ev p i st) as [s' [err | []]]
  end; simpl in *; exact Hb.
Qed.

Lemma deleted_task_not_selected taskId user db :
  select_owned_task taskId user (delete_task taskId db) = None.
Proof.
  unfold select_owned_task, delete_task. simpl.
  apply find_none_of_forall. intros t Ht. apply filter_In in Ht.
  destruct Ht as [_ Ht]. apply negb_true_iff in Ht. now rewrite Ht.
Qed.

End DeleteFacts.

(** X21. Deleting a task a second time is answered with 404 "Task not
    found" and changes nothing, whether the first request deleted the
    task or did not find it either. *)
Theorem deleting_twice_is_not_found
  (s : Server.State) (user boardId taskId : string) (env again : Server.Env) :
  Server.deleteTask user boardId taskId again
    (fst (Server.deleteTask user boardId taskId env s))
  = (fst (Server.deleteTask user boardId taskId env s),
     Server.mkResponse 404 (Server.JsonError "Task not found")).
Proof.
  apply deleteTask_missing.
  destruct (Server.select_owned_task taskId user (Server.database s)) as [t |] eqn:H.
  - rewrite (deleteTask_found s user boardId taskId env t H).
    apply deleted_task_not_selected.
  - now rewrite (deleteTask_missing s user boardId taskId env H).
Qed.

(** ** Tasks and their columns *)

Section ColumnFacts.

Import Server.

Ltac steps :=
  cbn -[Js.includes Js.trim Js.length Js.truthy Js.interp Js.nullish Nat.ltb String.eqb
        Js.to_number Js.plus sql_succ
        select_board select_owned_task select_column select_first_column
        select_max_position select_task select_owned_column broadcast
        VALID_PRIORITIES].

Ltac handler :=
  unfold respond, bind, query, throw_if, run, ret, throw, is_none; steps.

Ltac past_broadcast :=
  match goal with
  | |- context [broadcast ?e ?ev ?p ?i ?st] =>
      pose proof (broadcast_database e ev p i st) as Hb;
      destruct (broadcast e ev p i st) as [s' [err | []]]
  end; simpl in *.

Lemma selected_column_exists c boardId db col :
  select_column c boardId db = Some col ->
  In col (columns db) /\ column_id col = c.
Proof.
  intro H. apply find_some in H. destruct H as [Hin H].
  apply andb_true_iff in H. destruct H as [H _]. apply String.eqb_eq in H. auto.
Qed.

Lemma first_column_exists boardId db col :
  select_first_column boardId db = Some col -> In col (columns db).
Proof.
  unfold select_first_column. intro H.
  assert (Hin : In col (Js.stable_sort
                          (fun a b => (column_position a <? column_position b)%Z)
                          (filter (fun c => column_board_id c =? boardId) (columns db)))).
  { destruct (Js.stable_sort _ _) as [| c0 l]; [discriminate |].
    simpl in H. injection H as ->. now left. }
  apply stable_sort_In, filter_In in Hin. tauto.
Qed.

Lemma target_column_exists boardId columnId s c :
  snd (target_column boardId columnId s) = inr c ->
  exists col, In col (columns (database s)) /\ column_id col = c.
Proof.
  unfold target_column. destruct (Js.truthy columnId); handler.
  - destruct (select_column (Js.interp columnId) boardId (database s)) as [col |] eqn:E;
      steps; intro H; inversion H; subst.
    exists col. now apply (selected_column_exists _ boardId).
  - destruct (select_first_column boardId (database s)) as [col |] eqn:E;
      steps; intro H; inversion H; subst.
    exists col. split; [now apply (first_column_exists boardId) | reflexivity].
Qed.

Lemma moveTask_database_targets s user boardId taskId body env :
  database (fst (moveTask user boardId taskId body env s)) = database s
  \/ exists c pos col,
       In col (columns (database s)) /\ column_id col = c
       /\ database (fst (moveTask user boardId taskId body env s)) =
          place_task c pos (env_now env) taskId (shift_positions c pos (database s)).
Proof.
  destruct body as [columnId position].
  unfold moveTask, moveTaskBody. handler.
  destruct (select_owned_task taskId user (database s)); steps; [| now left].
  destruct (Js.truthy columnId); steps; [| now left].
  destruct (select_column (Js.interp columnId) boardId (database s)) as [col |] eqn:E;
    steps; [| now left].
  right. exists (Js.interp columnId). eexists. exists col.
  destruct (selected_column_exists _ _ _ _ E) as [Hin Hid].
  split; [exact Hin |]. split; [exact Hid |].
  past_broadcast; exact Hb.
Qed.

Lemma createTask_database_targets s user boardId body env :
  database (fst (createTask user boardId body env s)) = database s
  \/ exists t col,
       In col (columns (database s)) /\ column_id col = task_column_id t
       /\ database (fst (createTask user boardId body env s)) =
          with_tasks (database s) (tasks (database s) ++ [t])%list.
Proof.
  unfold createTask, createTaskBody. handler.
  destruct (select_board boardId user (database s)); steps; [| now left].
  destruct (cb_title body) as [title |]; steps; [| now left].
  destruct ((title =? EmptyString) || (Js.trim title =? EmptyString)); steps; [now left |].
  destruct (255 <? Js.length title)%nat; steps; [now left |].
  destruct (Js.truthy (cb_priority body)
            && negb (Js.includes VALID_PRIORITIES (Js.interp (cb_priority body))));
    steps; [now left |].
  pose proof (target_column_reads boardId (cb_columnId body) s) as Hread.
  pose proof (target_column_exists boardId (cb_columnId body) s) as Hcol.
  destruct (target_column boardId (cb_columnId body) s) as [s1 [err | targetCol]];
    simpl in Hread; subst s1; steps; [now left |].
  destruct (Hcol targetCol eq_refl) as [col [Hin Hid]].
  unfold insert_task.
  match goal with
  | |- context [existsb ?f (tasks (database s))] =>
      destruct (existsb f (tasks (database s)))
  end; steps; [now left |].
  right.
  match goal with
  | |- context [with_tasks (database s) (tasks (database s) ++ [?t])%list] =>
      exists t, col
  end.
  split; [exact Hin |]. split; [exact Hid |].
  past_broadcast; exact Hb.
Qed.

Lemma deleteColumn_database_cases s user boardId colId env :
  (select_owned_column colId user (database s) = None
   /\ deleteColumn user boardId colId env s
      = (s, mkResponse 404 (JsonError "Column not found")))
  \/ database (fst (deleteColumn user boardId colId env s)) =
     delete_column colId (delete_column_tasks colId (database s)).
Proof.
  unfold deleteColumn. handler.
  destruct (select_owned_column colId user (database s)); steps; [| now left].
  right. past_broadcast; exact Hb.
Qed.

Lemma serve_keeps_columns r s :
  columns_exist (database s) -> columns_exist (database (fst (serve r s))).
Proof.
  intro H.
  destruct r as [[user boardId body env | user boardId taskId body env
                  | user boardId taskId env] | user boardId colId env]; simpl.
  - destruct (createTask_database_targets s user boardId body env)
      as [-> | [t [col [Hin [Hid ->]]]]]; [exact H |].
    intros x Hx. simpl in Hx. apply in_app_or in Hx.
    destruct Hx as [Hx | [<- | []]]; [now apply H | exists col; auto].
  - destruct (moveTask_database_targets s user boardId taskId body env)
      as [-> | [c [pos [col [Hin [Hid ->]]]]]]; [exact H |].
    intros x Hx. rewrite move_rows in Hx. apply in_map_iff in Hx.
    destruct Hx as [y [<- Hy]]. simpl.
    destruct (task_id y =? taskId); [exists col; auto |].
    destruct ((task_column_id y =? c) && (pos <=? task_position y)%Z);
      simpl; now apply H.
  - destruct (deleteTask_database_cases s user boardId taskId env) as [-> | ->];
      [exact H |].
    intros x Hx. simpl in Hx. apply filter_In in Hx. now apply H.
  - destruct (deleteColumn_database_cases s user boardId colId env) as [[_ ->] | ->];
      [exact H |].
    intros x Hx. simpl in Hx. apply filter_In in Hx. destruct Hx as [Hx Hkeep].
    destruct (H x Hx) as [c [Hc Hid]]. exists c. split; [| exact Hid].
    simpl. apply filter_In. split; [exact Hc |]. now rewrite Hid.
Qed.

End ColumnFacts.

(** X22. If every task sits in an existing column, it still does after
    any sequence of task creations, moves and deletions and column
    deletions: deleting a column never leaves a task behind in it, and
    no task is ever created in or moved to a column that is not
    there. *)
Theorem tasks_never_lose_their_column (rs : list Server.Request) (s : Server.State) :
  columns_exist (Server.database s) ->
  columns_exist (Server.database (Server.serve_all rs s)).
Proof.
  unfold Server.serve_all. revert s.
  induction rs as [| r rs IH]; intros s H; [exact H |].
  cbn [fold_left]. apply IH. now apply serve_keeps_columns.
Qed.

(** A closed instance: Alice moves a task, deletes a column, creates a
    task and deletes another. *)
Lemma tasks_never_lose_their_column_witness :
  columns_exist (Server.database (Server.serve_all spring_cleaning todo_board)).
Proof.
  apply tasks_never_lose_their_column.
  intros t Ht. simpl in Ht.
  destruct Ht as [<- | [<- | [<- | [<- | []]]]]; simpl;
    (eexists; split; [left; reflexivity | reflexivity])
    || (eexists; split; [right; left; reflexivity | reflexivity]).
Defined.

Section ColumnDeletion.

Import Server.

Lemma deleteColumn_found s user boardId colId env c :
  select_owned_column colId user (database s) = Some c ->
  database (fst (deleteColumn user boardId colId env s)) =
  delete_column colId (delete_column_tasks colId (database s)).
Proof.
  intro H.
  destruct (deleteColumn_database_cases s user boardId colId env) as [[Hnone _] | Hdb];
    [congruence | exact Hdb].
Qed.

Lemma deleted_column_not_selected colId user db :
  select_owned_column colId user (delete_column colId db) = None.
Proof.
  unfold select_owned_column, delete_column. simpl.
  apply find_none_of_forall. intros c Hc. apply filter_In in Hc.
  destruct Hc as [_ Hc]. apply negb_true_iff in Hc. now rewrite Hc.
Qed.

(** X23. Deleting a column that the user owns removes the column and
    every task in it, and nothing else from the tables: the boards are
    as they were, the columns are the other columns and the tasks are
    the tasks of other columns, the same rows in the same order.  A
    second deletion is answered with 404 "Column not found" and
    changes nothing. *)
Theorem deleting_a_column_takes_its_tasks
  (s : State) (user boardId colId : string) (env again : Env) (c : Column) :
  select_owned_column colId user (database s) = Some c ->
  let s' := fst (deleteColumn user boardId colId env s) in
  boards (database s') = boards (database s)
  /\ columns (database s')
     = filter (fun col => negb (column_id col =? colId)) (columns (database s))
  /\ tasks (database s')
     = filter (fun t => negb (task_column_id t =? colId)) (tasks (database s))
  /\ (forall other,
         other <> colId ->
         filter (fun t => task_column_id t =? other) (tasks (database s'))
         = filter (fun t => task_column_id t =? other) (tasks (database s)))
  /\ deleteColumn user boardId colId again s'
     = (s', mkResponse 404 (JsonError "Column not found")).
Proof.
  intros H s'. subst s'.
  pose proof (deleteColumn_found s user boardId colId env c H) as Hdb.
  remember (fst (deleteColumn user boardId colId env s)) as s1 eqn:Hs1. clear Hs1.
  split; [| split; [| split; [| split]]].
  - now rewrite Hdb.
  - now rewrite Hdb.
  - now rewrite Hdb.
  - intros other Hother. rewrite Hdb. simpl.
    induction (tasks (database s)) as [| t l IH]; simpl; [reflexivity |].
    destruct (String.eqb_spec (task_column_id t) colId) as [E | E]; simpl.
    + rewrite IH. destruct (String.eqb_spec (task_column_id t) other); [congruence |].
      reflexivity.
    + now rewrite IH.
  - unfold deleteColumn, respond, bind, query, ret.
    rewrite Hdb. now rewrite deleted_column_not_selected.
Qed.

End ColumnDeletion.

(** A closed instance: Alice deletes the column "todo" of her board. *)
Lemma deleting_a_column_takes_its_tasks_witness :
  Server.select_owned_column "todo" "alice" (Server.database todo_board)
  = Some (Server.mkColumn "todo" "b1" "Todo" 0 "#6366f1"
            "2024-01-01 00:00:00" "2024-01-01 00:00:00")
  /\ Server.deleteColumn "alice" "b1" "todo" later
       (fst (Server.deleteColumn "alice" "b1" "todo" later todo_board))
     = (fst (Server.deleteColumn "alice" "b1" "todo" later todo_board),
        Server.mkResponse 404 (Server.JsonError "Column not found")).
Proof.
  split.
  - reflexivity.
  - exact (proj2 (proj2 (proj2 (proj2
             (deleting_a_column_takes_its_tasks todo_board "alice" "b1" "todo"
                later later
                (Server.mkColumn "todo" "b1" "Todo" 0 "#6366f1"
                   "2024-01-01 00:00:00" "2024-01-01 00:00:00") eq_refl))))).
Defined.

(** ** Where a new task is listed *)

Section CreateFacts.

Import Server.

Ltac steps :=
  cbn -[Js.includes Js.trim Js.length Js.truthy Js.interp Js.nullish Nat.ltb String.eqb
        Js.to_number Js.plus sql_succ
        select_board select_owned_task select_column select_first_column
        select_max_position select_task select_owned_column broadcast
        VALID_PRIORITIES].

Ltac handler :=
  unfold respond, bind, query, throw_if, run, ret, throw, is_none; steps.

Lemma find_appended_fresh (taskId : string) (ts : list Task) (t : Task) :
  existsb (fun t0 => task_id t0 =? taskId) ts = false ->
  task_id t = taskId ->
  find (fun x => task_id x =? taskId) (ts ++ [t]) = Some t.
Proof.
  intros Hfresh Hid. induction ts as [| a ts IH]; simpl in *.
  - now rewrite Hid, String.eqb_refl.
  - apply orb_false_iff in Hfresh. destruct Hfresh as [Ha Hts].
    rewrite Ha. now apply IH.
Qed.

(** What a create that is answered with 201 has done. *)
Lemma createTask_created s user boardId body env :
  res_status (snd (createTask user boardId body env s)) = 201%Z ->
  exists t,
    res_body (snd (createTask user boardId body env s)) = JsonTask (Some (read_task t))
    /\ task_id t = env_uid env
    /\ task_board_id t = boardId
    /\ task_position t =
       Js.plus (Js.nullish (select_max_position (task_column_id t) (database s))
                           (-1)%Z) 1
    /\ tasks (database (fst (createTask user boardId body env s)))
       = (tasks (database s) ++ [t])%list
    /\ boards (database (fst (createTask user boardId body env s))) = boards (database s)
    /\ select_board boardId user (database s) <> None.
Proof.
  unfold createTask, createTaskBody. handler.
  destruct (select_board boardId user (database s)) eqn:Hboard; steps;
    [| intro H; discriminate H].
  destruct (cb_title body) as [title |]; steps; [| intro H; discriminate H].
  destruct ((title =? EmptyString) || (Js.trim title =? EmptyString)); steps;
    [intro H; discriminate H |].
  destruct (255 <? Js.length title)%nat; steps; [intro H; discriminate H |].
  destruct (Js.truthy (cb_priority body)
            && negb (Js.includes VALID_PRIORITIES (Js.interp (cb_priority body))));
    steps; [intro H; discriminate H |].
  pose proof (target_column_reads boardId (cb_columnId body) s) as Hread.
  assert (Herr : forall e, snd (target_column boardId (cb_columnId body) s) = inl e ->
                           err_status e = Some 400%Z).
  { unfold target_column. intro e.
    destruct (Js.truthy (cb_columnId body)); handler.
    - destruct (select_column (Js.interp (cb_columnId body)) boardId (database s));
        steps; intro H; inversion H; reflexivity.
    - destruct (select_first_column boardId (database s));
        steps; intro H; inversion H; reflexivity. }
  destruct (target_column boardId (cb_columnId body) s) as [s1 [err | targetCol]];
    simpl in Hread; subst s1; steps.
  { rewrite (Herr err eq_refl). intro H; discriminate H. }
  unfold insert_task.
  match goal with
  | |- context [existsb ?f (tasks (database s))] =>
      destruct (existsb f (tasks (database s))) eqn:Hfresh
  end; steps; [intro H; discriminate H |].
  match goal with
  | |- context [with_tasks (database s) (tasks (database s) ++ [?new])%list] =>
      set (t := new) in *
  end.
  assert (Hsel : select_task (env_uid env)
                   (with_tasks (database s) (tasks (database s) ++ [t])%list)
                 = Some (read_task t)).
  { unfold select_task. simpl. now rewrite (find_appended_fresh (env_uid env)). }
  unfold broadcast. cbn [clients database].
  match goal with
  | |- context [broadcast_loop ?u ?f ?cl] => destruct (broadcast_loop u f cl) as [cl' [|]]
  end; steps; [intro H; discriminate H |].
  intros _. exists t. rewrite Hsel. repeat split. discriminate.
Qed.

Lemma filter_all {A : Type} (p : A -> bool) (l : list A) :
  (forall y, In y l -> p y = true) -> filter p l = l.
Proof.
  induction l as [| a l IH]; simpl; intro H; [reflexivity |].
  rewrite (H a (or_introl eq_refl)). f_equal. apply IH. intros y Hy. apply H. now right.
Qed.

(** X24. Where every stored position is an integer of magnitude below
    2^53, a create that is answered with 201 returns the new task,
    appends it to the table with a position above every task of its
    column, and the task is then the last one in the listing of that
    column. *)
Theorem created_task_is_listed_last
  (s : State) (user boardId : string) (body : CreateBody) (env : Env) :
  positions_within (exact_range - 1) (database s) ->
  res_status (snd (createTask user boardId body env s)) = 201%Z ->
  let s' := fst (createTask user boardId body env s) in
  exists t,
    res_body (snd (createTask user boardId body env s)) = JsonTask (Some t)
    /\ task_id t = env_uid env
    /\ tasks (database s') = (tasks (database s) ++ [t])%list
    /\ (forall y, In y (tasks (database s)) ->
                  task_column_id y = task_column_id t ->
                  (task_position y < task_position t)%Z)
    /\ (task_column_id t <> EmptyString ->
        exists before,
          column_listing s' user boardId (task_column_id t) = (before ++ [t])%list).
Proof.
  intros Hwithin H201 s'. unfold exact_range in Hwithin.
  destruct (createTask_created s user boardId body env H201)
    as [t [Hbody [Hid [Hb [Hpos [Htasks [Hboards Howner]]]]]]].
  fold s' in Htasks, Hboards.
  destruct (create_position (2 ^ 53 - 1) (task_column_id t) (database s))
    as [Hexact Hle]; [lia | lia | exact Hwithin |].
  rewrite Hexact in Hpos.
  assert (Hread : read_task t = t).
  { unfold read_task. rewrite to_number_exact by (rewrite Hpos; lia).
    now destruct t. }
  rewrite Hread in Hbody.
  assert (Habove : forall y, In y (tasks (database s)) ->
                             task_column_id y = task_column_id t ->
                             (task_position y < task_position t)%Z).
  { intros y Hy Hc.
    destruct (max_position_bounds _ (database s) y Hy Hc) as [q [Hq Hle']].
    rewrite Hpos, Hq. simpl. lia. }
  exists t. split; [exact Hbody |]. split; [exact Hid |]. split; [exact Htasks |].
  split; [exact Habove |].
  intro Hc.
  rewrite (column_listing_of_owner s' user boardId (task_column_id t)); [| | exact Hc].
  2: { unfold select_board in *. now rewrite Hboards. }
  rewrite Htasks, filter_app. simpl. rewrite Hb, !String.eqb_refl. simpl.
  cut (exists before,
          Js.stable_sort listed_before
            (filter (fun x => (task_board_id x =? boardId)
                              && (task_column_id x =? task_column_id t) && true)
                    (tasks (database s)) ++ [t])
          = (before ++ [t])%list).
  { intros [before ->]. exists (map read_task before).
    rewrite map_app. simpl. now rewrite Hread. }
  set (F := fun x => (task_board_id x =? boardId)
                     && (task_column_id x =? task_column_id t) && true).
  set (L := filter F (tasks (database s))).
  assert (Hin : In t (Js.stable_sort listed_before (L ++ [t])%list)).
  { apply stable_sort_In, in_or_app. right. now left. }
  destruct (in_split _ _ Hin) as [l1 [l2 Hsplit]].
  assert (Hperm : Permutation L (l1 ++ l2)).
  { apply Permutation_cons_inv with (a := t).
    eapply perm_trans; [apply Permutation_cons_append |].
    eapply perm_trans; [apply (stable_sort_perm listed_before) |].
    rewrite Hsplit. apply Permutation_sym, Permutation_middle. }
  assert (Hlow : forall y, In y (l1 ++ l2) -> (task_position y < task_position t)%Z).
  { intros y Hy. apply (Permutation_in _ (Permutation_sym Hperm)) in Hy.
    apply filter_In in Hy. destruct Hy as [Hy HF]. apply Habove; [exact Hy |].
    unfold F in HF. apply andb_true_iff in HF. destruct HF as [HF _].
    apply andb_true_iff in HF. destruct HF as [_ HF]. now apply String.eqb_eq. }
  assert (Hrank := sorted_rank task_position l1 t l2).
  rewrite <- Hsplit in Hrank.
  specialize (Hrank (stable_sort_by_key listed_before task_position
                       listed_before_le not_listed_before_ge _)).
  rewrite Hsplit in Hrank.
  assert (Hne : forall y, In y (l1 ++ l2) -> task_position y <> task_position t).
  { intros y Hy. specialize (Hlow y Hy). lia. }
  specialize (Hrank Hne).
  rewrite filter_app in Hrank. simpl in Hrank. rewrite Z.ltb_irrefl in Hrank.
  rewrite (filter_all _ l1) in Hrank
    by (intros y Hy; apply Z.ltb_lt, Hlow, in_or_app; now left).
  rewrite (filter_all _ l2) in Hrank
    by (intros y Hy; apply Z.ltb_lt, Hlow, in_or_app; now right).
  rewrite length_app in Hrank.
  assert (l2 = []) by (destruct l2; [reflexivity | simpl in Hrank; lia]).
  subst l2. exists l1. exact Hsplit.
Qed.

End CreateFacts.

(** A closed instance: Alice adds a task to her board without naming a
    column; it lands at the end of "todo". *)
Lemma created_task_is_listed_last_witness :
  Server.res_status
    (snd (Server.createTask "alice" "b1"
            (Server.mkCreateBody (Some "E") None None None None None)
            later todo_board)) = 201%Z
  /\ exists t,
       Server.res_body
         (snd (Server.createTask "alice" "b1"
                 (Server.mkCreateBody (Some "E") None None None None None)
                 later todo_board)) = Server.JsonTask (Some t)
       /\ Server.tasks
            (Server.database
               (fst (Server.createTask "alice" "b1"
                       (Server.mkCreateBody (Some "E") None None None None None)
                       later todo_board)))
          = (Server.tasks (Server.database todo_board) ++ [t])%list.
Proof.
  split.
  - reflexivity.
  - destruct (created_task_is_listed_last todo_board "alice" "b1"
                (Server.mkCreateBody (Some "E") None None None None None) later)
      as [t [Hbody [_ [Htasks _]]]].
    + intros t Ht. simpl in Ht. unfold exact_range.
      destruct Ht as [<- | [<- | [<- | [<- | []]]]]; simpl; lia.
    + reflexivity.
    + exists t. split; [exact Hbody | exact Htasks].
Defined.

(** ** Dropping a task where it already is *)

Section SortMapFacts.

Context {A : Type} (before : A -> A -> bool) (g : A -> A).

Lemma insert_sorted_map x l :
  (forall y, In y l -> before (g y) (g x) = before y x) ->
  Js.insert_sorted before (g x) (map g l) = map g (Js.insert_sorted before x l).
Proof.
  induction l as [| y l IH]; simpl; intro H; [reflexivity |].
  rewrite (H y (or_introl eq_refl)).
  destruct (before y x); simpl; [| reflexivity].
  f_equal. apply IH. intros z Hz. apply H. now right.
Qed.

Lemma stable_sort_map l :
  (forall a b, In a l -> In b l -> before (g a) (g b) = before a b) ->
  Js.stable_sort before (map g l) = map g (Js.stable_sort before l).
Proof.
  induction l as [| x l IH]; simpl; intro H; [reflexivity |].
  rewrite IH by (intros a b Ha Hb; apply H; now right).
  apply insert_sorted_map. intros y Hy. apply stable_sort_In in Hy.
  apply H; [now right | now left].
Qed.

Lemma filter_map_commute (F : A -> bool) l :
  (forall y, In y l -> F (g y) = F y) -> filter F (map g l) = map g (filter F l).
Proof.
  induction l as [| x l IH]; simpl; intro H; [reflexivity |].
  rewrite (H x (or_introl eq_refl)), IH by (intros y Hy; apply H; now right).
  now destruct (F x).
Qed.

End SortMapFacts.

Section RedropFacts.

Import Server.

(** X25. Moving a task to the column and position it already has keeps
    the order in which that column is listed, provided ids are unique,
    the positions of the column were distinct and the numbers are
    exact: the position is an integer that a JavaScript number holds
    (as every integer of magnitude up to 2^53 is) and the positions of
    the column from there upwards are 64-bit integers strictly between
    the smallest and the largest. *)
Theorem redropping_keeps_the_order
  (s : State) (user boardId taskId : string) (env : Env) (t : Task) (col : Column) :
  primary_key (database s) ->
  positions_distinct (database s) ->
  select_owned_task taskId user (database s) = Some t ->
  task_board_id t = boardId ->
  task_column_id t <> EmptyString ->
  select_column (task_column_id t) boardId (database s) = Some col ->
  Js.is_number (task_position t) = true ->
  (forall x, In x (tasks (database s)) -> task_column_id x = task_column_id t ->
             (task_position t <= task_position x)%Z ->
             shiftable (task_position x)) ->
  let s' := fst (moveTask user boardId taskId
                   (mkMoveBody (Some (task_column_id t)) (Some (task_position t)))
                   env s) in
  map task_id (column_listing s' user boardId (task_column_id t))
  = map task_id (column_listing s user boardId (task_column_id t)).
Proof.
  intros Hpk Hord Ht Hboard Hc Hcol Hexact Hrange s'.
  apply is_number_fixed in Hexact.
  apply distinct_positions_give_slots in Hord.
  pose proof (moveTask_database s user boardId taskId (task_column_id t)
                (Some (task_position t)) env t col Ht Hc Hcol) as Hdb.
  simpl in Hdb. rewrite Hexact in Hdb. fold s' in Hdb.
  assert (Howner : select_board boardId user (database s) <> None).
  { rewrite <- Hboard. exact (owner_has_board taskId user _ t Ht). }
  rewrite (column_listing_of_owner s' user boardId (task_column_id t));
    [| rewrite Hdb; exact Howner | exact Hc].
  rewrite (column_listing_of_owner s user boardId (task_column_id t) Howner Hc).
  rewrite Hdb, move_rows_exact by exact Hrange. clear Hdb Hrange.
  rewrite !map_map. change (fun x => task_id (read_task x)) with task_id.
  set (c := task_column_id t) in *. set (p := task_position t) in *.
  set (g := fun x : Task =>
              if task_id x =? taskId then set_placement x c p (env_now env)
              else if (task_column_id x =? c) && (p <=? task_position x)%Z
                   then set_position x (task_position x + 1) else x).
  set (F := fun x : Task => (task_board_id x =? boardId) && (task_column_id x =? c) && true).
  pose proof (find_some _ _ Ht) as [Hin Hfound].
  apply andb_true_iff in Hfound. destruct Hfound as [Hid _].
  apply String.eqb_eq in Hid.
  assert (Hsame : forall y, In y (tasks (database s)) -> task_id y = taskId -> y = t).
  { intros y Hy Hyid. apply (NoDup_map_same task_id (tasks (database s))); auto.
    congruence. }
  assert (Hg : forall y, In y (tasks (database s)) ->
                         task_id (g y) = task_id y
                         /\ task_board_id (g y) = task_board_id y
                         /\ task_created_at (g y) = task_created_at y
                         /\ task_column_id (g y) = task_column_id y
                         /\ (task_column_id y = c ->
                             task_position (g y)
                             = if (task_position y <=? p)%Z
                               then task_position y else (task_position y + 1)%Z)).
  { intros y Hy. unfold g. destruct (task_id y =? taskId) eqn:Ey.
    - apply String.eqb_eq in Ey. rewrite (Hsame y Hy Ey). simpl.
      repeat split. intros _. fold p. now rewrite Z.leb_refl.
    - apply String.eqb_neq in Ey.
      destruct (task_column_id y =? c) eqn:Cy; simpl.
      + apply String.eqb_eq in Cy.
        assert (Hp : task_position y <> p).
        { intro E. apply Ey. rewrite <- Hid. apply Hord; auto. }
        destruct (Z.leb_spec p (task_position y)); simpl; repeat split; intros _;
          destruct (Z.leb_spec (task_position y) p); try reflexivity; lia.
      + repeat split. intro E. apply String.eqb_neq in Cy. contradiction. }
  rewrite filter_map_commute.
  2: { intros y Hy. destruct (Hg y Hy) as [_ [Hb [_ [Hcg _]]]].
       unfold F. now rewrite Hb, Hcg. }
  rewrite stable_sort_map.
  - rewrite map_map. apply map_ext_in. intros y Hy.
    apply stable_sort_In, filter_In in Hy. destruct Hy as [Hy _].
    now destruct (Hg y Hy) as [Hgid _].
  - intros a b Ha Hb. apply filter_In in Ha, Hb.
    destruct Ha as [Ha Fa], Hb as [Hb Fb].
    assert (Ca : task_column_id a = c).
    { unfold F in Fa. apply andb_true_iff in Fa. destruct Fa as [Fa _].
      apply andb_true_iff in Fa. destruct Fa as [_ Fa]. now apply String.eqb_eq. }
    assert (Cb : task_column_id b = c).
    { unfold F in Fb. apply andb_true_iff in Fb. destruct Fb as [Fb _].
      apply andb_true_iff in Fb. destruct Fb as [_ Fb]. now apply String.eqb_eq. }
    destruct (Hg a Ha) as [_ [_ [Hca [_ Hpa]]]].
    destruct (Hg b Hb) as [_ [_ [Hcb [_ Hpb]]]].
    unfold listed_before. rewrite Hca, Hcb, (Hpa Ca), (Hpb Cb).
    destruct (Z.leb_spec (task_position a) p), (Z.leb_spec (task_position b) p);
      destruct (Z.ltb_spec (task_position a) (task_position b));
      destruct (Z.eqb_spec (task_position a) (task_position b));
      repeat match goal with
             | |- context [(?x <? ?y)%Z] => destruct (Z.ltb_spec x y)
             | |- context [(?x =? ?y)%Z] => destruct (Z.eqb_spec x y)
             end; try reflexivity; lia.
Qed.

End RedropFacts.

(** A closed instance: Alice drops B where it is, at position 1 of
    "todo". *)
Lemma redropping_keeps_the_order_witness :
  map Server.task_id
      (Server.column_listing
         (fst (Server.moveTask "alice" "b1" "B"
                 (Server.mkMoveBody (Some "todo") (Some 1%Z)) later todo_board))
         "alice" "b1" "todo")
  = map Server.task_id (Server.column_listing todo_board "alice" "b1" "todo").
Proof.
  refine (redropping_keeps_the_order todo_board "alice" "b1" "B" later
            (card "B" "todo" 1)
            (Server.mkColumn "todo" "b1" "Todo" 0 "#6366f1"
               "2024-01-01 00:00:00" "2024-01-01 00:00:00")
            _ _ eq_refl eq_refl _ eq_refl eq_refl _).
  - unfold primary_key. simpl. distinct_numbers.
  - intro c. cbn -[String.eqb].
    destruct (String.eqb_spec "todo" c) as [<- | Htodo].
    + cbn. distinct_numbers.
    + destruct (String.eqb_spec "done" c) as [<- | Hdone]; cbn; distinct_numbers.
  - discriminate.
  - intros x Hx _ _. simpl in Hx. unfold shiftable.
    destruct Hx as [<- | [<- | [<- | [<- | []]]]]; simpl; lia.
Defined.

(** ** Response keys *)

Section CamelFacts.

Import Server.

Lemma upper_is_not_lower c :
  is_lower c = true ->
  is_lower (toUpperCase c) = false /\ (toUpperCase c =? "_")%char = false.
Proof.
  destruct c as [[] [] [] [] [] [] [] []]; vm_compute; intro H;
    try discriminate H; split; reflexivity.
Qed.

Lemma camel_head a rest :
  is_lower a = false ->
  match camel (String a rest) with
  | String h _ => is_lower h = false
  | EmptyString => True
  end.
Proof.
  intro Ha. simpl. destruct rest as [| c r]; [exact Ha |].
  destruct ((a =? "_")%char && is_lower c) eqn:E; [| exact Ha].
  apply andb_true_iff in E. destruct E as [_ Hc].
  now apply upper_is_not_lower.
Qed.

Lemma camel_no_snake_bounded (n : nat) :
  forall k, String.length k <= n -> no_snake (camel k) = true.
Proof.
  induction n as [| n IH]; intros k Hk.
  - destruct k; [reflexivity | simpl in Hk; lia].
  - destruct k as [| a rest]; [reflexivity |].
    destruct rest as [| c r]; [reflexivity |].
    change (camel (String a (String c r)))
      with (if (a =? "_")%char && is_lower c
            then String (toUpperCase c) (camel r)
            else String a (camel (String c r))).
    destruct ((a =? "_")%char && is_lower c) eqn:E.
    + apply andb_true_iff in E. destruct E as [_ Hc].
      destruct (upper_is_not_lower c Hc) as [_ Hu].
      assert (Hr : no_snake (camel r) = true) by (apply IH; simpl in Hk; lia).
      cbn [no_snake]. destruct (camel r) as [| h t]; [reflexivity |].
      rewrite Hu. simpl. exact Hr.
    + assert (Hrest : no_snake (camel (String c r)) = true)
        by (apply IH; simpl in Hk |- *; lia).
      pose proof (camel_head c r) as Hhead.
      remember (camel (String c r)) as v eqn:Ev. clear Ev.
      cbn [no_snake]. destruct v as [| h t]; [reflexivity |].
      rewrite Hrest, andb_true_r. apply negb_true_iff.
      destruct (Ascii.eqb_spec a "_"%char) as [-> | _]; [| reflexivity].
      simpl in E. simpl. apply Hhead. exact E.
Qed.

Lemma camel_fixes_no_snake k : no_snake k = true -> camel k = k.
Proof.
  induction k as [| a rest IH]; [reflexivity |].
  destruct rest as [| c r]; [reflexivity |].
  cbn [no_snake camel]. intro H. apply andb_true_iff in H. destruct H as [Hn Hrest].
  apply negb_true_iff in Hn. rewrite Hn. f_equal. now apply IH.
Qed.

(** X26. The key renaming of [snakeToCamel] leaves no underscore
    followed by a lower-case letter, so renaming a renamed key changes
    nothing: the conversion is idempotent. *)
Theorem camel_is_idempotent (k : string) :
  no_snake (camel k) = true /\ camel (camel k) = camel k.
Proof.
  assert (H : no_snake (camel k) = true)
    by (apply (camel_no_snake_bounded (String.length k)); lia).
  split; [exact H | now apply camel_fixes_no_snake].
Qed.

End CamelFacts.

(** ** The client hook *)

Section HookFacts.

Import Client.

Lemma run_cons h e events :
  run h (e :: events)
  = (fst (run (fst (step h e)) events),
     (snd (step h e) ++ snd (run (fst (step h e)) events))%list).
Proof.
  simpl. destruct (step h e) as [h1 effects1].
  simpl. now destruct (run h1 events) as [h2 effects2].
Qed.

Lemma timeouts_app a b : timeouts (a ++ b) = (timeouts a ++ timeouts b)%list.
Proof. unfold timeouts. apply flat_map_app. Qed.

Lemma timeouts_connectWs h : timeouts (snd (connectWs h)) = [].
Proof. unfold connectWs. now destruct (Js.truthy (token h)). Qed.

Lemma connectWs_keeps_refs h :
  token (fst (connectWs h)) = token h
  /\ reconnectDelay (fst (connectWs h)) = reconnectDelay h
  /\ unreadCount (fst (connectWs h)) = unreadCount h.
Proof. unfold connectWs. now destruct (Js.truthy (token h)). Qed.

Lemma onmessage_keeps_refs msg h :
  token (onmessage msg h) = token h
  /\ reconnectDelay (onmessage msg h) = reconnectDelay h.
Proof. destruct msg as [[]|]; simpl; auto. Qed.

Lemma step_delay h e :
  (WS_RECONNECT_BASE_MS <= reconnectDelay h <= WS_RECONNECT_MAX_MS)%Z ->
  (WS_RECONNECT_BASE_MS <= reconnectDelay (fst (step h e)) <= WS_RECONNECT_MAX_MS)%Z
  /\ Forall (fun ms => WS_RECONNECT_BASE_MS <= ms <= WS_RECONNECT_MAX_MS)%Z
            (timeouts (snd (step h e))).
Proof.
  unfold WS_RECONNECT_BASE_MS, WS_RECONNECT_MAX_MS. intro H.
  destruct e as [| | ok data | | | msg | | |]; simpl;
    unfold WS_RECONNECT_BASE_MS, WS_RECONNECT_MAX_MS.
  - destruct (connectWs_keeps_refs h) as [_ [Hd _]].
    pose proof (timeouts_connectWs h) as Ht.
    destruct (connectWs h) as [h' opened]. simpl in *. rewrite Hd.
    split; [exact H |]. rewrite timeouts_app, Ht. constructor.
  - split; [exact H |]. destruct (wsRef h); constructor.
  - destruct ok; simpl; (split; [exact H | constructor]).
  - split; [exact H | constructor].
  - split; [lia | constructor].
  - destruct (onmessage_keeps_refs msg h) as [_ ->]. split; [exact H | constructor].
  - split; [exact H |]. constructor; [exact H | constructor].
  - split; [exact H | constructor].
  - match goal with
    | |- context [connectWs ?hh] =>
        destruct (connectWs_keeps_refs hh) as [_ [Hd _]];
        pose proof (timeouts_connectWs hh) as Ht;
        destruct (connectWs hh) as [h' opened]
    end.
    simpl in *. rewrite Hd, Ht. split; [lia | constructor].
Qed.

Lemma run_delay events : forall h,
  (WS_RECONNECT_BASE_MS <= reconnectDelay h <= WS_RECONNECT_MAX_MS)%Z ->
  (WS_RECONNECT_BASE_MS <= reconnectDelay (fst (run h events)) <= WS_RECONNECT_MAX_MS)%Z
  /\ Forall (fun ms => WS_RECONNECT_BASE_MS <= ms <= WS_RECONNECT_MAX_MS)%Z
            (timeouts (snd (run h events))).
Proof.
  induction events as [| e events IH]; intros h H.
  - split; [exact H | constructor].
  - rewrite run_cons. cbn [fst snd].
    destruct (step_delay h e H) as [H1 F1].
    destruct (IH _ H1) as [H2 F2].
    split; [exact H2 |]. rewrite timeouts_app. apply Forall_app. now split.
Qed.

(** X27. Whatever happens to a mounted hook, its reconnection delay
    stays between one second and thirty seconds, and so does the delay
    of every reconnection timer it arms. *)
Theorem reconnect_delay_is_bounded (tok : option string) (events : list Event) :
  (WS_RECONNECT_BASE_MS
   <= reconnectDelay (fst (run (initial tok) events))
   <= WS_RECONNECT_MAX_MS)%Z
  /\ Forall (fun ms => WS_RECONNECT_BASE_MS <= ms <= WS_RECONNECT_MAX_MS)%Z
            (timeouts (snd (run (initial tok) events))).
Proof.
  apply run_delay. unfold initial, WS_RECONNECT_BASE_MS, WS_RECONNECT_MAX_MS.
  simpl. lia.
Qed.

Lemma failed_attempts_delay (n : nat) : forall h,
  (0 < reconnectDelay h <= WS_RECONNECT_MAX_MS)%Z ->
  reconnectDelay (fst (run h (failed_attempts n)))
  = Z.min (reconnectDelay h * 2 ^ Z.of_nat n) WS_RECONNECT_MAX_MS.
Proof.
  unfold WS_RECONNECT_MAX_MS.
  induction n as [| n IH]; intros h H.
  - simpl. lia.
  - cbn [failed_attempts]. rewrite !run_cons. cbn [fst].
    set (h2 := fst (step (fst (step h SocketClose)) TimerFired)).
    assert (Hd : reconnectDelay h2 = Z.min (reconnectDelay h * 2) 30000).
    { subst h2. cbn [step fst].
      match goal with
      | |- context [connectWs ?hh] =>
          destruct (connectWs_keeps_refs hh) as [_ [Hk _]]; rewrite Hk
      end.
      reflexivity. }
    rewrite IH by (rewrite Hd; lia). rewrite Hd.
    rewrite Nat2Z.inj_succ, Z.pow_succ_r by lia.
    assert (Hp : (1 <= 2 ^ Z.of_nat n)%Z) by (apply Z.lt_pred_le; simpl; apply Z.pow_pos_nonneg; lia).
    destruct (Z.le_gt_cases (reconnectDelay h * 2) 30000) as [Hle | Hgt].
    + rewrite (Z.min_l (reconnectDelay h * 2) 30000) by exact Hle.
      f_equal. ring.
    + rewrite (Z.min_r (reconnectDelay h * 2) 30000) by lia.
      rewrite !Z.min_r; [reflexivity | nia | nia].
Qed.

(** X28. The back-off doubles: after a connection was open, [n]
    failed attempts in a row leave a reconnection delay of
    [min (1000 * 2^n) 30000] milliseconds. *)
Theorem backoff_doubles_up_to_the_cap (h : Hook) (n : nat) :
  reconnectDelay
    (fst (run (fst (step h SocketOpen)) (failed_attempts n)))
  = Z.min (WS_RECONNECT_BASE_MS * 2 ^ Z.of_nat n) WS_RECONNECT_MAX_MS.
Proof.
  rewrite failed_attempts_delay.
  - reflexivity.
  - simpl. unfold WS_RECONNECT_BASE_MS, WS_RECONNECT_MAX_MS. lia.
Qed.

Lemma step_unread h e :
  count_not_negative e ->
  (0 <= unreadCount h)%Z ->
  (0 <= unreadCount (fst (step h e)))%Z.
Proof.
  intros He H.
  destruct e as [| | ok data | | | msg | | |]; simpl; try exact H.
  - destruct (connectWs_keeps_refs h) as [_ [_ Hu]].
    destruct (connectWs h) as [h' opened]. simpl in *. now rewrite Hu.
  - destruct ok; simpl; [| exact H].
    simpl in He. destruct (data_unreadCount data) as [c |]; simpl; [exact He | lia].
  - destruct msg as [[]|]; simpl; try exact H; lia.
  - match goal with
    | |- context [connectWs ?hh] =>
        destruct (connectWs_keeps_refs hh) as [_ [_ Hu]]; rewrite Hu
    end.
    exact H.
Qed.

Lemma run_unread events : forall h,
  Forall count_not_negative events ->
  (0 <= unreadCount h)%Z ->
  (0 <= unreadCount (fst (run h events)))%Z.
Proof.
  induction events as [| e events IH]; intros h F H; [exact H |].
  rewrite run_cons. cbn [fst]. inversion F as [| ? ? He F']; subst.
  apply IH; [exact F' |]. now apply step_unread.
Qed.

(** X29. The unread badge of the hook is never negative, whatever
    frames the socket delivers, as long as no fetch response carries a
    negative unread count. *)
Theorem unread_badge_is_never_negative (tok : option string) (events : list Event) :
  Forall count_not_negative events ->
  (0 <= unreadCount (fst (run (initial tok) events)))%Z.
Proof.
  intro F. apply run_unread; [exact F |]. simpl. lia.
Qed.

Lemma unread_badge_is_never_negative_witness :
  Forall count_not_negative
         [ Mounted;
           FetchResponse true (mkFetchData None (Some 2%Z));
           SocketOpen;
           SocketMessage (Some (Wire.NotificationRead ["n1"; "n2"; "n3"])) ]
  /\ (0 <= unreadCount
             (fst (run (initial (Some "jwt"))
                       [ Mounted;
                         FetchResponse true (mkFetchData None (Some 2%Z));
                         SocketOpen;
                         SocketMessage
                           (Some (Wire.NotificationRead ["n1"; "n2"; "n3"])) ])))%Z.
Proof.
  split.
  - repeat constructor. simpl. lia.
  - apply (unread_badge_is_never_negative
             (Some "jwt")
             [ Mounted;
               FetchResponse true (mkFetchData None (Some 2%Z));
               SocketOpen;
               SocketMessage (Some (Wire.NotificationRead ["n1"; "n2"; "n3"])) ]).
    repeat constructor. simpl. lia.
Defined.

Lemma step_token h e : token (fst (step h e)) = token h.
Proof.
  destruct e as [| | ok data | | | msg | | |]; simpl; try reflexivity.
  - destruct (connectWs_keeps_refs h) as [Ht _].
    destruct (connectWs h) as [h' opened]. exact Ht.
  - now destruct ok.
  - apply onmessage_keeps_refs.
  - match goal with
    | |- context [connectWs ?hh] => destruct (connectWs_keeps_refs hh) as [Ht _]
    end.
    exact Ht.
Qed.

Lemma step_without_token h e :
  Js.truthy (token h) = false ->
  filter is_open_socket (snd (step h e)) = [].
Proof.
  intro H.
  destruct e as [| | ok data | | | msg | | |]; simpl; try reflexivity.
  - unfold connectWs. now rewrite H.
  - now destruct (wsRef h).
  - now destruct ok.
  - unfold connectWs. simpl. now rewrite H.
Qed.

Lemma run_without_token events : forall h,
  Js.truthy (token h) = false ->
  filter is_open_socket (snd (run h events)) = [].
Proof.
  induction events as [| e events IH]; intros h H; [reflexivity |].
  rewrite run_cons. cbn [snd]. rewrite filter_app, step_without_token by exact H.
  apply IH. now rewrite step_token.
Qed.

(** X30. A hook that was given no token, or an empty one, never opens
    a socket: not on mount and not when a reconnection timer fires. *)
Theorem no_token_no_socket (tok : option string) (events : list Event) :
  Js.truthy tok = false ->
  filter is_open_socket (snd (run (initial tok) events)) = [].
Proof.
  intro H. now apply run_without_token.
Qed.

Lemma no_token_no_socket_witness :
  Js.truthy (Some EmptyString) = false
  /\ filter is_open_socket
            (snd (run (initial (Some EmptyString))
                      [Mounted; SocketClose; TimerFired; TimerFired])) = [].
Proof.
  split.
  - reflexivity.
  - apply (no_token_no_socket (Some EmptyString)
                              [Mounted; SocketClose; TimerFired; TimerFired]).
    reflexivity.
Defined.

End HookFacts.
